(** * QuickEnglishLevelBot: the session-scoped assessment engine

    A shallow embedding of the question repository
    (src/services/questionService.js), the session store
    (src/services/sessionService.js), the scoring engine
    (src/services/assessmentService.js), the handlers of the buttons
    and of the commands (src/handlers/callbackHandlers.js,
    src/handlers/commandHandlers.js, src/index.js), the helpers
    (src/utils/helpers.js), the monitoring service
    (src/services/monitoringService.js) and the monitor
    (src/monitorBot.js), followed by the properties of the specification
    that concern them and by further properties of the code.

    Conventions of the embedding.
    - A JavaScript number that the code only ever uses as an integer
      (ids, indices, weights, counters) is a [Z] or a [nat]; the result of
      [parseInt] and of [Math.round], which may be [NaN], is a
      [Js.number].
    - The quotient [(a / b) * 100] is evaluated in IEEE 754 binary64, as
      the engine does, with Rocq's primitive floats.
    - Objects used as dictionaries are [gmap]s with string keys; the
      session cache is a [gmap] keyed by the user id (the code uses the
      decimal rendering of the id, which is injective).
    - [new Date().toISOString()] is an explicit argument [now].
    - [Math.random()] is an explicit stream of fractions.
    - The bank is validated as parsed JSON; the methods that read a
      loaded bank take it as a list of typed records.
    - The events of a bot are handled one after the other, each to its
      end; what a handler sends is the list of its replies.
    - The results file of the monitor is the data that was last written
      to it, or nothing when it cannot be read.
    The transport (the client of Telegram, and what it does to the text
    of a message), the clock and the expiry of the cache are outside the
    embedding. *)

From Stdlib Require Import ZArith Floats Ascii DecimalString DecimalPos.
From stdpp Require Import base option list gmap strings.

Local Open Scope string_scope.
Local Open Scope Z_scope.

(** ** JavaScript values and operators used by the code *)

Module Js.

(** A number that may fail to be an integer: [parseInt] returns [NaN] on
    a string with no leading digits, [Math.round] propagates [NaN] and
    the infinities. *)
Inductive number : Type :=
| NaN
| Inf (negative : bool)
| Int (z : Z).

#[global] Instance number_eq_dec : EqDecision number.
Proof. solve_decision. Defined.

(** [n === p] for an integer [n]. *)
Definition strict_eq (n : Z) (p : number) : bool :=
  match p with
  | Int z => bool_decide (n = z)
  | _ => false
  end.

(** [p <= n] for an integer bound [n]; every comparison with [NaN] is
    false. *)
Definition le (p : number) (n : Z) : bool :=
  match p with
  | NaN => false
  | Inf negative => negative
  | Int z => bool_decide (z ≤ n)
  end.

(** Truthiness of an optional integer: [undefined] and [0] are falsy. *)
Definition truthy (w : option Z) : bool :=
  match w with
  | Some v => negb (bool_decide (v = 0))
  | None => false
  end.

(** [a || b] on optional integers. *)
Definition or (a b : option Z) : option Z :=
  if truthy a then a else b.

(** [a || d] where [d] is a literal. *)
Definition or_default (a : option Z) (d : Z) : Z :=
  match or a (Some d) with
  | Some v => v
  | None => d
  end.

(** [s || null] on an optional string: the empty string is falsy. *)
Definition or_null (s : option string) : option string :=
  match s with
  | Some v => if bool_decide (v = EmptyString) then None else Some v
  | None => None
  end.

(** The binary64 number nearest to an integer. *)
Definition of_Z (z : Z) : float :=
  SF2Prim (binary_normalize prec emax z 0 false).

(** [Math.round]: the integer nearest to [x], ties towards +infinity.
    A finite binary64 number is [(-1)^s * m * 2^e], so the rounding is
    computed exactly on integers. *)
Definition Math_round (x : float) : number :=
  match Prim2SF x with
  | S754_zero _ => Int 0
  | S754_infinity s => Inf s
  | S754_nan => NaN
  | S754_finite s m e =>
      let sm := if s then Z.neg m else Z.pos m in
      if bool_decide (0 ≤ e) then Int (sm * 2 ^ e)
      else Int ((2 * sm + 2 ^ (- e)) `div` 2 ^ (- e + 1))
  end.

(** [Math.round((a / b) * 100)]. *)
Definition round_percent (a b : Z) : number :=
  Math_round (PrimFloat.mul (PrimFloat.div (of_Z a) (of_Z b)) (of_Z 100)).

(** The binary64 value of a number that is an integer, an infinity or
    [NaN]. *)
Definition to_float (p : number) : float :=
  match p with
  | NaN => PrimFloat.nan
  | Inf negative =>
      if negative then PrimFloat.neg_infinity else PrimFloat.infinity
  | Int z => of_Z z
  end.

(** [Math.floor]: the greatest integer below or equal to [x]. *)
Definition Math_floor (x : float) : number :=
  match Prim2SF x with
  | S754_zero _ => Int 0
  | S754_infinity s => Inf s
  | S754_nan => NaN
  | S754_finite s m e =>
      let sm := if s then Z.neg m else Z.pos m in
      if bool_decide (0 ≤ e) then Int (sm * 2 ^ e)
      else Int (sm `div` 2 ^ (- e))
  end.

(** [p % d] for a literal [d] other than 0: the remainder has the sign
    of [p], and is exact. *)
Definition remainder (p : number) (d : Z) : number :=
  match p with
  | Int z => Int (Z.rem z d)
  | _ => NaN
  end.

(** [p > 0] *)
Definition positive (p : number) : bool :=
  match p with
  | NaN => false
  | Inf negative => negb negative
  | Int z => bool_decide (0 < z)
  end.

(** [Math.round(p / d)] for a literal [d]. *)
Definition round_div (p : number) (d : Z) : number :=
  Math_round (PrimFloat.div (to_float p) (of_Z d)).

(** [a - p] for a literal [a] and a number [p] that holds an integer. *)
Definition minus (a : Z) (p : number) : number :=
  Math_round (PrimFloat.sub (of_Z a) (to_float p)).

End Js.

(** ** JavaScript strings

    A string is the sequence of its code units, each held by a character
    of Rocq's [string]; the functions below are exact on strings whose
    code units are below 256. A character beyond, which occurs in the
    fixed texts of the messages only, is held as its UTF-8 bytes: none
    of them is an ASCII character, and the functions applied to such
    texts tell ASCII characters only. *)

Module JsString.

(** The decimal rendering [`${z}`] of an integer below 10^21 in absolute
    value. *)
Definition ofInteger (z : Z) : string :=
  NilZero.string_of_int (Z.to_int z).

(** The white space that [parseInt] skips: TAB, LF, VT, FF, CR, SP and
    NBSP. *)
Definition isWhiteSpace (c : ascii) : bool :=
  bool_decide (nat_of_ascii c ∈ [9; 10; 11; 12; 13; 32; 160]%nat).

Fixpoint trimStart (s : string) : string :=
  match s with
  | String c rest => if isWhiteSpace c then trimStart rest else s
  | EmptyString => s
  end.

(** The value of a digit in radix 10 or 16. *)
Definition digitValue (radix : Z) (c : ascii) : option Z :=
  let n := Z.of_nat (nat_of_ascii c) in
  if bool_decide (48 ≤ n ≤ 57) then Some (n - 48)
  else if bool_decide (radix = 16 ∧ 97 ≤ n ≤ 102) then Some (n - 87)
  else if bool_decide (radix = 16 ∧ 65 ≤ n ≤ 70) then Some (n - 55)
  else None.

(** The value of the longest prefix of digits, if it is not empty. *)
Fixpoint digits (radix : Z) (s : string) (acc : option Z) : option Z :=
  match s with
  | String c rest =>
      match digitValue radix c with
      | Some d => digits radix rest (Some (radix * default 0 acc + d))
      | None => acc
      end
  | EmptyString => acc
  end.

(** The number that holds an integer: the integer itself up to 2^53,
    where every integer is a binary64 number, and the nearest binary64
    number beyond. *)
Definition toNumber (z : Z) : Js.number :=
  if bool_decide (Z.abs z ≤ 2 ^ 53) then Js.Int z
  else Js.Math_round (Js.of_Z z).

(** [parseInt(s)], without a radix: white space, a sign, [0x] or [0X]
    for radix 16, then the longest prefix of digits; [NaN] when there is
    none. *)
Definition parseInt (s : string) : Js.number :=
  let trimmed := trimStart s in
  let '(negative, unsigned) :=
    match trimmed with
    | String "-" rest => (true, rest)
    | String "+" rest => (false, rest)
    | _ => (false, trimmed)
    end in
  let '(radix, body) :=
    match unsigned with
    | String "0" (String "x" rest) | String "0" (String "X" rest) =>
        (16, rest)
    | _ => (10, unsigned)
    end in
  match digits radix body None with
  | Some n => toNumber (if negative then - n else n)
  | None => Js.NaN
  end.

(** [parseInt(parts[i])]: an element that is missing is [undefined],
    which has no digits. *)
Definition parseInt_item (item : option string) : Js.number :=
  match item with
  | Some s => parseInt s
  | None => Js.NaN
  end.

(** [s.split(sep)] for a separator of one character. *)
Fixpoint split (sep : ascii) (s : string) : list string :=
  match s with
  | EmptyString => [EmptyString]
  | String c rest =>
      if bool_decide (c = sep) then EmptyString :: split sep rest
      else match split sep rest with
           | first :: others => String c first :: others
           | [] => [String c EmptyString]
           end
  end.

(** [s.startsWith(prefix)] *)
Definition startsWith (prefix s : string) : bool :=
  String.prefix prefix s.

(** [s.includes(part)] *)
Fixpoint includes (part s : string) : bool :=
  String.prefix part s
  || match s with
     | String _ rest => includes part rest
     | EmptyString => false
     end.

(** [`${p}`] for a number that holds an integer below 10^21 in absolute
    value, an infinity or [NaN]. *)
Definition ofNumber (p : Js.number) : string :=
  match p with
  | Js.NaN => "NaN"
  | Js.Inf negative => if negative then "-Infinity" else "Infinity"
  | Js.Int z => ofInteger z
  end.

(** [`${v}`] for a property that may be missing. *)
Definition ofProperty (v : option Js.number) : string :=
  match v with
  | Some p => ofNumber p
  | None => "undefined"
  end.

(** The line feed. *)
Definition LF : string := String "010" EmptyString.

End JsString.

(** ** Regular expressions

    The patterns of the monitor are sequences of three kinds of nodes:
    a literal character, an optional literal character [c?], and the one
    group of the pattern, [(\d+)] or [(\w+)]. They are matched as
    JavaScript does, by backtracking, the optional character and the
    repetition being greedy. *)

Module JsRegExp.

Inductive CharClass : Type :=
| Digit
| Word.

(** [\d] is [0-9] and [\w] is [A-Za-z0-9_]. *)
Definition inClass (cls : CharClass) (c : ascii) : bool :=
  let n := nat_of_ascii c in
  let digit := bool_decide (48 ≤ n ≤ 57)%nat in
  match cls with
  | Digit => digit
  | Word =>
      digit || bool_decide (65 ≤ n ≤ 90)%nat
      || bool_decide (97 ≤ n ≤ 122)%nat || bool_decide (n = 95%nat)
  end.

Inductive Node : Type :=
| Chr (c : ascii)
| Opt (c : ascii)
| Group (cls : CharClass).

(** The nodes of a literal text. *)
Fixpoint chars (text : string) : list Node :=
  match text with
  | EmptyString => []
  | String c rest => Chr c :: chars rest
  end.

(** [cls+] followed by [continue]: one character of the class, then as
    many more as let the rest of the pattern match. [taken] is what the
    group has matched so far. *)
Fixpoint plus {R} (cls : CharClass) (continue : string → string → option R)
    (s taken : string) : option R :=
  match s with
  | String c rest =>
      if inClass cls c then
        let taken' := taken +:+ String c EmptyString in
        match plus cls continue rest taken' with
        | Some r => Some r
        | None => continue rest taken'
        end
      else None
  | EmptyString => None
  end.

(** A match of the nodes at the beginning of [s]: what the group has
    captured, if the nodes match. *)
Fixpoint matchHere (nodes : list Node) (s : string) (captured : option string)
  : option (option string) :=
  match nodes with
  | [] => Some captured
  | Chr c :: rest =>
      match s with
      | String d s' =>
          if bool_decide (c = d) then matchHere rest s' captured else None
      | EmptyString => None
      end
  | Opt c :: rest =>
      match s with
      | String d s' =>
          if bool_decide (c = d) then
            match matchHere rest s' captured with
            | Some r => Some r
            | None => matchHere rest s captured
            end
          else matchHere rest s captured
      | EmptyString => matchHere rest s captured
      end
  | Group cls :: rest =>
      plus cls (λ s' taken, matchHere rest s' (Some taken)) s EmptyString
  end.

(** [s.match(pattern)], for a pattern without the flag [g]: the first
    position of [s] at which the pattern matches; [None] is [null]. *)
Fixpoint exec (nodes : list Node) (s : string) : option (option string) :=
  match matchHere nodes s None with
  | Some r => Some r
  | None =>
      match s with
      | String _ rest => exec nodes rest
      | EmptyString => None
      end
  end.

(** [m[1]] for a match [m] of a pattern with a group. *)
Definition group1 (m : option string) : string :=
  default "undefined" m.

End JsRegExp.

(** ** Results of fallible operations *)

Inductive result (E A : Type) : Type :=
| Ok (a : A)
| Err (e : E).
Arguments Ok {E A} a.
Arguments Err {E A} e.

(** The exception of [String.prototype.repeat]. *)
Inductive RangeError : Type :=
| InvalidCount.

(** The number of copies that [s.repeat(count)] concatenates: [NaN]
    counts as 0, a negative or infinite count is a [RangeError]. *)
Definition repeat_count (count : Js.number) : result RangeError nat :=
  match count with
  | Js.NaN => Ok 0%nat
  | Js.Inf _ => Err InvalidCount
  | Js.Int z =>
      if bool_decide (z < 0) then Err InvalidCount else Ok (Z.to_nat z)
  end.

(** ** Questions *)

(** A question of the bank, with the field types of the README's table.
    [weight] is optional. *)
Module Question.
Record t : Type := mk {
  id : Z;
  text : string;
  options : list string;
  correct : Z;
  level : string;
  category : string;
  weight : option Z
}.

#[global] Instance eq_dec : EqDecision t.
Proof. solve_decision. Defined.
End Question.

Abbreviation Question := Question.t.

(** [array[i]] for a numeric index: [undefined] outside the array. *)
Definition index {A} (l : list A) (i : Z) : option A :=
  if bool_decide (0 ≤ i) then l !! Z.to_nat i else None.

(** ** Parsed JSON

    What [JSON.parse] returns. A number is a binary64 float, as in
    JavaScript. The fields of an object are listed once each. *)

Module Json.

#[warnings="-register-all"]
Inductive value : Type :=
| Null
| Bool (b : bool)
| Num (x : float)
| Str (s : string)
| Arr (items : list value)
| Obj (fields : list (string * value)).

(** [v[k]] for [v] other than [null]; [None] is [undefined]. Of the
    values above only an object has a property named like a question
    field. *)
Definition get (v : value) (k : string) : option value :=
  match v with
  | Obj fields => snd <$> List.find (λ kv, bool_decide (kv.1 = k)) fields
  | _ => None
  end.

(** [v === undefined] *)
Definition isUndefined (v : option value) : bool :=
  match v with
  | None => true
  | Some _ => false
  end.

(** Truthiness of a possibly undefined value. *)
Definition truthy (v : option value) : bool :=
  match v with
  | None | Some Null => false
  | Some (Bool b) => b
  | Some (Num x) => negb (PrimFloat.eqb x 0 || negb (PrimFloat.eqb x x))
  | Some (Str s) => negb (bool_decide (s = EmptyString))
  | Some (Arr _) | Some (Obj _) => true
  end.

(** [Array.isArray(v) && v.length === n] *)
Definition isArrayOfLength (v : option value) (n : nat) : bool :=
  match v with
  | Some (Arr items) => bool_decide (length items = n)
  | _ => false
  end.

(** [strings.includes(v)]: only a string is equal to a string. *)
Definition includedIn (strings : list string) (v : option value) : bool :=
  match v with
  | Some (Str s) => bool_decide (s ∈ strings)
  | _ => false
  end.

End Json.

(** ** [Math.random] *)

Module Random.

(** One result of [Math.random()]: the fraction [num / den], which is
    in the interval [0, 1) when [num < den]. *)
Record draw : Type := mk { num : nat; den : nat }.

Definition in_unit_interval (d : draw) : Prop := (num d < den d)%nat.

(** [Math.floor(d * n)], the product being exact. The code takes the
    product in binary64, where a product that lies half a unit in the
    last place under an integer is rounded to this integer, so that for
    some draws the code gets the next index; like the one computed here
    it is below [n], and the properties of the shuffles hold for every
    stream of draws. *)
Definition floor_mul (d : draw) (n : nat) : nat :=
  ((num d * n) `div` den d)%nat.

End Random.

(** ** Arrays that are created and updated in place

    [filter], [slice] and the spread [[...a]] create an array; [push] and
    an indexed assignment update one in place. An array is a reference into
    a store of arrays, so that a method that updated the array of another
    would be seen to do so. The state also counts the calls of
    [Math.random]. *)

Module Heap.

Definition ref : Type := nat.

Record state : Type := mk {
  arrays : list (list Question);
  draws : nat → Random.draw;
  calls : nat
}.

Definition M (A : Type) : Type := state → A * state.

#[global] Instance M_ret : MRet M := λ A a σ, (a, σ).
#[global] Instance M_bind : MBind M :=
  λ A B f m σ, let '(a, σ') := m σ in f a σ'.

(** A new array with the given elements. *)
Definition alloc (xs : list Question) : M ref :=
  λ σ, (length (arrays σ),
        {| arrays := arrays σ ++ [xs]; draws := draws σ; calls := calls σ |}).

(** The elements of an array. *)
Definition read (r : ref) : M (list Question) :=
  λ σ, (default [] (arrays σ !! r), σ).

(** Replace the elements of an array, in place. *)
Definition write (r : ref) (xs : list Question) : M unit :=
  λ σ, (tt, {| arrays := <[r := xs]> (arrays σ);
               draws := draws σ; calls := calls σ |}).

(** [Math.random()] *)
Definition random : M Random.draw :=
  λ σ, (draws σ (calls σ),
        {| arrays := arrays σ; draws := draws σ; calls := S (calls σ) |}).

(** [for (let i = n; i > 0; i--) body(i)] *)
Fixpoint for_down (i : nat) (body : nat → M unit) : M unit :=
  match i with
  | O => mret tt
  | S i' => body i ≫= λ _, for_down i' body
  end.

(** [for (const x of xs) body(x)] *)
Fixpoint for_of {A} (xs : list A) (body : A → M unit) : M unit :=
  match xs with
  | [] => mret tt
  | x :: rest => body x ≫= λ _, for_of rest body
  end.

(** [[a[i], a[j]] = [a[j], a[i]]]: both elements are read, then [a[i]]
    and [a[j]] are assigned. The loop of [shuffleArray] has
    [j <= i < a.length], since [Math.random()] is below 1. An index past
    the end, where JavaScript would read [undefined] and lengthen the
    array, is outside this model of arrays of questions: such a call
    leaves the array as it is, and the properties of the selection are
    stated for draws below 1. *)
Definition swap (a : ref) (i j : nat) : M unit :=
  xs ← read a;
  match xs !! j, xs !! i with
  | Some xj, Some xi => write a (<[j := xi]> (<[i := xj]> xs))
  | _, _ => mret tt
  end.

(** [a.push(...b)] *)
Definition push_all (a b : ref) : M unit :=
  xs ← read a; ys ← read b; write a (xs ++ ys).

(** [a.slice(0, n)] *)
Definition slice0 (a : ref) (n : nat) : M ref :=
  xs ← read a; alloc (take n xs).

(** [a.filter(p)] *)
Definition filter_array (P : Question → Prop) `{!∀ q, Decision (P q)}
    (a : ref) : M ref :=
  xs ← read a; alloc (filter P xs).

End Heap.

(** ** The question repository (src/services/questionService.js) *)

Module QuestionService.

(** The service object once it is loaded: [this.questions], for a bank
    whose fields have the types of the README's table. The methods that
    only read the bank are functions of this record. *)
Record t : Type := mk { questions : list Question }.

(** What [checkAnswer] returns. *)
Record CheckResult : Type := mkCheckResult {
  isCorrect : bool;
  correctAnswer : Z;
  correctOption : option string;
  selectedOption : Js.number;
  weight : Z
}.

Inductive Error : Type :=
| NotFound (questionId : Js.number).

Definition getAllQuestions (this : t) : list Question :=
  questions this.

(** [this.questions.filter(q => q.level === level)] *)
Definition getQuestionsByLevel (this : t) (lvl : string) : list Question :=
  filter (λ q, Question.level q = lvl) (questions this).

(** [this.questions.filter(q => q.category === category)] *)
Definition getQuestionsByCategory (this : t) (cat : string) : list Question :=
  filter (λ q, Question.category q = cat) (questions this).

(** [this.questions.find(q => q.id === id) || null] *)
Definition getQuestionById (this : t) (qid : Js.number) : option Question :=
  List.find (λ q, Js.strict_eq (Question.id q) qid) (questions this).

Definition checkAnswer (this : t) (questionId selected : Js.number)
  : result Error CheckResult :=
  match getQuestionById this questionId with
  | None => Err (NotFound questionId)
  | Some question =>
      Ok {| isCorrect := Js.strict_eq (Question.correct question) selected;
            correctAnswer := Question.correct question;
            correctOption :=
              index (Question.options question) (Question.correct question);
            selectedOption := selected;
            weight := Js.or_default (Question.weight question) 1 |}
  end.

(** What [getStats] returns: the size of the bank and the sizes of the
    pools of the four levels and of the two categories. *)
Record Stats : Type := mkStats {
  total : nat;
  byLevel : gmap string nat;
  byCategory : gmap string nat
}.

Definition getStats (this : t) : Stats :=
  {| total := length (questions this);
     byLevel :=
       foldl (λ stats lvl,
                <[lvl := length (getQuestionsByLevel this lvl)]> stats)
         ∅ ["A1"; "A2"; "B1"; "B2"];
     byCategory :=
       foldl (λ stats cat,
                <[cat := length (getQuestionsByCategory this cat)]> stats)
         ∅ ["vocabulary"; "grammar"] |}.

(** *** Selecting the questions of a test

    The methods of this part create and shuffle arrays; they run in
    [Heap.M], and [this_questions] is the array [this.questions]. *)

Section Selection.
Import Heap.

Variable this_questions : ref.

(** [getQuestionsByLevel], returning its new array. *)
Definition getQuestionsByLevel_array (lvl : string) : M ref :=
  filter_array (λ q, Question.level q = lvl) this_questions.

(** Fisher-Yates on a copy of the argument. *)
Definition shuffleArray (array : ref) : M ref :=
  xs ← read array;
  shuffled ← alloc xs;
  _ ← for_down (length xs - 1) (λ i,
        r ← random;
        let j := Random.floor_mul r (i + 1) in
        swap shuffled i j);
  mret shuffled.

(** The options of [selectQuestionsForTest]; [questionsPerLevel] lists
    the entries of the object in their order. *)
Record SelectConfig : Type := mkSelectConfig {
  totalQuestions : option nat;
  questionsPerLevel : option (list (string * nat))
}.

(** The body shared by the two loops: draw [count] questions of a
    level into [selectedQuestions]. *)
Definition selectLevel (selectedQuestions : ref) (lvl : string)
    (count : nat) : M unit :=
  levelQuestions ← getQuestionsByLevel_array lvl;
  shuffled ← shuffleArray levelQuestions;
  selected ← slice0 shuffled count;
  push_all selectedQuestions selected.

Definition selectQuestionsForTest (config : SelectConfig) : M ref :=
  let total := default 20%nat (totalQuestions config) in
  selectedQuestions ← alloc [];
  _ ← match questionsPerLevel config with
      | Some entries =>
          for_of entries (λ '(lvl, count),
            selectLevel selectedQuestions lvl count)
      | None =>
          let levels := ["A1"; "A2"; "B1"; "B2"] in
          let perLevel := (total `div` length levels)%nat in
          for_of levels (λ lvl,
            selectLevel selectedQuestions lvl perLevel)
      end;
  shuffleArray selectedQuestions.

End Selection.

(** *** Loading and validating the bank

    The bank is validated as parsed JSON, before anything is known of
    the types of its fields. *)

Definition requiredFields : list string :=
  ["id"; "text"; "options"; "correct"; "level"; "category"].
Definition validLevels : list string := ["A1"; "A2"; "B1"; "B2"].
Definition validCategories : list string := ["vocabulary"; "grammar"].

(** The messages of the errors thrown by [validateQuestions], with the
    values interpolated in them. [NullQuestion] is the [TypeError] of
    reading a property of [null]. *)
Inductive ValidationError : Type :=
| MissingField (name : option Json.value) (field : string)
| NotFourOptions (qid : option Json.value)
| InvalidCorrectIndex (qid : option Json.value)
| InvalidLevel (qid lvl : option Json.value)
| InvalidCategory (qid cat : option Json.value)
| NullQuestion.

Inductive LoadError : Type :=
| ReadFailed
| LoadFailed (e : ValidationError).

(** The bank as held by the service while it is loaded. *)
Record Loader : Type := mkLoader { loaded : list Json.value }.

(** What [fs.readFileSync] and [JSON.parse] deliver: a failure, or a
    document whose [questions] property is an array or is missing. *)
Inductive Source : Type :=
| Unreadable
| Parsed (bank : option (list Json.value)).

Section Validation.

(** ECMAScript's [ToNumber] on a string and on an array (which is
    first joined into a string). The validator only compares its
    result with 0 and 3. *)
Variable StringToNumber : Json.value → float.

Definition ToNumber (v : option Json.value) : float :=
  match v with
  | None => PrimFloat.nan
  | Some Json.Null => Js.of_Z 0
  | Some (Json.Bool b) => Js.of_Z (if b then 1 else 0)
  | Some (Json.Num x) => x
  | Some (Json.Str s) => StringToNumber (Json.Str s)
  | Some (Json.Arr items) => StringToNumber (Json.Arr items)
  | Some (Json.Obj _) => PrimFloat.nan
  end.

(** [v < 0 || v > 3] *)
Definition outsideIndexRange (v : option Json.value) : bool :=
  PrimFloat.ltb (ToNumber v) (Js.of_Z 0)
  || PrimFloat.ltb (Js.of_Z 3) (ToNumber v).

(** The body of the loop of [validateQuestions]. *)
Definition validateQuestion (question : Json.value)
  : result ValidationError unit :=
  match question with
  | Json.Null => Err NullQuestion
  | _ =>
      let field := Json.get question in
      match List.find (λ f, Json.isUndefined (field f)) requiredFields with
      | Some f =>
          Err (MissingField
                 (if Json.truthy (field "id") then field "id" else None) f)
      | None =>
          if negb (Json.isArrayOfLength (field "options") 4)
          then Err (NotFourOptions (field "id"))
          else if outsideIndexRange (field "correct")
          then Err (InvalidCorrectIndex (field "id"))
          else if negb (Json.includedIn validLevels (field "level"))
          then Err (InvalidLevel (field "id") (field "level"))
          else if negb (Json.includedIn validCategories (field "category"))
          then Err (InvalidCategory (field "id") (field "category"))
          else Ok ()
      end
  end.

Fixpoint validateQuestions (bank : list Json.value)
  : result ValidationError unit :=
  match bank with
  | [] => Ok ()
  | question :: rest =>
      match validateQuestion question with
      | Err e => Err e
      | Ok _ => validateQuestions rest
      end
  end.

(** [loadQuestions]: the new bank is stored in the service and then
    validated. *)
Definition loadQuestions (source : Source) (this : Loader)
  : Loader * result LoadError unit :=
  match source with
  | Unreadable => (this, Err ReadFailed)
  | Parsed bank =>
      let this' := {| loaded := default [] bank |} in
      match validateQuestions (loaded this') with
      | Ok _ => (this', Ok ())
      | Err e => (this', Err (LoadFailed e))
      end
  end.

(** The constructor: an exception of [loadQuestions] leaves no
    service. *)
Definition construct (source : Source) : result LoadError Loader :=
  match loadQuestions source {| loaded := [] |} with
  | (this, Ok _) => Ok this
  | (_, Err e) => Err e
  end.

Definition reloadQuestions (source : Source) (this : Loader)
  : Loader * result LoadError unit :=
  loadQuestions source this.

End Validation.

End QuestionService.

(** ** The session store (src/services/sessionService.js)

    The cache maps a user id to the session object of that user. Its
    expiry, which removes an entry after the configured time, is a step
    of the environment and not of the methods below. *)

Module Answer.
(** The argument of [recordAnswer]. *)
Record t : Type := mk {
  questionId : Js.number;
  selectedOption : Js.number;
  isCorrect : bool;
  weight : option Z
}.
End Answer.

Module AnswerRecord.
(** The object that [recordAnswer] appends to [session.answers]. *)
Record t : Type := mk {
  questionId : Js.number;
  selectedOption : Js.number;
  isCorrect : bool;
  timestamp : string
}.

#[global] Instance eq_dec : EqDecision t.
Proof. solve_decision. Defined.
End AnswerRecord.

Module Session.
Inductive State : Type := ready | in_progress | completed | cancelled.

#[global] Instance State_eq_dec : EqDecision State.
Proof. solve_decision. Defined.

Record t : Type := mk {
  userId : Z;
  username : option string;
  startTime : string;
  answers : list AnswerRecord.t;
  currentQuestion : nat;
  questions : list Question;
  score : Z;
  isComplete : bool;
  state : State;
  endTime : option string
}.

#[global] Instance eq_dec : EqDecision t.
Proof. solve_decision. Defined.

(** The object spread over a session by [updateSession]: the fields
    that its callers set. *)
Record Updates : Type := mkUpdates {
  set_questions : option (list Question);
  set_state : option State;
  set_isComplete : option bool;
  set_endTime : option string
}.

(** [{ ...session, ...updates }] *)
Definition spread (session : t) (updates : Updates) : t :=
  {| userId := userId session;
     username := username session;
     startTime := startTime session;
     answers := answers session;
     currentQuestion := currentQuestion session;
     questions := default (questions session) (set_questions updates);
     score := score session;
     isComplete := default (isComplete session) (set_isComplete updates);
     state := default (state session) (set_state updates);
     endTime := match set_endTime updates with
                | Some e => Some e
                | None => endTime session
                end |}.
End Session.

Module SessionService.

Abbreviation cache := (gmap Z Session.t).

Definition createSession (now : string) (userId : Z)
    (username : option string) (this : cache) : Session.t * cache :=
  let session :=
    {| Session.userId := userId;
       Session.username := Js.or_null username;
       Session.startTime := now;
       Session.answers := [];
       Session.currentQuestion := 0;
       Session.questions := [];
       Session.score := 0;
       Session.isComplete := false;
       Session.state := Session.ready;
       Session.endTime := None |} in
  (session, <[userId := session]> this).

Definition getSession (userId : Z) (this : cache) : option Session.t :=
  this !! userId.

Definition updateSession (userId : Z) (updates : Session.Updates)
    (this : cache) : option Session.t * cache :=
  match getSession userId this with
  | None => (None, this)
  | Some session =>
      let updatedSession := Session.spread session updates in
      (Some updatedSession, <[userId := updatedSession]> this)
  end.

Definition recordAnswer (now : string) (userId : Z) (answer : Answer.t)
    (this : cache) : option Session.t * cache :=
  match getSession userId this with
  | None => (None, this)
  | Some session =>
      let answerRecord :=
        {| AnswerRecord.questionId := Answer.questionId answer;
           AnswerRecord.selectedOption := Answer.selectedOption answer;
           AnswerRecord.isCorrect := Answer.isCorrect answer;
           AnswerRecord.timestamp := now |} in
      let session' :=
        {| Session.userId := Session.userId session;
           Session.username := Session.username session;
           Session.startTime := Session.startTime session;
           Session.answers := Session.answers session ++ [answerRecord];
           Session.currentQuestion := Session.currentQuestion session + 1;
           Session.questions := Session.questions session;
           Session.score :=
             if Answer.isCorrect answer
             then Session.score session
                  + Js.or_default (Answer.weight answer) 1
             else Session.score session;
           Session.isComplete := Session.isComplete session;
           Session.state := Session.state session;
           Session.endTime := Session.endTime session |} in
      (Some session', <[userId := session']> this)
  end.

Definition setQuestions (userId : Z) (questions : list Question)
    (this : cache) : option Session.t * cache :=
  updateSession userId
    {| Session.set_questions := Some questions;
       Session.set_state := None;
       Session.set_isComplete := None;
       Session.set_endTime := None |} this.

Definition getCurrentQuestion (userId : Z) (this : cache)
  : option Question :=
  match getSession userId this with
  | None => None
  | Some session =>
      if bool_decide (length (Session.questions session)
                      ≤ Session.currentQuestion session)%nat
      then None
      else Session.questions session !! Session.currentQuestion session
  end.

Definition isTestComplete (userId : Z) (this : cache) : bool :=
  match getSession userId this with
  | None => false
  | Some session =>
      bool_decide (length (Session.questions session)
                   ≤ Session.currentQuestion session)%nat
  end.

Definition completeSession (now : string) (userId : Z) (this : cache)
  : option Session.t * cache :=
  updateSession userId
    {| Session.set_questions := None;
       Session.set_state := Some Session.completed;
       Session.set_isComplete := Some true;
       Session.set_endTime := Some now |} this.

Definition clearSession (userId : Z) (this : cache) : bool * cache :=
  (bool_decide (is_Some (this !! userId)), delete userId this).

Definition hasSession (userId : Z) (this : cache) : bool :=
  bool_decide (is_Some (this !! userId)).

Definition resetSession (now : string) (userId : Z)
    (username : option string) (this : cache) : Session.t * cache :=
  createSession now userId username (clearSession userId this).2.

(** [this.cache.keys().map(key => this.cache.get(key))]: the sessions of
    the cache. Nothing that reads them depends on their order. *)
Definition getAllSessions (this : cache) : list Session.t :=
  (map_to_list this).*2.

(** [this.cache.keys().length] *)
Definition getActiveSessionCount (this : cache) : nat :=
  length ((map_to_list this).*1).

Record Stats : Type := mkStats {
  totalActive : nat;
  inProgress : nat;
  completed : nat;
  ready : nat
}.

Definition getStats (this : cache) : Stats :=
  let sessions := getAllSessions this in
  {| totalActive := length sessions;
     inProgress :=
       length (filter (λ s, Session.state s = Session.in_progress) sessions);
     completed :=
       length (filter (λ s, Session.state s = Session.completed) sessions);
     ready :=
       length (filter (λ s, Session.state s = Session.ready) sessions) |}.

End SessionService.

(** ** The scoring engine (src/services/assessmentService.js) *)

Module AssessmentService.

(** [config.scoring.levelThresholds]: the [max] of the three levels that
    [determineLevel] reads. *)
Record Thresholds : Type := mkThresholds {
  A1_max : Z;
  A2_max : Z;
  B1_max : Z
}.

Record Config : Type := mkConfig {
  weights : gmap string Z;
  levelThresholds : Thresholds;
  recommendations : gmap string string
}.

Definition getDefaultConfig : Config :=
  {| weights := {[ "A1" := 1; "A2" := 2; "B1" := 3; "B2" := 4 ]};
     levelThresholds := {| A1_max := 25; A2_max := 50; B1_max := 75 |};
     recommendations :=
       {[ "A1" := "Focus on basic vocabulary and simple grammar structures.";
          "A2" := "Practice past and future tenses, expand your vocabulary.";
          "B1" := "Work on more complex grammar and improve fluency.";
          "B2" := "Focus on advanced vocabulary and complex sentence structures." ]}
  |}.

Record Stats : Type := mkStats { correct : nat; total : nat }.

#[global] Instance Stats_eq_dec : EqDecision Stats.
Proof. solve_decision. Defined.

Record Assessment : Type := mkAssessment {
  level : string;
  percentageScore : Js.number;
  totalQuestions : nat;
  correctAnswers : nat;
  categoryStats : gmap string Stats;
  categoryPercentages : gmap string Js.number;
  levelStats : gmap string Stats;
  levelPercentages : gmap string Js.number;
  earnedWeight : Z;
  totalWeight : Z;
  recommendation : string;
  completedAt : string
}.

Definition determineLevel (config : Config) (percentage : Js.number)
  : string :=
  let thresholds := levelThresholds config in
  if Js.le percentage (A1_max thresholds) then "A1"
  else if Js.le percentage (A2_max thresholds) then "A2"
  else if Js.le percentage (B1_max thresholds) then "B1"
  else "B2".

(** [config.recommendations[level] || "Keep practicing ..."]; the empty
    string is falsy. *)
Definition getRecommendation (config : Config) (lvl : string) : string :=
  match recommendations config !! lvl with
  | Some r =>
      if bool_decide (r = EmptyString)
      then "Keep practicing to improve your English skills!"
      else r
  | None => "Keep practicing to improve your English skills!"
  end.

(** The variables that the loop over the answers updates. *)
Record Tally : Type := mkTally {
  tally_totalWeight : Z;
  tally_earnedWeight : Z;
  tally_categoryStats : gmap string Stats;
  tally_levelStats : gmap string Stats
}.

(** [if (stats[key]) { stats[key].total++; if (isCorrect) stats[key].correct++ }] *)
Definition count (key : string) (isCorrect : bool)
    (stats : gmap string Stats) : gmap string Stats :=
  match stats !! key with
  | Some st =>
      <[key := {| correct := if isCorrect then S (correct st) else correct st;
                  total := S (total st) |}]> stats
  | None => stats
  end.

(** The body of the loop of [calculateAssessment]. The three lookups
    [weights[level]], [categoryStats[category]] and [levelStats[level]]
    are lookups among the keys that the object has of its own. They are
    those of the code for a level and a category that name no property
    that every object inherits, as the levels and the categories of a
    validated bank; for a name such as constructor or __proto__ the code
    finds the inherited property, which is no number. *)
Definition tallyAnswer (config : Config) (questions : list Question)
    (acc : Tally) (answer : AnswerRecord.t) : Tally :=
  match List.find (λ q, Js.strict_eq (Question.id q)
                          (AnswerRecord.questionId answer)) questions with
  | None => acc
  | Some question =>
      let weight :=
        Js.or_default
          (Js.or (Question.weight question)
                 (weights config !! Question.level question)) 1 in
      let isCorrect := AnswerRecord.isCorrect answer in
      {| tally_totalWeight := tally_totalWeight acc + weight;
         tally_earnedWeight :=
           if isCorrect then tally_earnedWeight acc + weight
           else tally_earnedWeight acc;
         tally_categoryStats :=
           count (Question.category question) isCorrect
             (tally_categoryStats acc);
         tally_levelStats :=
           count (Question.level question) isCorrect
             (tally_levelStats acc) |}
  end.

(** [total > 0 ? Math.round((part / total) * 100) : 0] *)
Definition percentage (part whole : Z) : Js.number :=
  if bool_decide (0 < whole) then Js.round_percent part whole
  else Js.Int 0.

Definition statsPercentage (st : Stats) : Js.number :=
  percentage (Z.of_nat (correct st)) (Z.of_nat (total st)).

Definition emptyTally : Tally :=
  let zero := {| correct := 0; total := 0 |} in
  {| tally_totalWeight := 0;
     tally_earnedWeight := 0;
     tally_categoryStats := {[ "vocabulary" := zero; "grammar" := zero ]};
     tally_levelStats :=
       {[ "A1" := zero; "A2" := zero; "B1" := zero; "B2" := zero ]} |}.

Definition calculateAssessment (config : Config) (now : string)
    (session : Session.t) (questions : list Question) : Assessment :=
  let answers := Session.answers session in
  let acc := foldl (tallyAnswer config questions) emptyTally answers in
  let percentageScore :=
    percentage (tally_earnedWeight acc) (tally_totalWeight acc) in
  let lvl := determineLevel config percentageScore in
  {| level := lvl;
     percentageScore := percentageScore;
     totalQuestions := length answers;
     correctAnswers :=
       length (filter (λ a, AnswerRecord.isCorrect a = true) answers);
     categoryStats := tally_categoryStats acc;
     categoryPercentages := statsPercentage <$> tally_categoryStats acc;
     levelStats := tally_levelStats acc;
     levelPercentages := statsPercentage <$> tally_levelStats acc;
     earnedWeight := tally_earnedWeight acc;
     totalWeight := tally_totalWeight acc;
     recommendation := getRecommendation config lvl;
     completedAt := now |}.

(** [calculateDuration], from [end - start] in milliseconds, which is
    [NaN] when the start time is no date. *)
Definition calculateDuration (durationMs : Js.number) : string :=
  let minutes :=
    Js.Math_floor (PrimFloat.div (Js.to_float durationMs) (Js.of_Z 60000)) in
  let seconds :=
    Js.Math_floor
      (PrimFloat.div (Js.to_float (Js.remainder durationMs 60000))
         (Js.of_Z 1000)) in
  if Js.positive minutes
  then JsString.ofNumber minutes +:+ "m " +:+ JsString.ofNumber seconds +:+ "s"
  else JsString.ofNumber seconds +:+ "s".

(** [formatMonitoringMessage]. [localeNow] is
    [new Date().toLocaleString()] and [durationMs] the time since the
    start of the session. *)
Definition formatMonitoringMessage (localeNow : string)
    (durationMs : Js.number) (session : Session.t) (assessment : Assessment)
  : string :=
  let LF := JsString.LF in
  "📝 *New Test Completed*" +:+ LF +:+ LF
  +:+ "👤 User ID: `" +:+ JsString.ofInteger (Session.userId session)
  +:+ "`" +:+ LF
  +:+ match Session.username session with
      | Some username =>
          if bool_decide (username = EmptyString) then EmptyString
          else "👤 Username: @" +:+ username +:+ LF
      | None => EmptyString
      end
  +:+ "🕐 Completed: " +:+ localeNow +:+ LF +:+ LF
  +:+ "📊 *Results:*" +:+ LF
  +:+ "• Level: *" +:+ level assessment +:+ "*" +:+ LF
  +:+ "• Score: *" +:+ JsString.ofNumber (percentageScore assessment)
  +:+ "%*" +:+ LF
  +:+ "• Correct: "
  +:+ JsString.ofInteger (Z.of_nat (correctAnswers assessment)) +:+ "/"
  +:+ JsString.ofInteger (Z.of_nat (totalQuestions assessment)) +:+ LF
  +:+ "• Vocabulary: "
  +:+ JsString.ofProperty (categoryPercentages assessment !! "vocabulary")
  +:+ "%" +:+ LF
  +:+ "• Grammar: "
  +:+ JsString.ofProperty (categoryPercentages assessment !! "grammar")
  +:+ "%" +:+ LF
  +:+ LF +:+ "⏱ Duration: " +:+ calculateDuration durationMs.

(** What [generateProgressBar] returns: a bracket with [filled] full
    cells followed by [empty] empty ones, then the percentage. *)
Record ProgressBar : Type := mkProgressBar {
  filled : nat;
  empty : nat;
  shown : Js.number
}.

Definition generateProgressBar (current total : Z)
  : result RangeError ProgressBar :=
  let percentage := Js.round_percent current total in
  let filled := Js.round_div percentage 10 in
  let empty := Js.minus 10 filled in
  match repeat_count filled with
  | Err e => Err e
  | Ok filledCells =>
      match repeat_count empty with
      | Err e => Err e
      | Ok emptyCells =>
          Ok {| filled := filledCells; empty := emptyCells;
                shown := percentage |}
      end
  end.

End AssessmentService.

(** ** Helpers (src/utils/helpers.js) *)

Module Helpers.

Definition calculatePercentage (value total : Z) : Js.number :=
  if bool_decide (total = 0) then Js.Int 0
  else Js.round_percent value total.

Definition getLevelFromScore (percentage : Js.number) : string :=
  if Js.le percentage 25 then "A1"
  else if Js.le percentage 50 then "A2"
  else if Js.le percentage 75 then "B1"
  else "B2".

(** The characters of the class of [escapeMarkdown]; the backslash is
    not one of them. *)
Definition markdownSpecial (c : ascii) : bool :=
  bool_decide (c ∈ ["_"; "*"; "["; "]"; "("; ")"; "~"; "`"; ">"; "#"; "+";
                    "-"; "="; "|"; "{"; "}"; "."; "!"]%char).

(** [text.replace(/[...]/g, '\$&')]: a backslash before every character
    of the class. *)
Fixpoint escapeEach (text : string) : string :=
  match text with
  | EmptyString => EmptyString
  | String c rest =>
      if markdownSpecial c then String "\" (String c (escapeEach rest))
      else String c (escapeEach rest)
  end.

(** [escapeMarkdown(text)]; [None] is [undefined] or [null], falsy like
    the empty string. *)
Definition escapeMarkdown (text : option string) : string :=
  match text with
  | Some s => escapeEach s
  | None => EmptyString
  end.

(** [shuffleArray], the same Fisher-Yates on a copy as in the question
    service. *)
Definition shuffleArray (array : Heap.ref) : Heap.M Heap.ref :=
  xs ← Heap.read array;
  shuffled ← Heap.alloc xs;
  _ ← Heap.for_down (length xs - 1) (λ i,
        r ← Heap.random;
        let j := Random.floor_mul r (i + 1) in
        Heap.swap shuffled i j);
  mret shuffled.

(** [truncateText(text, maxLength, suffix)] for an integer [maxLength];
    [substring] takes a negative end for 0. *)
Definition truncateText (text : string) (maxLength : Z) (suffix : string)
  : string :=
  if bool_decide (text = EmptyString)
     || bool_decide (Z.of_nat (String.length text) ≤ maxLength)
  then text
  else String.substring 0
         (Z.to_nat (maxLength - Z.of_nat (String.length suffix))) text
       +:+ suffix.

Definition idChars : string :=
  "ABCDEFGHIJKLMNOPQRSTUVWXYZabcdefghijklmnopqrstuvwxyz0123456789".

(** [s.charAt(i)]: the empty string past the end. *)
Definition charAt (s : string) (i : nat) : string :=
  match String.get i s with
  | Some c => String c EmptyString
  | None => EmptyString
  end.

(** The loop of [generateId], with [n] characters to go. *)
Fixpoint generateId_loop (n : nat) (result : string) : Heap.M string :=
  match n with
  | O => mret result
  | S n' =>
      r ← Heap.random;
      generateId_loop n'
        (result +:+ charAt idChars
                      (Random.floor_mul r (String.length idChars)))
  end.

Definition generateId (length : nat) : Heap.M string :=
  generateId_loop length EmptyString.

End Helpers.

(** ** The answer handler (src/handlers/callbackHandlers.js)

    A handler runs without interruption up to its first [await], and
    between two [await]s. The messages it sends are collected in a list;
    the forwarding to the monitoring bot, which touches no session, is
    left out. [questionId] and [selectedOption] are the two [parseInt]
    results. *)

Module CallbackHandlers.

Inductive Message : Type :=
| SessionExpired
| NoActiveTest
| InvalidAnswer
| Feedback (isCorrect : bool) (correctOption : option string)
| QuestionSent (question : Question) (number total : nat)
| ResultsNotAvailable
| Completion
| Results (assessment : AssessmentService.Assessment)
| RestartOffer
| ErrorOccurred.

(** The services that a handler reads; the session cache, which it
    updates, is passed separately. *)
Record t : Type := mk {
  questionService : QuestionService.t;
  assessmentConfig : AssessmentService.Config
}.

Abbreviation cache := (gmap Z Session.t).

(** [completeTest], between its [await]s: the session is marked
    complete, assessed, cleared and created again. *)
Definition completeTest (this : t) (now : string) (userId : Z)
    (sessions : cache) : list Message * cache :=
  match SessionService.getSession userId sessions with
  | None => ([ResultsNotAvailable], sessions)
  | Some session =>
      let marked := (SessionService.completeSession now userId sessions).2 in
      let assessment :=
        AssessmentService.calculateAssessment (assessmentConfig this) now
          session (Session.questions session) in
      let cleared := (SessionService.clearSession userId marked).2 in
      let again :=
        (SessionService.createSession now userId
           (Session.username session) cleared).2 in
      ([Completion; Results assessment; RestartOffer], again)
  end.

Definition sendQuestion (this : t) (now : string) (userId : Z)
    (sessions : cache) : list Message * cache :=
  match SessionService.getSession userId sessions with
  | None => ([SessionExpired], sessions)
  | Some session =>
      match Session.questions session !! Session.currentQuestion session with
      | None => completeTest this now userId sessions
      | Some question =>
          ([QuestionSent question
              (Session.currentQuestion session + 1)
              (length (Session.questions session))], sessions)
      end
  end.

(** The caches that the handler of another event can find while
    [completeTest] awaits the bot: with the session marked complete, with
    it cleared, and with it created again. *)
Definition completeTest_awaits (now : string) (userId : Z) (sessions : cache)
  : list cache :=
  match SessionService.getSession userId sessions with
  | None => [sessions]
  | Some session =>
      let marked := (SessionService.completeSession now userId sessions).2 in
      let cleared := (SessionService.clearSession userId marked).2 in
      let again :=
        (SessionService.createSession now userId
           (Session.username session) cleared).2 in
      [marked; cleared; again]
  end.

Definition sendQuestion_awaits (now : string) (userId : Z) (sessions : cache)
  : list cache :=
  match SessionService.getSession userId sessions with
  | None => [sessions]
  | Some session =>
      match Session.questions session !! Session.currentQuestion session with
      | None => completeTest_awaits now userId sessions
      | Some _ => [sessions]
      end
  end.

(** The caches that the handler of another event can find once
    [handleAnswer] has recorded an answer and awaits the bot, up to its
    end. *)
Definition handleAnswer_awaits (now : string) (userId : Z) (sessions : cache)
  : list cache :=
  sessions ::
    (if SessionService.isTestComplete userId sessions
     then completeTest_awaits now userId sessions
     else sendQuestion_awaits now userId sessions).

(** How the first part of [handleAnswer] ends: with a message and a
    [return], with the exception of [checkAnswer], or with the answer
    recorded. *)
Inductive Recording : Type :=
| Rejected (message : Message)
| Threw (e : QuestionService.Error)
| Recorded (result : QuestionService.CheckResult).

(** [handleAnswer] up to [recordAnswer]; no [await] is met on the path
    that records. *)
Definition handleAnswer_record (this : t) (now : string) (userId : Z)
    (questionId selectedOption : Js.number) (sessions : cache)
  : Recording * cache :=
  match SessionService.getSession userId sessions with
  | None => (Rejected SessionExpired, sessions)
  | Some session =>
      if negb (bool_decide (Session.state session = Session.in_progress))
      then (Rejected NoActiveTest, sessions)
      else
        match Session.questions session !! Session.currentQuestion session with
        | None => (Rejected InvalidAnswer, sessions)
        | Some currentQuestion =>
            if negb (Js.strict_eq (Question.id currentQuestion) questionId)
            then (Rejected InvalidAnswer, sessions)
            else
              match QuestionService.checkAnswer (questionService this)
                      questionId selectedOption with
              | Err e => (Threw e, sessions)
              | Ok result =>
                  (Recorded result,
                   (SessionService.recordAnswer now userId
                      {| Answer.questionId := questionId;
                         Answer.selectedOption := selectedOption;
                         Answer.isCorrect :=
                           QuestionService.isCorrect result;
                         Answer.weight :=
                           Some (QuestionService.weight result) |}
                      sessions).2)
              end
        end
  end.

(** The rest of [handleAnswer]: the feedback, then the results or the
    next question. *)
Definition handleAnswer_continue (this : t) (now : string) (userId : Z)
    (result : QuestionService.CheckResult) (sessions : cache)
  : list Message * cache :=
  let feedback :=
    Feedback (QuestionService.isCorrect result)
      (QuestionService.correctOption result) in
  let (messages, sessions') :=
    if SessionService.isTestComplete userId sessions
    then completeTest this now userId sessions
    else sendQuestion this now userId sessions in
  (feedback :: messages, sessions').

(** [handleAnswer] as called by [handleCallback], which answers an
    exception with a message. *)
Definition handleAnswer (this : t) (now : string) (userId : Z)
    (questionId selectedOption : Js.number) (sessions : cache)
  : list Message * cache :=
  match handleAnswer_record this now userId questionId selectedOption
          sessions with
  | (Rejected message, sessions') => ([message], sessions')
  | (Threw _, sessions') => ([ErrorOccurred], sessions')
  | (Recorded result, sessions') =>
      handleAnswer_continue this now userId result sessions'
  end.

(** *** Starting a test, and the routing of the callbacks

    The configuration file has its [bot] and [test] sections, as the
    fallback of [loadConfig] has. [this_questions] is the array that the
    question service holds. *)

(** [this.config.test] *)
Record TestConfig : Type := mkTestConfig {
  test_totalQuestions : option nat;
  test_questionsPerLevel : option (list (string * nat))
}.

(** The argument that [handleStartTest] gives to
    [selectQuestionsForTest]: [totalQuestions || 20] and
    [questionsPerLevel]. *)
Definition selectConfig (test : TestConfig) : QuestionService.SelectConfig :=
  {| QuestionService.totalQuestions :=
       Some (match test_totalQuestions test with
             | Some n => if bool_decide (n = 0%nat) then 20%nat else n
             | None => 20%nat
             end);
     QuestionService.questionsPerLevel := test_questionsPerLevel test |}.

(** The messages of [handleStartTest] and [handleShowInstructions]: the
    instructions, alone or with a button that starts the test, and the
    messages above. *)
Inductive Reply : Type :=
| Instructions
| InstructionsWithStart
| Sent (message : Message).

Definition handleStartTest (this : t) (test : TestConfig)
    (this_questions : Heap.ref) (now : string) (userId : Z)
    (sessions : cache) : Heap.M (list Reply * cache) :=
  match SessionService.getSession userId sessions with
  | None => mret ([Sent SessionExpired], sessions)
  | Some _ =>
      questions ← QuestionService.selectQuestionsForTest this_questions
                    (selectConfig test);
      stored ← Heap.read questions;
      let sessions1 :=
        (SessionService.setQuestions userId stored sessions).2 in
      let sessions2 :=
        (SessionService.updateSession userId
           {| Session.set_questions := None;
              Session.set_state := Some Session.in_progress;
              Session.set_isComplete := None;
              Session.set_endTime := None |} sessions1).2 in
      let '(messages, sessions3) := sendQuestion this now userId sessions2 in
      mret (Instructions :: (Sent <$> messages), sessions3)
  end.

Definition handleShowInstructions : list Reply := [InstructionsWithStart].

(** The [callback_data] of the button of option [index] of a question:
    [`answer_${question.id}_${index}`]. *)
Definition callback_data (question : Question) (index : nat) : string :=
  "answer_" +:+ JsString.ofInteger (Question.id question)
  +:+ "_" +:+ JsString.ofInteger (Z.of_nat index).

(** The buttons that [sendQuestion] puts under a question, one for each
    option. *)
Definition keyboard (question : Question) : list string :=
  imap (λ index _, callback_data question index) (Question.options question).

(** [handleCallback]: the handler that the data of the callback
    selects. Data of no known form are ignored. *)
Definition handleCallback (this : t) (test : TestConfig)
    (this_questions : Heap.ref) (now : string) (userId : Z) (data : string)
    (sessions : cache) : Heap.M (list Reply * cache) :=
  if bool_decide (data = "start_test")
  then handleStartTest this test this_questions now userId sessions
  else if bool_decide (data = "show_instructions")
  then mret (handleShowInstructions, sessions)
  else if JsString.startsWith "answer_" data
  then
    let parts := JsString.split "_" data in
    let questionId := JsString.parseInt_item (parts !! 1%nat) in
    let selectedOption := JsString.parseInt_item (parts !! 2%nat) in
    let '(messages, sessions') :=
      handleAnswer this now userId questionId selectedOption sessions in
    mret (Sent <$> messages, sessions')
  else mret ([], sessions).

End CallbackHandlers.

(** ** The commands (src/handlers/commandHandlers.js) *)

Module CommandHandlers.

Abbreviation cache := (gmap Z Session.t).

Inductive Reply : Type :=
| ActiveTest
| Welcome
| Restarted
| Cancelled
| Help (totalQuestions : nat)
| Statistics (sessionStats : SessionService.Stats)
    (questionStats : QuestionService.Stats)
| Failed.

(** /start: a test in progress is kept, any other session is replaced
    by a new one. [hasSession] and [getSession] read the same cache, so
    the session of a user who has one is found. *)
Definition handleStart (now : string) (userId : Z) (username : option string)
    (sessions : cache) : list Reply * cache :=
  let inProgress :=
    if SessionService.hasSession userId sessions
    then match SessionService.getSession userId sessions with
         | Some session =>
             bool_decide (Session.state session = Session.in_progress)
         | None => false
         end
    else false in
  if inProgress then ([ActiveTest], sessions)
  else ([Welcome],
        (SessionService.createSession now userId username sessions).2).

(** /restart *)
Definition handleRestart (now : string) (userId : Z)
    (username : option string) (sessions : cache) : list Reply * cache :=
  ([Restarted], (SessionService.resetSession now userId username sessions).2).

(** /cancel *)
Definition handleCancel (userId : Z) (sessions : cache)
  : list Reply * cache :=
  ([Cancelled], (SessionService.clearSession userId sessions).2).

(** /help, which shows [totalQuestions || 20]. *)
Definition handleHelp (test : CallbackHandlers.TestConfig) : list Reply :=
  [Help (match CallbackHandlers.test_totalQuestions test with
         | Some n => if bool_decide (n = 0%nat) then 20%nat else n
         | None => 20%nat
         end)].

(** /stats *)
Definition handleStats (questionService : QuestionService.t)
    (sessions : cache) : list Reply :=
  [Statistics (SessionService.getStats sessions)
     (QuestionService.getStats questionService)].

End CommandHandlers.

(** ** The bot (src/index.js) *)

Module QuickEnglishLevelBot.

Abbreviation cache := (gmap Z Session.t).

Inductive Reply : Type :=
| SelectAnAnswer
| Greeting.

(** A text that is no command. *)
Definition handleUnrecognizedMessage (userId : Z) (sessions : cache)
  : list Reply :=
  match SessionService.getSession userId sessions with
  | Some session =>
      if bool_decide (Session.state session = Session.in_progress)
      then [SelectAnAnswer] else [Greeting]
  | None => [Greeting]
  end.

End QuickEnglishLevelBot.

(** ** Forwarding to the monitor (src/services/monitoringService.js) *)

Module MonitoringService.

(** [a || b] on strings that may be missing: the empty string is
    falsy. *)
Definition or (a b : option string) : option string :=
  match Js.or_null a with
  | Some v => Some v
  | None => b
  end.

Record t : Type := mk {
  monitorBotToken : option string;
  monitorChatId : option string;
  enabled : bool;
  bot : bool
}.

(** The constructor, from its argument and the two variables of the
    environment; [created] tells whether the client of the bot could be
    constructed. *)
Definition construct (configToken configChatId envToken envChatId
    : option string) (created : bool) : t :=
  let token := or configToken envToken in
  let chatId := or configChatId envChatId in
  let enabled :=
    bool_decide (is_Some (Js.or_null token))
    && bool_decide (is_Some (Js.or_null chatId)) in
  {| monitorBotToken := token;
     monitorChatId := chatId;
     enabled := enabled && created;
     bot := enabled && created |}.

(** How a call of the client ends. *)
Inductive Outcome : Type :=
| Delivered
| Rejected.

(** [forwardResults] and [sendMessage]: whether a message is handed to
    the client, and the value returned; [outcome] is how the client
    ends when it is called. *)
Definition forwardResults (this : t) (outcome : Outcome) : bool * bool :=
  if negb (enabled this) || negb (bot this) then (false, false)
  else match outcome with
       | Delivered => (true, true)
       | Rejected => (true, false)
       end.

Definition sendMessage (this : t) (outcome : Outcome) : bool * bool :=
  if negb (enabled this) || negb (bot this) then (false, false)
  else match outcome with
       | Delivered => (true, true)
       | Rejected => (true, false)
       end.

Definition isEnabled (this : t) : bool := enabled this.

Record Status : Type := mkStatus {
  status_enabled : bool;
  hasBotToken : bool;
  hasChatId : bool;
  botInitialized : bool
}.

Definition getStatus (this : t) : Status :=
  {| status_enabled := enabled this;
     hasBotToken := bool_decide (is_Some (Js.or_null (monitorBotToken this)));
     hasChatId := bool_decide (is_Some (Js.or_null (monitorChatId this)));
     botInitialized := bot this |}.

End MonitoringService.

(** ** The monitor (src/monitorBot.js)

    The results file holds what the monitor has written to it: the list
    of the results and the statistics, as JSON. JSON has neither NaN nor
    the infinities: [JSON.stringify] writes them as null, and null is
    what is read back. When the file cannot be read or parsed,
    [loadResults] returns an empty list with statistics that have no
    field. *)

Module MonitorBot.

(** A number, or null. *)
Inductive Value : Type :=
| Null
| Number (n : Js.number).

Record Result : Type := mkResult {
  userId : string;
  username : option string;
  level : string;
  score : Value;
  vocabulary : Value;
  grammar : Value;
  timestamp : string
}.

Record Statistics : Type := mkStatistics {
  totalTests : option Value;
  levelDistribution : option (gmap string Value);
  averageScore : option Value
}.

Record Data : Type := mkData {
  results : list Result;
  statistics : Statistics
}.

(** The file that [initializeStorage] creates, and that the
    confirmation of /clear writes. *)
Definition initialData : Data :=
  {| results := [];
     statistics :=
       {| totalTests := Some (Number (Js.Int 0));
          levelDistribution :=
            Some {[ "A1" := Number (Js.Int 0); "A2" := Number (Js.Int 0);
                    "B1" := Number (Js.Int 0); "B2" := Number (Js.Int 0) ]};
          averageScore := Some (Number (Js.Int 0)) |} |}.

(** What is read from the file: its content, or the fallback. *)
Definition loadResults (file : option Data) : Data :=
  match file with
  | Some data => data
  | None =>
      {| results := [];
         statistics := {| totalTests := None; levelDistribution := None;
                          averageScore := None |} |}
  end.

(** What [JSON.parse] reads of what [JSON.stringify] has written. *)
Definition toJSON (v : Value) : Value :=
  match v with
  | Number (Js.Int z) => Number (Js.Int z)
  | Number Js.NaN | Number (Js.Inf _) | Null => Null
  end.

Definition stringifyResult (r : Result) : Result :=
  {| userId := userId r; username := username r; level := level r;
     score := toJSON (score r); vocabulary := toJSON (vocabulary r);
     grammar := toJSON (grammar r); timestamp := timestamp r |}.

Definition stringify (data : Data) : Data :=
  {| results := stringifyResult <$> results data;
     statistics :=
       {| totalTests := toJSON <$> totalTests (statistics data);
          levelDistribution :=
            fmap (M := gmap string) toJSON
            <$> levelDistribution (statistics data);
          averageScore := toJSON <$> averageScore (statistics data) |} |}.

(** [saveResults] on the file; [saved] tells whether the file could be
    written. *)
Definition saveResults (saved : bool) (data : Data) (file : option Data)
    : option Data :=
  if saved then Some (stringify data) else file.

(** The six patterns of [processResultMessage]. *)
Definition userIdPattern : list JsRegExp.Node :=
  (JsRegExp.chars "User ID: "
   ++ [JsRegExp.Opt "`"; JsRegExp.Group JsRegExp.Digit;
       JsRegExp.Opt "`"])%list.

Definition usernamePattern : list JsRegExp.Node :=
  (JsRegExp.chars "Username: @" ++ [JsRegExp.Group JsRegExp.Word])%list.

Definition levelPattern : list JsRegExp.Node :=
  (JsRegExp.chars "Level: "
   ++ [JsRegExp.Opt "*"; JsRegExp.Group JsRegExp.Word;
       JsRegExp.Opt "*"])%list.

Definition scorePattern : list JsRegExp.Node :=
  (JsRegExp.chars "Score: "
   ++ [JsRegExp.Opt "*"; JsRegExp.Group JsRegExp.Digit; JsRegExp.Chr "%";
       JsRegExp.Opt "*"])%list.

Definition vocabPattern : list JsRegExp.Node :=
  (JsRegExp.chars "Vocabulary: "
   ++ [JsRegExp.Group JsRegExp.Digit; JsRegExp.Chr "%"])%list.

Definition grammarPattern : list JsRegExp.Node :=
  (JsRegExp.chars "Grammar: "
   ++ [JsRegExp.Group JsRegExp.Digit; JsRegExp.Chr "%"])%list.

(** [m ? parseInt(m[1]) : null]. *)
Definition parsedOrNull (m : option (option string)) : Value :=
  match m with
  | Some group => Number (JsString.parseInt (JsRegExp.group1 group))
  | None => Null
  end.

(** The result that [processResultMessage] reads in a text, at a time;
    [None] when the user id, the level or the score is not found. *)
Definition parseResult (now : string) (text : string) : option Result :=
  let userIdMatch := JsRegExp.exec userIdPattern text in
  let usernameMatch := JsRegExp.exec usernamePattern text in
  let levelMatch := JsRegExp.exec levelPattern text in
  let scoreMatch := JsRegExp.exec scorePattern text in
  let vocabMatch := JsRegExp.exec vocabPattern text in
  let grammarMatch := JsRegExp.exec grammarPattern text in
  match userIdMatch, levelMatch, scoreMatch with
  | Some userIdGroup, Some levelGroup, Some scoreGroup =>
      Some {| userId := JsRegExp.group1 userIdGroup;
              username := JsRegExp.group1 <$> usernameMatch;
              level := JsRegExp.group1 levelGroup;
              score :=
                Number (JsString.parseInt (JsRegExp.group1 scoreGroup));
              vocabulary := parsedOrNull vocabMatch;
              grammar := parsedOrNull grammarMatch;
              timestamp := now |}
  | _, _, _ => None
  end.

(** [x++] on a property that may be missing; null counts as 0. *)
Definition increment (v : option Value) : Js.number :=
  match v with
  | Some (Number (Js.Int z)) => JsString.toNumber (z + 1)
  | Some (Number (Js.Inf negative)) => Js.Inf negative
  | Some Null => Js.Int 1
  | Some (Number Js.NaN) | None => Js.NaN
  end.

(** The number that [+] makes of a score. *)
Definition to_float (v : Value) : float :=
  match v with
  | Number n => Js.to_float n
  | Null => Js.of_Z 0
  end.

(** [Math.round(totalScore / results.length)], the scores being added
    from the left in binary64. *)
Definition average (results : list Result) : Js.number :=
  let totalScore :=
    foldl (λ sum r, PrimFloat.add sum (to_float (score r)))
      (Js.of_Z 0) results in
  Js.Math_round
    (PrimFloat.div totalScore (Js.of_Z (Z.of_nat (length results)))).

(** [levelDistribution[level]++]. The object has the prototype of the
    objects: the assignment to the key __proto__ goes to the setter of
    the prototype, which ignores a number. *)
Definition incrementLevel (lvl : string) (distribution : gmap string Value)
    : gmap string Value :=
  if bool_decide (lvl = "__proto__") then distribution
  else <[lvl := Number (increment (distribution !! lvl))]> distribution.

(** What [processResultMessage] does with a result it has read: the
    data to save, or the [TypeError] of statistics without a level
    distribution, which is caught and ends the handler. *)
Definition addResult (result : Result) (data : Data) : option Data :=
  let results' := (results data ++ [result])%list in
  match levelDistribution (statistics data) with
  | None => None
  | Some distribution =>
      Some {| results := results';
              statistics :=
                {| totalTests :=
                     Some (Number (increment (totalTests (statistics data))));
                   levelDistribution :=
                     Some (incrementLevel (level result) distribution);
                   averageScore := Some (Number (average results')) |} |}
  end.

Inductive Reply : Type :=
| ResultRecorded (level : string) (score : Value).

(** [processResultMessage] on the file: the file after it, and the
    confirmation if one is sent. The confirmation is sent whether or
    not the file could be written. *)
Definition processResultMessage (now : string) (text : string)
    (saved : bool) (file : option Data) : option Data * list Reply :=
  match parseResult now text with
  | None => (file, [])
  | Some result =>
      match addResult result (loadResults file) with
      | None => (file, [])
      | Some data =>
          (saveResults saved data file,
           [ResultRecorded (level result) (score result)])
      end
  end.

(** The handler of the messages: a text that is no command and
    includes the title of a result is processed. *)
Definition onMessage (now : string) (text : option string) (saved : bool)
    (file : option Data) : option Data * list Reply :=
  match text with
  | Some t =>
      if negb (bool_decide (t = EmptyString)) && JsString.startsWith "/" t
      then (file, [])
      else if negb (bool_decide (t = EmptyString))
              && JsString.includes "New Test Completed" t
      then processResultMessage now t saved file
      else (file, [])
  | None => (file, [])
  end.

(** /recent: [data.results.slice(-10).reverse()]. *)
Definition recent (data : Data) : list Result :=
  reverse (drop (length (results data) - 10) (results data)).

(** The confirmation of /clear. *)
Definition confirmClear (saved : bool) (file : option Data) : option Data :=
  saveResults saved initialData file.

(** [`${v}`] for a number of the file. *)
Definition ofValue (v : Value) : string :=
  match v with
  | Null => "null"
  | Number n => JsString.ofNumber n
  end.

(** [`${v || 'N/A'}`]: null, [NaN] and 0 are falsy. *)
Definition orNA (v : Value) : string :=
  match v with
  | Null | Number Js.NaN | Number (Js.Int 0) => "N/A"
  | Number n => JsString.ofNumber n
  end.

(** /export: the line of a result, and the document; [None] when there
    is no result, and no document is sent. *)
Definition exportRow (result : Result) : string :=
  userId result +:+ "," +:+ default "N/A" (Js.or_null (username result))
  +:+ "," +:+ level result +:+ ","
  +:+ ofValue (score result) +:+ "," +:+ orNA (vocabulary result)
  +:+ "," +:+ orNA (grammar result) +:+ ","
  +:+ timestamp result +:+ JsString.LF.

Definition export (file : option Data) : option string :=
  let data := loadResults file in
  match results data with
  | [] => None
  | _ =>
      Some (foldl (λ csv result, csv +:+ exportRow result)
              ("User ID,Username,Level,Score,Vocabulary,Grammar,Timestamp"
               +:+ JsString.LF)
              (results data))
  end.

End MonitorBot.

(** ** Vocabulary of the properties *)

(** A question id is known to the repository when some question of the
    bank has it. *)
Definition known (this : QuestionService.t) (qid : Js.number) : Prop :=
  ∃ q, q ∈ QuestionService.questions this
       ∧ Js.strict_eq (Question.id q) qid = true.

(** A question of level B2 that has no [weight] field, and the bank that
    holds only it. *)
Definition unweighted_B2 : Question :=
  {| Question.id := 7;
     Question.text := "By next June she ______ here for ten years.";
     Question.options :=
       ["works"; "will have been working"; "is working"; "worked"];
     Question.correct := 1;
     Question.level := "B2";
     Question.category := "grammar";
     Question.weight := None |}.

Definition unweighted_bank : QuestionService.t :=
  {| QuestionService.questions := [unweighted_B2] |}.

(** A session in progress on the given questions, with the given
    answers. *)
Definition session_on (questions : list Question)
    (answers : list AnswerRecord.t) (score : Z) : Session.t :=
  {| Session.userId := 42;
     Session.username := Some "learner";
     Session.startTime := "2024-05-01T10:00:00.000Z";
     Session.answers := answers;
     Session.currentQuestion := length answers;
     Session.questions := questions;
     Session.score := score;
     Session.isComplete := false;
     Session.state := Session.in_progress;
     Session.endTime := None |}.

(** The record of an answer to a question, right or wrong. *)
Definition answered (qid : Z) (selected : Z) (isCorrect : bool)
  : AnswerRecord.t :=
  {| AnswerRecord.questionId := Js.Int qid;
     AnswerRecord.selectedOption := Js.Int selected;
     AnswerRecord.isCorrect := isCorrect;
     AnswerRecord.timestamp := "2024-05-01T10:01:00.000Z" |}.

(** Two assessments that agree on every field but [completedAt]. *)
Definition same_but_completedAt (a b : AssessmentService.Assessment) : Prop :=
  AssessmentService.level a = AssessmentService.level b
  ∧ AssessmentService.percentageScore a = AssessmentService.percentageScore b
  ∧ AssessmentService.totalQuestions a = AssessmentService.totalQuestions b
  ∧ AssessmentService.correctAnswers a = AssessmentService.correctAnswers b
  ∧ AssessmentService.categoryStats a = AssessmentService.categoryStats b
  ∧ AssessmentService.categoryPercentages a
    = AssessmentService.categoryPercentages b
  ∧ AssessmentService.levelStats a = AssessmentService.levelStats b
  ∧ AssessmentService.levelPercentages a = AssessmentService.levelPercentages b
  ∧ AssessmentService.earnedWeight a = AssessmentService.earnedWeight b
  ∧ AssessmentService.totalWeight a = AssessmentService.totalWeight b
  ∧ AssessmentService.recommendation a = AssessmentService.recommendation b.

(** The argument that the handler passes to [recordAnswer]. *)
Definition answer_of (qid selected : Z) (isCorrect : bool)
    (weight : option Z) : Answer.t :=
  {| Answer.questionId := Js.Int qid;
     Answer.selectedOption := Js.Int selected;
     Answer.isCorrect := isCorrect;
     Answer.weight := weight |}.

(** Rounding of the fraction [num / den], [den > 0], to the nearest
    integer, ties upwards, on exact integers. *)
Definition round_half_up (num den : Z) : Z := (2 * num + den) `div` (2 * den).

(** [p] is an integer nearest to [num / den]. *)
Definition nearest_integer (p num den : Z) : Prop :=
  2 * Z.abs (num - p * den) ≤ den.

#[global] Instance nearest_integer_dec p num den :
  Decision (nearest_integer p num den).
Proof. unfold nearest_integer. apply _. Defined.

(** The check that, for a pair of weights, [Js.round_percent] is an integer
    nearest to the exact percentage, the one obtained by rounding upwards
    unless the exact percentage lies half way between two integers, and
    on the same side of the default thresholds as the exact percentage
    rounded upwards. *)
Definition round_percent_ok (earned total : Z) : bool :=
  match Js.round_percent earned total with
  | Js.Int p =>
      bool_decide (nearest_integer p (100 * earned) total)
      && (bool_decide (2 * Z.abs (100 * earned - p * total) = total)
          || bool_decide (p = round_half_up (100 * earned) total))
      && bool_decide
           (Helpers.getLevelFromScore (Js.Int p)
            = Helpers.getLevelFromScore
                (Js.Int (round_half_up (100 * earned) total)))
  | _ => false
  end.

Definition round_percent_ok_upto (bound : Z) : bool :=
  forallb (λ total, forallb (λ earned, round_percent_ok earned total)
                      (seqZ 0 (total + 1)))
    (seqZ 1 bound).

(** The weight that [calculateAssessment] gives to a question: its
    [weight] field, else the configured weight of its level, else 1. *)
Definition resolvedWeight (config : AssessmentService.Config) (q : Question)
  : Z :=
  Js.or_default
    (Js.or (Question.weight q)
           (AssessmentService.weights config !! Question.level q)) 1.

(** The weights of the answers whose question is among [questions]. *)
Definition answerWeights (config : AssessmentService.Config)
    (questions : list Question) (answers : list AnswerRecord.t) : list Z :=
  omap (λ a, resolvedWeight config
               <$> List.find (λ q, Js.strict_eq (Question.id q)
                                     (AnswerRecord.questionId a)) questions)
       answers.

Definition sumZ (l : list Z) : Z := foldr Z.add 0 l.

(** The questions have a level and a category of the lists of
    [validateQuestions], as the questions of a loaded bank have. *)
Definition validated (questions : list Question) : Prop :=
  ∀ q, q ∈ questions →
    Question.level q ∈ QuestionService.validLevels
    ∧ Question.category q ∈ QuestionService.validCategories.

(** The weights of the answers add up, in absolute value, to 2^53 at
    most: every sum of some of them is a binary64 number, and the
    additions of the code are exact. *)
Definition exactly_summed (config : AssessmentService.Config)
    (questions : list Question) (answers : list AnswerRecord.t) : Prop :=
  sumZ (Z.abs <$> answerWeights config questions answers) ≤ 2 ^ 53.

(** A question without a [weight] field. *)
Definition plain_question (qid : Z) (lvl : string) : Question :=
  {| Question.id := qid;
     Question.text := "Choose the right word.";
     Question.options := ["a"; "b"; "c"; "d"];
     Question.correct := 0;
     Question.level := lvl;
     Question.category := "vocabulary";
     Question.weight := None |}.

(** The scenario of the specification: four questions of weights 1, 2, 3
    and 4, the second answered wrongly. *)
Definition scenario_questions : list Question :=
  [ {| Question.id := 1; Question.text := "q1";
       Question.options := ["a"; "b"; "c"; "d"]; Question.correct := 0;
       Question.level := "A1"; Question.category := "vocabulary";
       Question.weight := Some 1 |};
    {| Question.id := 2; Question.text := "q2";
       Question.options := ["a"; "b"; "c"; "d"]; Question.correct := 0;
       Question.level := "A2"; Question.category := "grammar";
       Question.weight := Some 2 |};
    {| Question.id := 3; Question.text := "q3";
       Question.options := ["a"; "b"; "c"; "d"]; Question.correct := 0;
       Question.level := "B1"; Question.category := "vocabulary";
       Question.weight := Some 3 |};
    {| Question.id := 4; Question.text := "q4";
       Question.options := ["a"; "b"; "c"; "d"]; Question.correct := 0;
       Question.level := "B2"; Question.category := "grammar";
       Question.weight := Some 4 |} ].

Definition scenario_session : Session.t :=
  session_on scenario_questions
    [answered 1 0 true; answered 2 1 false; answered 3 0 true;
     answered 4 0 true] 8.

(** A test of sixteen questions, four of each level, none with a [weight]
    field, as [questionsPerLevel = {A1: 4, A2: 4, B1: 4, B2: 4}] selects
    it; and a session that answered one A1, two B1 and four B2 questions
    correctly. *)
Definition quiz16 : list Question :=
  (λ '(qid, lvl), plain_question qid lvl) <$>
    [ (1, "A1"); (2, "A1"); (3, "A1"); (4, "A1");
      (5, "A2"); (6, "A2"); (7, "A2"); (8, "A2");
      (9, "B1"); (10, "B1"); (11, "B1"); (12, "B1");
      (13, "B2"); (14, "B2"); (15, "B2"); (16, "B2") ].

Definition quiz16_session : Session.t :=
  session_on quiz16
    ((λ '(qid, isCorrect), answered qid (if isCorrect : bool then 0 else 1)
                             isCorrect) <$>
       [ (1, true); (2, false); (3, false); (4, false);
         (5, false); (6, false); (7, false); (8, false);
         (9, true); (10, true); (11, false); (12, false);
         (13, true); (14, true); (15, true); (16, true) ]) 7.

(** *** The rules of validation

    [accepted] spells out what [validateQuestions] requires of a
    question: the six required fields, four options, a [correct] that
    compares neither below 0 nor above 3 once converted to a number, a
    level and a category of the lists. *)
Definition in_index_range (StringToNumber : Json.value → float)
    (v : option Json.value) : Prop :=
  PrimFloat.ltb (QuestionService.ToNumber StringToNumber v) (Js.of_Z 0) = false
  ∧ PrimFloat.ltb (Js.of_Z 3) (QuestionService.ToNumber StringToNumber v)
    = false.

Definition accepted (StringToNumber : Json.value → float)
    (question : Json.value) : Prop :=
  (∀ f, f ∈ QuestionService.requiredFields →
        is_Some (Json.get question f))
  ∧ (∃ items, Json.get question "options" = Some (Json.Arr items)
              ∧ length items = 4%nat)
  ∧ in_index_range StringToNumber (Json.get question "correct")
  ∧ (∃ lvl, Json.get question "level" = Some (Json.Str lvl)
            ∧ lvl ∈ QuestionService.validLevels)
  ∧ (∃ cat, Json.get question "category" = Some (Json.Str cat)
            ∧ cat ∈ QuestionService.validCategories).

(** The third rule as the specification words it: [correct] is one of the
    indices 0, 1, 2, 3. *)
Definition correct_is_index (question : Json.value) : Prop :=
  ∃ n, 0 ≤ n ≤ 3 ∧ Json.get question "correct" = Some (Json.Num (Js.of_Z n)).

(** The id that an error message names, if it names one. *)
Definition named_id (e : QuestionService.ValidationError)
  : option Json.value :=
  match e with
  | QuestionService.MissingField name _ => name
  | QuestionService.NotFourOptions qid
  | QuestionService.InvalidCorrectIndex qid
  | QuestionService.InvalidLevel qid _
  | QuestionService.InvalidCategory qid _ => qid
  | QuestionService.NullQuestion => None
  end.

(** The message names the id of the question, or names none: in the
    missing-field message when the question has no id or a falsy one, and
    in the type error on a null entry. *)
Definition names_id_of (e : QuestionService.ValidationError)
    (question : Json.value) : Prop :=
  match e with
  | QuestionService.MissingField name _ =>
      name = if Json.truthy (Json.get question "id")
             then Json.get question "id" else None
  | QuestionService.NullQuestion => question = Json.Null
  | _ => is_Some (Json.get question "id")
         ∧ named_id e = Json.get question "id"
  end.

(** Entries of a bank in JSON. *)
Definition json_question (qid : option Json.value) (correct : Json.value)
    (lvl : string) : Json.value :=
  Json.Obj
    (match qid with Some v => [("id", v)] | None => [] end
     ++ [ ("text", Json.Str "She ______ to school every day.");
          ("options", Json.Arr [Json.Str "go"; Json.Str "goes";
                                Json.Str "going"; Json.Str "went"]);
          ("correct", correct);
          ("level", Json.Str lvl);
          ("category", Json.Str "grammar") ]).

(** The handlers over the four questions of the scenario, and a user who
    has just started the test on them. *)
Definition scenario_handlers : CallbackHandlers.t :=
  {| CallbackHandlers.questionService :=
       {| QuestionService.questions := scenario_questions |};
     CallbackHandlers.assessmentConfig := AssessmentService.getDefaultConfig |}.

Definition scenario_started : gmap Z Session.t :=
  {[ 42 := session_on scenario_questions [] 0 ]}.

(** Two questions with the same id, one after the other in a test, and
    a user who has just started this test. *)
Definition twin_questions : list Question :=
  [plain_question 1 "A1"; plain_question 1 "A2"].

Definition twin_handlers : CallbackHandlers.t :=
  {| CallbackHandlers.questionService :=
       {| QuestionService.questions := twin_questions |};
     CallbackHandlers.assessmentConfig := AssessmentService.getDefaultConfig |}.

Definition twin_started : gmap Z Session.t :=
  {[ 42 := session_on twin_questions [] 0 ]}.

(** *** Selection *)

(** Every call of [Math.random] returns a number of [0, 1). *)
Definition valid_draws (σ : Heap.state) : Prop :=
  ∀ n, Random.in_unit_interval (Heap.draws σ n).

(** The four levels among which the default selection divides the
    questions. *)
Definition default_levels : list string := ["A1"; "A2"; "B1"; "B2"].

(** The questions of a level in a list. *)
Definition of_level (lvl : string) (questions : list Question)
  : list Question :=
  filter (λ q, Question.level q = lvl) questions.

(** What one pass of the selection loop draws for an entry: the first
    [count] questions of some arrangement of the pool of the level. *)
Definition drawn_from (bank : list Question) (entry : string * nat)
    (chosen : list Question) : Prop :=
  ∃ shuffled, shuffled ≡ₚ of_level entry.1 bank
              ∧ chosen = take entry.2 shuffled.

(** A bank of twenty questions, five of each level, and a state that
    holds it as its only array, with [Math.random] returning 1/2. *)
Definition bank20 : list Question :=
  (quiz16 ++ [plain_question 17 "A1"; plain_question 18 "A2";
              plain_question 19 "B1"; plain_question 20 "B2"])%list.

Definition state20 : Heap.state :=
  {| Heap.arrays := [bank20];
     Heap.draws := λ _, {| Random.num := 1; Random.den := 2 |};
     Heap.calls := 0 |}.

(** A bank of twenty questions, five of each level, in which two
    questions of the level A1 have the id 1; and the entries of its file,
    which [validateQuestions] reads. *)
Definition twin_ids : list (Z * string) :=
  [ (1, "A1"); (1, "A1"); (3, "A1"); (4, "A1"); (5, "A1");
    (6, "A2"); (7, "A2"); (8, "A2"); (9, "A2"); (10, "A2");
    (11, "B1"); (12, "B1"); (13, "B1"); (14, "B1"); (15, "B1");
    (16, "B2"); (17, "B2"); (18, "B2"); (19, "B2"); (20, "B2") ].

Definition twin_bank : list Question :=
  (λ '(qid, lvl),
     {| Question.id := qid;
        Question.text := "She ______ to school every day.";
        Question.options := ["go"; "goes"; "going"; "went"];
        Question.correct := 1;
        Question.level := lvl;
        Question.category := "grammar";
        Question.weight := None |}) <$> twin_ids.

Definition twin_json : list Json.value :=
  (λ '(qid, lvl),
     json_question (Some (Json.Num (Js.of_Z qid))) (Json.Num (Js.of_Z 1)) lvl)
    <$> twin_ids.

Definition twin_state : Heap.state :=
  {| Heap.arrays := [twin_bank];
     Heap.draws := λ _, {| Random.num := 1; Random.den := 2 |};
     Heap.calls := 0 |}.

(** The levels and counts that [selectQuestionsForTest] goes through: the
    entries of [questionsPerLevel], or the four levels with a fourth of
    [totalQuestions] each. *)
Definition selection_entries (config : QuestionService.SelectConfig)
  : list (string * nat) :=
  match QuestionService.questionsPerLevel config with
  | Some entries => entries
  | None =>
      (λ lvl, (lvl, (default 20 (QuestionService.totalQuestions config)
                     `div` 4)%nat)) <$> default_levels
  end.

(** A selection with quotas: two questions of level A1 and seven of
    level B2. *)
Definition quota_config : QuestionService.SelectConfig :=
  {| QuestionService.totalQuestions := Some 20%nat;
     QuestionService.questionsPerLevel := Some [("A1", 2%nat); ("B2", 7%nat)] |}.

(** The question that [calculateAssessment] finds for each answer, in the
    order of the answers, with the flag of the answer; an answer whose id
    is the id of no question is left out. *)
Definition matchedAnswers (questions : list Question)
    (answers : list AnswerRecord.t) : list (Question * bool) :=
  omap (λ a, (λ q, (q, AnswerRecord.isCorrect a))
               <$> List.find (λ q, Js.strict_eq (Question.id q)
                                     (AnswerRecord.questionId a)) questions)
       answers.

(** The entry of a breakdown for a key: how many of the matched answers
    belong to the key, and how many of those are correct. *)
Definition breakdown (key_of : Question → string) (key : string)
    (matched : list (Question * bool)) : AssessmentService.Stats :=
  {| AssessmentService.correct :=
       length (filter (λ m, key_of m.1 = key ∧ m.2 = true) matched);
     AssessmentService.total :=
       length (filter (λ m, key_of m.1 = key) matched) |}.

(** The place of a level in the order A1, A2, B1, B2. *)
Definition levelRank (lvl : string) : nat :=
  if bool_decide (lvl = "A1") then 0
  else if bool_decide (lvl = "A2") then 1
  else if bool_decide (lvl = "B1") then 2
  else 3.
(** The check, for a percentage, that [generateProgressBar] fills the
    number of cells nearest to a tenth of it and leaves the others
    empty. *)
Definition progress_cells_ok (p : Z) : bool :=
  match repeat_count (Js.round_div (Js.Int p) 10),
        repeat_count (Js.minus 10 (Js.round_div (Js.Int p) 10)) with
  | Ok f, Ok e =>
      bool_decide (Z.of_nat f = round_half_up p 10)
      && bool_decide (f + e = 10)%nat
  | _, _ => false
  end.
(** The value of a decimal numeral read from the left, after the value
    [acc] of the digits before it. *)
Fixpoint uint_value (d : Decimal.uint) (acc : Z) : Z :=
  match d with
  | Decimal.Nil => acc
  | Decimal.D0 l => uint_value l (10 * acc + 0)
  | Decimal.D1 l => uint_value l (10 * acc + 1)
  | Decimal.D2 l => uint_value l (10 * acc + 2)
  | Decimal.D3 l => uint_value l (10 * acc + 3)
  | Decimal.D4 l => uint_value l (10 * acc + 4)
  | Decimal.D5 l => uint_value l (10 * acc + 5)
  | Decimal.D6 l => uint_value l (10 * acc + 6)
  | Decimal.D7 l => uint_value l (10 * acc + 7)
  | Decimal.D8 l => uint_value l (10 * acc + 8)
  | Decimal.D9 l => uint_value l (10 * acc + 9)
  end.

(** No character of the string is the separator. *)
Fixpoint free_of (sep : ascii) (s : string) : bool :=
  match s with
  | EmptyString => true
  | String c rest => negb (bool_decide (c = sep)) && free_of sep rest
  end.

(** The state of the bot between two events: the session cache, and the
    arrays with the stream of random numbers. *)
Record World : Type := mkWorld {
  world_sessions : gmap Z Session.t;
  world_heap : Heap.state
}.

(** What the bot receives: a command, a text that is no command, or a
    callback with its data, from a user at a time; and the expiry of the
    session of a user, which the cache brings about. *)
Inductive Event : Type :=
| Start (now : string) (userId : Z) (username : option string)
| Restart (now : string) (userId : Z) (username : option string)
| Cancel (userId : Z)
| Help
| Stats
| Text (userId : Z)
| Callback (now : string) (userId : Z) (data : string)
| Expiry (userId : Z).

Inductive Reply : Type :=
| OfCommand (reply : CommandHandlers.Reply)
| OfCallback (reply : CallbackHandlers.Reply)
| OfText (reply : QuickEnglishLevelBot.Reply).

(** An event handled to its end by the handler registered for it. *)
Definition handle (handlers : CallbackHandlers.t)
    (test : CallbackHandlers.TestConfig) (this_questions : Heap.ref)
    (event : Event) (w : World) : list Reply * World :=
  let sessions := world_sessions w in
  let keep_heap '(replies, sessions') :=
    (OfCommand <$> replies,
     {| world_sessions := sessions'; world_heap := world_heap w |}) in
  match event with
  | Start now userId username =>
      keep_heap (CommandHandlers.handleStart now userId username sessions)
  | Restart now userId username =>
      keep_heap (CommandHandlers.handleRestart now userId username sessions)
  | Cancel userId =>
      keep_heap (CommandHandlers.handleCancel userId sessions)
  | Help => (OfCommand <$> CommandHandlers.handleHelp test, w)
  | Stats =>
      (OfCommand <$> CommandHandlers.handleStats
                       (CallbackHandlers.questionService handlers) sessions,
       w)
  | Text userId =>
      (OfText <$> QuickEnglishLevelBot.handleUnrecognizedMessage userId
                    sessions, w)
  | Callback now userId data =>
      let '((replies, sessions'), σ) :=
        CallbackHandlers.handleCallback handlers test this_questions now
          userId data sessions (world_heap w) in
      (OfCallback <$> replies,
       {| world_sessions := sessions'; world_heap := σ |})
  | Expiry userId =>
      ([], {| world_sessions := delete userId sessions;
              world_heap := world_heap w |})
  end.

(** The events handled one after the other, each to its end. *)
Fixpoint run (handlers : CallbackHandlers.t)
    (test : CallbackHandlers.TestConfig) (this_questions : Heap.ref)
    (events : list Event) (w : World) : list Reply * World :=
  match events with
  | [] => ([], w)
  | event :: rest =>
      let '(replies, w1) := handle handlers test this_questions event w in
      let '(replies', w2) := run handlers test this_questions rest w1 in
      ((replies ++ replies')%list, w2)
  end.

(** What holds of the session of a user between two events, but for the
    bound of the cursor. *)
Definition session_consistent (userId : Z) (session : Session.t) : Prop :=
  Session.userId session = userId
  ∧ Session.currentQuestion session = length (Session.answers session)
  ∧ Session.isComplete session = false
  ∧ Session.endTime session = None
  ∧ (Session.state session = Session.ready
     ∨ Session.state session = Session.in_progress)
  ∧ (Session.state session = Session.ready →
     Session.answers session = [] ∧ Session.questions session = []
     ∧ Session.score session = 0).

(** A session between two events: a session in progress has a current
    question. *)
Definition session_invariant (userId : Z) (session : Session.t) : Prop :=
  session_consistent userId session
  ∧ (Session.state session = Session.in_progress →
     (Session.currentQuestion session
      < length (Session.questions session))%nat).

Definition sessions_invariant (sessions : gmap Z Session.t) : Prop :=
  ∀ userId session,
    sessions !! userId = Some session → session_invariant userId session.

(** The press, at a time, of the button of an option of a question. *)
Definition press (userId : Z) (q : Question) (p : string * nat) : Event :=
  Callback p.1 userId (CallbackHandlers.callback_data q p.2).

(** The record of that press. *)
Definition pressed (q : Question) (p : string * nat) : AnswerRecord.t :=
  {| AnswerRecord.questionId := Js.Int (Question.id q);
     AnswerRecord.selectedOption := Js.Int (Z.of_nat p.2);
     AnswerRecord.isCorrect :=
       bool_decide (Question.correct q = Z.of_nat p.2);
     AnswerRecord.timestamp := p.1 |}.

(** The feedback on that press. *)
Definition feedback_of (q : Question) (p : string * nat)
  : CallbackHandlers.Message :=
  CallbackHandlers.Feedback
    (bool_decide (Question.correct q = Z.of_nat p.2))
    (index (Question.options q) (Question.correct q)).

(** What the user is sent while pressing a button under each of the
    questions [rest], the first of which is question [number] of
    [total]: the feedback on each press and, but after the last, the
    next question. *)
Fixpoint served (number total : nat) (rest : list Question)
    (presses : list (string * nat)) : list CallbackHandlers.Message :=
  match rest, presses with
  | q :: rest', p :: presses' =>
      feedback_of q p
      :: match rest' with
         | next :: _ =>
             CallbackHandlers.QuestionSent next (number + 1) total
             :: served (number + 1) total rest' presses'
         | [] => []
         end
  | _, _ => []
  end.
(** Four presses, one under each question of the scenario; the second
    is a wrong option. *)
Definition scenario_presses : list (string * nat) :=
  [("2024-05-01T10:01:00.000Z", 0%nat); ("2024-05-01T10:02:00.000Z", 1%nat);
   ("2024-05-01T10:03:00.000Z", 0%nat); ("2024-05-01T10:04:00.000Z", 0%nat)].

Definition no_test_config : CallbackHandlers.TestConfig :=
  {| CallbackHandlers.test_totalQuestions := None;
     CallbackHandlers.test_questionsPerLevel := None |}.

(** Every character of the class is preceded by a backslash;
    [escaped] tells whether the character before the string is one. *)
Fixpoint guarded (escaped : bool) (s : string) : bool :=
  match s with
  | EmptyString => true
  | String c rest =>
      (escaped || negb (Helpers.markdownSpecial c))
      && guarded (bool_decide (c = "\"%char)) rest
  end.

(** The number of characters of the class in a string. *)
Fixpoint specials (s : string) : nat :=
  match s with
  | EmptyString => 0
  | String c rest =>
      ((if Helpers.markdownSpecial c then 1 else 0) + specials rest)%nat
  end.

(** Every character of [s] is a character of [alphabet]. *)
Fixpoint chars_in (alphabet s : string) : bool :=
  match s with
  | EmptyString => true
  | String c rest =>
      bool_decide (c ∈ String.list_ascii_of_string alphabet) && chars_in alphabet rest
  end.

(** *** The patterns of the monitor *)

(** The label differs from the text at a character that both have. *)
Fixpoint mismatch (label s : string) : bool :=
  match label, s with
  | String c l, String d s' =>
      if bool_decide (c = d) then mismatch l s' else true
  | _, _ => false
  end.

(** The label differs from the text at every position of [seg], before
    [seg] ends. *)
Fixpoint clear_of (label seg : string) : bool :=
  match seg with
  | EmptyString => true
  | String _ rest => mismatch label seg && clear_of label rest
  end.

(** Every character of the string is of the class. *)
Fixpoint allIn (cls : JsRegExp.CharClass) (s : string) : bool :=
  match s with
  | EmptyString => true
  | String c rest => JsRegExp.inClass cls c && allIn cls rest
  end.

(** The first character of the label that is not of a word is not
    [sep]. *)
Fixpoint stops (label : string) (sep : ascii) : bool :=
  match label with
  | EmptyString => false
  | String c l =>
      if JsRegExp.inClass JsRegExp.Word c then stops l sep
      else negb (bool_decide (c = sep))
  end.

(** *** The message of a result

    The text of [formatMonitoringMessage] as a function of its variable
    parts. *)
Definition monitoring_text (userId usernameLine date lvl score correct total
    vocabulary grammar duration : string) : string :=
  let LF := JsString.LF in
  "📝 *New Test Completed*" +:+ LF +:+ LF
  +:+ "👤 User ID: `" +:+ userId +:+ "`" +:+ LF
  +:+ usernameLine
  +:+ "🕐 Completed: " +:+ date +:+ LF +:+ LF
  +:+ "📊 *Results:*" +:+ LF
  +:+ "• Level: *" +:+ lvl +:+ "*" +:+ LF
  +:+ "• Score: *" +:+ score +:+ "%*" +:+ LF
  +:+ "• Correct: " +:+ correct +:+ "/" +:+ total +:+ LF
  +:+ "• Vocabulary: " +:+ vocabulary +:+ "%" +:+ LF
  +:+ "• Grammar: " +:+ grammar +:+ "%" +:+ LF
  +:+ LF +:+ "⏱ Duration: " +:+ duration.

(** The line of the user name, for a user who has one. *)
Definition username_line (username : option string) : string :=
  match Js.or_null username with
  | Some u => "👤 Username: @" +:+ u +:+ JsString.LF
  | None => EmptyString
  end.

(** None of the capital letters with which the labels of the message
    begin occurs in the string. *)
Definition no_label_initial (s : string) : bool :=
  free_of "U" s && free_of "L" s && free_of "S" s && free_of "V" s
  && free_of "G" s.

(** A test with a weight below zero, and a session that answered the
    question of this weight correctly and the other one wrong. *)
Definition penalty_questions : list Question :=
  [ {| Question.id := 1; Question.text := "q1";
       Question.options := ["a"; "b"; "c"; "d"]; Question.correct := 0;
       Question.level := "A1"; Question.category := "vocabulary";
       Question.weight := Some (-1) |};
    {| Question.id := 2; Question.text := "q2";
       Question.options := ["a"; "b"; "c"; "d"]; Question.correct := 0;
       Question.level := "B1"; Question.category := "grammar";
       Question.weight := Some 3 |} ].

Definition penalty_session : Session.t :=
  session_on penalty_questions [answered 1 0 true; answered 2 1 false] (-1).

(** *** The events of the monitor *)

(** What reaches the monitor: a message, handled at a time, or the
    confirmation of /clear. *)
Inductive MonitorEvent : Type :=
| Received (now : string) (text : option string)
| ClearConfirmed.

(** The results file after an event, the file being written when the
    handler saves it; and after a list of events, one after the other. *)
Definition monitor_step (file : option MonitorBot.Data)
    (event : MonitorEvent) : option MonitorBot.Data :=
  match event with
  | Received now text => (MonitorBot.onMessage now text true file).1
  | ClearConfirmed => MonitorBot.confirmClear true file
  end.

Definition monitor_run (events : list MonitorEvent)
    (file : option MonitorBot.Data) : option MonitorBot.Data :=
  foldl monitor_step file events.

(** The number of the results of a level. *)
Definition levelCount (lvl : string) (results : list MonitorBot.Result)
    : nat :=
  length (filter (λ r, MonitorBot.level r = lvl) results).

Definition listedLevels : list string := ["A1"; "A2"; "B1"; "B2"].

(** The statistics of the file agree with its results: the total is the
    number of the results, and the count of each of the four levels is
    the number of the results of this level. *)
Definition statistics_agree (data : MonitorBot.Data) : Prop :=
  MonitorBot.totalTests (MonitorBot.statistics data)
  = Some (MonitorBot.Number
            (Js.Int (Z.of_nat (length (MonitorBot.results data)))))
  ∧ ∃ distribution,
      MonitorBot.levelDistribution (MonitorBot.statistics data)
      = Some distribution
      ∧ ∀ lvl, lvl ∈ listedLevels →
          distribution !! lvl
          = Some (MonitorBot.Number
                    (Js.Int (Z.of_nat
                               (levelCount lvl (MonitorBot.results data))))).

(** A configuration gives a value when the argument of the constructor
    has it, or has none and the environment has it; the empty string is
    no value. *)
Definition given (config env : option string) : Prop :=
  ∃ v, v ≠ EmptyString
       ∧ (config = Some v ∨ (Js.or_null config = None ∧ env = Some v)).

(** *** The groups of a pattern *)

(** The nodes have no group. *)
Definition noGroup (nodes : list JsRegExp.Node) : bool :=
  forallb (λ node, match node with
                   | JsRegExp.Group _ => false
                   | _ => true
                   end) nodes.

(** The nodes have one group, of the class [cls]. *)
Fixpoint oneGroup (cls : JsRegExp.CharClass) (nodes : list JsRegExp.Node)
    : bool :=
  match nodes with
  | [] => false
  | JsRegExp.Group c :: rest =>
      match c, cls with
      | JsRegExp.Digit, JsRegExp.Digit | JsRegExp.Word, JsRegExp.Word =>
          noGroup rest
      | _, _ => false
      end
  | _ :: rest => oneGroup cls rest
  end.

(** A string of one character of the class at least, and of such
    characters only. *)
Definition run_of (cls : JsRegExp.CharClass) (s : string) : Prop :=
  s ≠ EmptyString ∧ allIn cls s = true.

(** A number that [parseInt] reads in a string of digits: the number
    that holds a non-negative integer. *)
Definition parsed_digits (v : MonitorBot.Value) : Prop :=
  ∃ n, 0 ≤ n ∧ v = MonitorBot.Number (JsString.toNumber n).

(** A number of the file that is null or below 10^21, where the decimal
    rendering of a number has digits only. *)
Definition printable (v : MonitorBot.Value) : Prop :=
  ∀ z, v = MonitorBot.Number (Js.Int z) → z < 10 ^ 21.

(** * Properties *)

(** ** The question repository: [getQuestionById] and [checkAnswer] *)

Lemma getQuestionById_Some this qid q :
  QuestionService.getQuestionById this qid = Some q →
  q ∈ QuestionService.questions this
  ∧ Js.strict_eq (Question.id q) qid = true.
Proof.
  unfold QuestionService.getQuestionById. intros Hfind.
  apply find_some in Hfind as [Hin Heq].
  split; [by apply list_elem_of_In | done].
Qed.

Lemma getQuestionById_known this qid :
  known this qid ↔ is_Some (QuestionService.getQuestionById this qid).
Proof.
  split.
  - intros (q & Hin & Heq).
    destruct (QuestionService.getQuestionById this qid) as [q'|] eqn:Hfind;
      [by eexists|].
    unfold QuestionService.getQuestionById in Hfind.
    apply list_elem_of_In in Hin.
    pose proof (find_none _ _ Hfind q Hin) as Hno. simpl in Hno. congruence.
  - intros [q Hq]. exists q. by apply getQuestionById_Some.
Qed.

(** What [checkAnswer] returns for a known id: the comparison with the
    correct index, the text of the correct option, and the [weight] field
    or 1. *)
Lemma checkAnswer_known this qid selected q :
  QuestionService.getQuestionById this qid = Some q →
  QuestionService.checkAnswer this qid selected
  = Ok {| QuestionService.isCorrect :=
            Js.strict_eq (Question.correct q) selected;
          QuestionService.correctAnswer := Question.correct q;
          QuestionService.correctOption :=
            index (Question.options q) (Question.correct q);
          QuestionService.selectedOption := selected;
          QuestionService.weight := Js.or_default (Question.weight q) 1 |}.
Proof. unfold QuestionService.checkAnswer. by intros ->. Qed.

(** C1. For a question of level B2 without a [weight] field,
    [checkAnswer] reports the weight 1, where the level-keyed default of
    the claim is 4; [calculateAssessment], with the default configuration,
    weighs the same answer to the same question 4. *)
Theorem checkAnswer_weight_ignores_level :
  QuestionService.checkAnswer unweighted_bank (Js.Int 7) (Js.Int 1)
  = Ok {| QuestionService.isCorrect := true;
          QuestionService.correctAnswer := 1;
          QuestionService.correctOption := Some "will have been working";
          QuestionService.selectedOption := Js.Int 1;
          QuestionService.weight := 1 |}
  ∧ AssessmentService.getDefaultConfig.(AssessmentService.weights)
      !! Question.level unweighted_B2 = Some 4
  ∧ AssessmentService.totalWeight
      (AssessmentService.calculateAssessment AssessmentService.getDefaultConfig
         "2024-05-01T10:02:00.000Z"
         (session_on [unweighted_B2] [answered 7 1 true] 1)
         [unweighted_B2]) = 4.
Proof. by vm_compute. Qed.

(** C9. For an id that no question of the bank has, [getQuestionById]
    returns null and [checkAnswer] throws its not-found error; a handler
    that receives such an id leaves every session as it was. *)
Theorem checkAnswer_unknown_id this qid selected :
  ¬ known this qid →
  QuestionService.getQuestionById this qid = None
  ∧ QuestionService.checkAnswer this qid selected
    = Err (QuestionService.NotFound qid)
  ∧ ∀ handlers now userId sessions,
      CallbackHandlers.questionService handlers = this →
      (CallbackHandlers.handleAnswer_record handlers now userId qid selected
         sessions).2 = sessions
      ∧ (CallbackHandlers.handleAnswer handlers now userId qid selected
           sessions).2 = sessions.
Proof.
  intros Hunknown.
  assert (QuestionService.getQuestionById this qid = None) as Hnone.
  { destruct (QuestionService.getQuestionById this qid) eqn:Hfind; [|done].
    exfalso. apply Hunknown, getQuestionById_known. by eexists. }
  assert (QuestionService.checkAnswer this qid selected
          = Err (QuestionService.NotFound qid)) as Hthrows.
  { unfold QuestionService.checkAnswer. by rewrite Hnone. }
  split; [done|]. split; [done|].
  intros handlers now userId sessions Hthis.
  assert ((CallbackHandlers.handleAnswer_record handlers now userId qid
             selected sessions).2 = sessions
          ∧ ∀ result, (CallbackHandlers.handleAnswer_record handlers now
                         userId qid selected sessions).1
                      ≠ CallbackHandlers.Recorded result) as [Hsame Hnot].
  { unfold CallbackHandlers.handleAnswer_record. rewrite Hthis, Hthrows.
    destruct (SessionService.getSession userId sessions) as [session|];
      [|done].
    repeat case_match; done. }
  split; [done|].
  unfold CallbackHandlers.handleAnswer.
  destruct (CallbackHandlers.handleAnswer_record _ _ _ _ _ _)
    as [[message|e|result] sessions'] eqn:Hrec;
    simpl in *; try done.
  by destruct (Hnot result).
Qed.

Lemma checkAnswer_unknown_id_witness :
  QuestionService.getQuestionById unweighted_bank (Js.Int 8) = None
  ∧ QuestionService.checkAnswer unweighted_bank (Js.Int 8) (Js.Int 0)
    = Err (QuestionService.NotFound (Js.Int 8))
  ∧ ∀ handlers now userId sessions,
      CallbackHandlers.questionService handlers = unweighted_bank →
      (CallbackHandlers.handleAnswer_record handlers now userId (Js.Int 8)
         (Js.Int 0) sessions).2 = sessions
      ∧ (CallbackHandlers.handleAnswer handlers now userId (Js.Int 8)
           (Js.Int 0) sessions).2 = sessions.
Proof.
  apply (checkAnswer_unknown_id unweighted_bank (Js.Int 8) (Js.Int 0)).
  intros (q & Hin & Heq). apply list_elem_of_singleton in Hin as ->.
  vm_compute in Heq. discriminate.
Defined.

(** ** The session store *)

(** C10. [isTestComplete] is false for a user without a session and true
    for a session whose list of questions is empty; a session just
    created is such a session. *)
Theorem isTestComplete_no_session_or_no_questions :
  (∀ userId (sessions : gmap Z Session.t),
     sessions !! userId = None →
     SessionService.isTestComplete userId sessions = false)
  ∧ (∀ userId (sessions : gmap Z Session.t) session,
       sessions !! userId = Some session →
       Session.questions session = [] →
       SessionService.isTestComplete userId sessions = true)
  ∧ (∀ now userId username (sessions : gmap Z Session.t),
       let created :=
         SessionService.createSession now userId username sessions in
       Session.state created.1 = Session.ready
       ∧ Session.currentQuestion created.1 = 0%nat
       ∧ Session.questions created.1 = []
       ∧ SessionService.isTestComplete userId created.2 = true).
Proof.
  unfold SessionService.isTestComplete, SessionService.getSession.
  split; [|split].
  - by intros userId sessions ->.
  - intros userId sessions session -> ->. apply bool_decide_eq_true. simpl. lia.
  - intros now userId username sessions. simpl.
    by rewrite lookup_insert_eq.
Qed.

Lemma isTestComplete_no_session_or_no_questions_witness :
  SessionService.isTestComplete 42 (∅ : gmap Z Session.t) = false
  ∧ SessionService.isTestComplete 42
      ({[ 42 := session_on [] [] 0 ]} : gmap Z Session.t) = true.
Proof.
  destruct isTestComplete_no_session_or_no_questions as (Hnone & Hempty & _).
  split.
  - apply Hnone. reflexivity.
  - apply (Hempty 42 _ (session_on [] [] 0)); reflexivity.
Defined.

(** What [recordAnswer] does to the session of the user. *)
Lemma recordAnswer_session now userId answer (sessions : gmap Z Session.t)
    session :
  sessions !! userId = Some session →
  ∃ session',
    SessionService.recordAnswer now userId answer sessions
    = (Some session', <[userId := session']> sessions)
    ∧ Session.answers session'
      = (Session.answers session
         ++ [ {| AnswerRecord.questionId := Answer.questionId answer;
                 AnswerRecord.selectedOption := Answer.selectedOption answer;
                 AnswerRecord.isCorrect := Answer.isCorrect answer;
                 AnswerRecord.timestamp := now |} ])%list
    ∧ Session.currentQuestion session'
      = (Session.currentQuestion session + 1)%nat
    ∧ Session.score session'
      = (if Answer.isCorrect answer
         then Session.score session + Js.or_default (Answer.weight answer) 1
         else Session.score session)
    ∧ Session.questions session' = Session.questions session
    ∧ Session.state session' = Session.state session
    ∧ Session.userId session' = Session.userId session
    ∧ Session.username session' = Session.username session
    ∧ Session.startTime session' = Session.startTime session.
Proof.
  intros Hsession. unfold SessionService.recordAnswer, SessionService.getSession.
  rewrite Hsession. eexists. split; [reflexivity|]. simpl. by repeat split.
Qed.

(** C3, as the code has it. Without a session [recordAnswer] returns null
    and leaves the cache as it was. With one it appends one record, made
    of the question id, the selected option, the correctness and the
    time (the weight is not part of the record), moves the cursor by one,
    and adds the weight of the answer to the score when the answer is
    correct and only then. An answer that carries no weight, or the
    weight 0, counts 1. The sessions of the other users stay as they
    were. *)
Theorem recordAnswer_appends_and_scores now userId answer
    (sessions : gmap Z Session.t) :
  (sessions !! userId = None →
   SessionService.recordAnswer now userId answer sessions = (None, sessions))
  ∧ (∀ session, sessions !! userId = Some session →
     ∃ session',
       SessionService.recordAnswer now userId answer sessions
       = (Some session', <[userId := session']> sessions)
       ∧ Session.answers session'
         = (Session.answers session
            ++ [ {| AnswerRecord.questionId := Answer.questionId answer;
                    AnswerRecord.selectedOption := Answer.selectedOption answer;
                    AnswerRecord.isCorrect := Answer.isCorrect answer;
                    AnswerRecord.timestamp := now |} ])%list
       ∧ Session.currentQuestion session'
         = (Session.currentQuestion session + 1)%nat
       ∧ (Answer.isCorrect answer = true →
          ∀ w, Answer.weight answer = Some w → w ≠ 0 →
               Session.score session' = Session.score session + w)
       ∧ (Answer.isCorrect answer = true →
          Answer.weight answer = None ∨ Answer.weight answer = Some 0 →
          Session.score session' = Session.score session + 1)
       ∧ (Answer.isCorrect answer = false →
          Session.score session' = Session.score session)
       ∧ ∀ other, other ≠ userId →
           (SessionService.recordAnswer now userId answer sessions).2 !! other
           = sessions !! other).
Proof.
  split.
  - intros Hnone. unfold SessionService.recordAnswer, SessionService.getSession.
    by rewrite Hnone.
  - intros session Hsession.
    destruct (recordAnswer_session now userId answer sessions session Hsession)
      as (session' & Hrun & Hanswers & Hcursor & Hscore & _).
    exists session'. rewrite Hrun.
    split; [done|]. split; [done|]. split; [done|]. split; [|split; [|split]].
    + intros Hcorrect w Hw Hnonzero. rewrite Hscore, Hcorrect, Hw. f_equal.
      unfold Js.or_default, Js.or, Js.truthy.
      by rewrite bool_decide_eq_false_2.
    + intros Hcorrect [Hw|Hw]; by rewrite Hscore, Hcorrect, Hw.
    + intros Hwrong. by rewrite Hscore, Hwrong.
    + intros other Hother. simpl. by rewrite lookup_insert_ne.
Qed.

Lemma recordAnswer_appends_and_scores_witness :
  SessionService.recordAnswer "2024-05-01T10:01:00.000Z" 7
    (answer_of 1 0 true (Some 1)) scenario_started
  = (None, scenario_started)
  ∧ ∃ session',
      SessionService.recordAnswer "2024-05-01T10:01:00.000Z" 42
        (answer_of 1 0 true (Some 1)) scenario_started
      = (Some session', <[42 := session']> scenario_started)
      ∧ Session.answers session' = [answered 1 0 true]
      ∧ Session.currentQuestion session' = 1%nat
      ∧ Session.score session' = 1.
Proof.
  split.
  - apply (recordAnswer_appends_and_scores "2024-05-01T10:01:00.000Z" 7
             (answer_of 1 0 true (Some 1)) scenario_started).
    reflexivity.
  - destruct (recordAnswer_appends_and_scores "2024-05-01T10:01:00.000Z" 42
                (answer_of 1 0 true (Some 1)) scenario_started)
      as [_ Hsession].
    destruct (Hsession (session_on scenario_questions [] 0) eq_refl)
      as (session' & Hrun & Hanswers & Hcursor & Hright & _).
    exists session'. split; [exact Hrun|]. split; [exact Hanswers|].
    split; [exact Hcursor|]. apply (Hright eq_refl 1 eq_refl). lia.
Defined.

(** C3, the claim as stated fails. Two wrong answers that differ only in
    their weight, 1 and 4, leave the same cache behind: the record that
    is appended does not hold the weight. *)
Lemma recordAnswer_record_has_no_weight :
  let sessions : gmap Z Session.t :=
    {[ 42 := session_on [unweighted_B2] [] 0 ]} in
  let now := "2024-05-01T10:01:00.000Z" in
  Answer.weight (answer_of 7 0 false (Some 1))
  ≠ Answer.weight (answer_of 7 0 false (Some 4))
  ∧ SessionService.recordAnswer now 42 (answer_of 7 0 false (Some 1)) sessions
    = SessionService.recordAnswer now 42 (answer_of 7 0 false (Some 4)) sessions
  ∧ (∀ record : AnswerRecord.t,
       record
       = {| AnswerRecord.questionId := AnswerRecord.questionId record;
            AnswerRecord.selectedOption := AnswerRecord.selectedOption record;
            AnswerRecord.isCorrect := AnswerRecord.isCorrect record;
            AnswerRecord.timestamp := AnswerRecord.timestamp record |}).
Proof.
  split; [discriminate|]. split; [reflexivity|]. by intros [].
Qed.

(** ** The scoring engine *)

(** C4. With the default thresholds [determineLevel] sends 25 to A1, 26 and
    50 to A2, 51 and 75 to B1 and 76 to B2; in general a percentage up to
    25 gives A1, up to 50 A2, up to 75 B1, and B2 above. The helper
    [getLevelFromScore] is the same function. *)
Theorem determineLevel_default_thresholds :
  let level_of p :=
    AssessmentService.determineLevel AssessmentService.getDefaultConfig
      (Js.Int p) in
  level_of 25 = "A1" ∧ level_of 26 = "A2" ∧ level_of 50 = "A2"
  ∧ level_of 51 = "B1" ∧ level_of 75 = "B1" ∧ level_of 76 = "B2"
  ∧ (∀ p, p ≤ 25 → level_of p = "A1")
  ∧ (∀ p, 25 < p ≤ 50 → level_of p = "A2")
  ∧ (∀ p, 50 < p ≤ 75 → level_of p = "B1")
  ∧ (∀ p, 75 < p → level_of p = "B2")
  ∧ ∀ x, Helpers.getLevelFromScore x
         = AssessmentService.determineLevel AssessmentService.getDefaultConfig x.
Proof.
  cbv zeta. do 6 (split; [reflexivity|]).
  unfold AssessmentService.determineLevel, Js.le. simpl.
  repeat split; try done;
    intros p Hp; repeat case_bool_decide; done || lia.
Qed.

Lemma determineLevel_default_thresholds_witness :
  AssessmentService.determineLevel AssessmentService.getDefaultConfig
    (Js.Int 0) = "A1"
  ∧ AssessmentService.determineLevel AssessmentService.getDefaultConfig
      (Js.Int 40) = "A2"
  ∧ AssessmentService.determineLevel AssessmentService.getDefaultConfig
      (Js.Int 60) = "B1"
  ∧ AssessmentService.determineLevel AssessmentService.getDefaultConfig
      (Js.Int 100) = "B2".
Proof.
  destruct determineLevel_default_thresholds
    as (_ & _ & _ & _ & _ & _ & HA1 & HA2 & HB1 & HB2 & _).
  split; [apply HA1; lia|]. split; [apply HA2; lia|].
  split; [apply HB1; lia | apply HB2; lia].
Defined.

(** [calculateAssessment] reads the clock only for [completedAt], and the
    session only for its answers. *)
Lemma calculateAssessment_clock config now now' session questions :
  same_but_completedAt
    (AssessmentService.calculateAssessment config now session questions)
    (AssessmentService.calculateAssessment config now' session questions).
Proof. by repeat split. Qed.

Lemma calculateAssessment_answers config now session session' questions :
  Session.answers session = Session.answers session' →
  AssessmentService.calculateAssessment config now session questions
  = AssessmentService.calculateAssessment config now session' questions.
Proof. unfold AssessmentService.calculateAssessment. by intros ->. Qed.

(** C2, as the code has it. Two calls of [calculateAssessment] with the
    same configuration, session and questions agree on every field of the
    result but [completedAt], which is the time of the call; the result
    depends on the session through its answers only. *)
Theorem calculateAssessment_repeatable config now now' session questions :
  same_but_completedAt
    (AssessmentService.calculateAssessment config now session questions)
    (AssessmentService.calculateAssessment config now' session questions)
  ∧ AssessmentService.completedAt
      (AssessmentService.calculateAssessment config now session questions)
    = now
  ∧ ∀ session', Session.answers session' = Session.answers session →
      AssessmentService.calculateAssessment config now session' questions
      = AssessmentService.calculateAssessment config now session questions.
Proof.
  split; [apply calculateAssessment_clock|]. split; [done|].
  intros session' Hanswers. by apply calculateAssessment_answers.
Qed.

Lemma calculateAssessment_repeatable_witness :
  AssessmentService.calculateAssessment AssessmentService.getDefaultConfig
    "2024-05-01T10:02:00.000Z"
    (session_on [] [answered 7 1 true] 0) [unweighted_B2]
  = AssessmentService.calculateAssessment AssessmentService.getDefaultConfig
      "2024-05-01T10:02:00.000Z"
      (session_on [unweighted_B2] [answered 7 1 true] 1) [unweighted_B2].
Proof.
  apply (calculateAssessment_repeatable AssessmentService.getDefaultConfig
           "2024-05-01T10:02:00.000Z" "2024-05-01T10:02:01.000Z"
           (session_on [unweighted_B2] [answered 7 1 true] 1)
           [unweighted_B2]).
  reflexivity.
Defined.

(** C2, the claim as stated fails: two calls on the same session and
    questions, one second apart, return different results. *)
Lemma calculateAssessment_not_identical :
  AssessmentService.calculateAssessment AssessmentService.getDefaultConfig
    "2024-05-01T10:02:00.000Z"
    (session_on [unweighted_B2] [answered 7 1 true] 1) [unweighted_B2]
  ≠ AssessmentService.calculateAssessment AssessmentService.getDefaultConfig
      "2024-05-01T10:02:01.000Z"
      (session_on [unweighted_B2] [answered 7 1 true] 1) [unweighted_B2].
Proof.
  intros Heq. apply (f_equal AssessmentService.completedAt) in Heq.
  discriminate Heq.
Qed.

(** The loop of [calculateAssessment] sums the weights of the answers
    that match a question, and those of the correct ones among them. *)
Lemma tally_weights config questions answers acc :
  let acc' :=
    foldl (AssessmentService.tallyAnswer config questions) acc answers in
  AssessmentService.tally_totalWeight acc'
  = AssessmentService.tally_totalWeight acc
    + sumZ (answerWeights config questions answers)
  ∧ AssessmentService.tally_earnedWeight acc'
    = AssessmentService.tally_earnedWeight acc
      + sumZ (answerWeights config questions
                (filter (λ a, AnswerRecord.isCorrect a = true) answers)).
Proof.
  revert acc. induction answers as [|a answers IH]; intros acc; simpl.
  - unfold sumZ. simpl. lia.
  - destruct (IH (AssessmentService.tallyAnswer config questions acc a))
      as [Htotal Hearned].
    rewrite Htotal, Hearned. clear IH Htotal Hearned.
    unfold AssessmentService.tallyAnswer, answerWeights.
    rewrite filter_cons.
    destruct (decide (AnswerRecord.isCorrect a = true)) as [Hc|Hc].
    + rewrite Hc. simpl.
      destruct (List.find _ questions) as [q|]; simpl; [|done].
      unfold sumZ, resolvedWeight. simpl.
      split; first [reflexivity | symmetry; apply Z.add_assoc].
    + apply not_true_is_false in Hc. rewrite Hc. simpl.
      destruct (List.find _ questions) as [q|]; simpl; [|done].
      unfold sumZ, resolvedWeight. simpl.
      split; first [reflexivity | symmetry; apply Z.add_assoc].
Qed.

Lemma round_percent_ok_200 : round_percent_ok_upto 200 = true.
Proof. vm_compute. reflexivity. Qed.

Lemma round_percent_ok_upto_elim bound earned total :
  round_percent_ok_upto bound = true →
  0 < total ≤ bound → 0 ≤ earned ≤ total →
  round_percent_ok earned total = true.
Proof.
  unfold round_percent_ok_upto. intros Hall Htotal Hearned.
  rewrite forallb_forall in Hall.
  assert (In total (seqZ 1 bound)) as Hin.
  { apply list_elem_of_In, elem_of_seqZ. lia. }
  specialize (Hall total Hin). rewrite forallb_forall in Hall.
  apply Hall, list_elem_of_In, elem_of_seqZ. lia.
Qed.

(** In binary64, for weights up to 200, [Math.round((earned / total) * 100)]
    is an integer nearest to the exact percentage, and the exact
    percentage rounded half up unless that percentage lies half way
    between two integers. *)
Lemma round_percent_nearest earned total :
  0 ≤ earned ≤ total → 0 < total ≤ 200 →
  ∃ p, Js.round_percent earned total = Js.Int p
       ∧ nearest_integer p (100 * earned) total
       ∧ (2 * Z.abs (100 * earned - p * total) ≠ total →
          p = round_half_up (100 * earned) total)
       ∧ Helpers.getLevelFromScore (Js.Int p)
         = Helpers.getLevelFromScore
             (Js.Int (round_half_up (100 * earned) total)).
Proof.
  intros Hearned Htotal.
  pose proof (round_percent_ok_upto_elim 200 earned total
                round_percent_ok_200 Htotal Hearned) as Hok.
  unfold round_percent_ok in Hok.
  destruct (Js.round_percent earned total) as [| |p]; try done.
  exists p. apply andb_prop in Hok as [Hok Hlevel].
  apply andb_prop in Hok as [Hnear Hexact].
  apply bool_decide_eq_true in Hnear, Hlevel.
  split; [done|]. split; [done|]. split; [|done].
  intros Htie. apply orb_prop in Hexact as [Hexact|Hexact];
    apply bool_decide_eq_true in Hexact; done.
Qed.

(** The questions of the scenario are in the domain of the validation,
    and the weights of its answers add up to 10. *)
Lemma scenario_questions_validated : validated scenario_questions.
Proof.
  intros q Hq. unfold scenario_questions in Hq.
  repeat (apply elem_of_cons in Hq as [->|Hq]); [..|by apply elem_of_nil in Hq];
    split; apply (bool_decide_unpack _); vm_compute; exact I.
Qed.

Lemma scenario_exactly_summed :
  exactly_summed AssessmentService.getDefaultConfig scenario_questions
    (Session.answers scenario_session).
Proof.
  unfold exactly_summed. apply (bool_decide_unpack _). vm_compute. exact I.
Qed.



(** The helper [calculatePercentage] and the engine compute the same
    percentage of a total that is not negative. *)
Lemma calculatePercentage_percentage value total :
  0 ≤ total →
  Helpers.calculatePercentage value total
  = AssessmentService.percentage value total.
Proof.
  intros Htotal.
  unfold Helpers.calculatePercentage, AssessmentService.percentage.
  repeat case_bool_decide; done || lia.
Qed.

(** C5. In the test of sixteen questions the session earns 23 of 40; the
    exact percentage 57.5 rounds to 58, and the engine reports 57,
    because the binary64 product [(23 / 40) * 100] is
    57.49999999999999. The helper [calculatePercentage] does the same. *)
Lemma percentageScore_not_exact_rounding :
  let a :=
    AssessmentService.calculateAssessment AssessmentService.getDefaultConfig
      "2024-05-01T10:20:00.000Z" quiz16_session quiz16 in
  AssessmentService.earnedWeight a = 23
  ∧ AssessmentService.totalWeight a = 40
  ∧ round_half_up (100 * 23) 40 = 58
  ∧ AssessmentService.percentageScore a = Js.Int 57
  ∧ AssessmentService.percentageScore a
    ≠ Js.Int (round_half_up (100 * AssessmentService.earnedWeight a)
                (AssessmentService.totalWeight a))
  ∧ Helpers.calculatePercentage 23 40 = Js.Int 57.
Proof. by vm_compute. Qed.

(** ** Loading the bank *)

Lemma isArrayOfLength_true v n :
  Json.isArrayOfLength v n = true
  ↔ ∃ items, v = Some (Json.Arr items) ∧ length items = n.
Proof.
  unfold Json.isArrayOfLength. split.
  - destruct v as [[]|]; try done.
    intros Hlen%bool_decide_eq_true. by eexists.
  - intros (items & -> & Hlen). by apply bool_decide_eq_true.
Qed.

Lemma includedIn_true strings v :
  Json.includedIn strings v = true
  ↔ ∃ s, v = Some (Json.Str s) ∧ s ∈ strings.
Proof.
  unfold Json.includedIn. split.
  - destruct v as [[]|]; try done.
    intros Hin%bool_decide_eq_true. by eexists.
  - intros (s & -> & Hin). by apply bool_decide_eq_true.
Qed.

Lemma outsideIndexRange_false StringToNumber v :
  QuestionService.outsideIndexRange StringToNumber v = false
  ↔ in_index_range StringToNumber v.
Proof.
  unfold QuestionService.outsideIndexRange, in_index_range.
  by rewrite orb_false_iff.
Qed.

Lemma find_undefined_None question :
  List.find (λ f, Json.isUndefined (Json.get question f))
    QuestionService.requiredFields = None
  ↔ ∀ f, f ∈ QuestionService.requiredFields → is_Some (Json.get question f).
Proof.
  split.
  - intros Hfind f Hf. apply list_elem_of_In in Hf.
    pose proof (find_none _ _ Hfind f Hf) as Hdef. simpl in Hdef.
    by destruct (Json.get question f).
  - intros Hall.
    destruct (List.find _ _) as [f|] eqn:Hfind; [|done].
    apply find_some in Hfind as [Hf Hundef].
    apply list_elem_of_In, Hall in Hf as [v Hv].
    by rewrite Hv in Hundef.
Qed.

(** On an entry other than [null], [validateQuestion] applies the five
    rules in their order. *)
Lemma validateQuestion_not_null StringToNumber question :
  question ≠ Json.Null →
  QuestionService.validateQuestion StringToNumber question
  = match List.find (λ f, Json.isUndefined (Json.get question f))
            QuestionService.requiredFields with
    | Some f =>
        Err (QuestionService.MissingField
               (if Json.truthy (Json.get question "id")
                then Json.get question "id" else None) f)
    | None =>
        if negb (Json.isArrayOfLength (Json.get question "options") 4)
        then Err (QuestionService.NotFourOptions (Json.get question "id"))
        else if QuestionService.outsideIndexRange StringToNumber
                  (Json.get question "correct")
        then Err (QuestionService.InvalidCorrectIndex (Json.get question "id"))
        else if negb (Json.includedIn QuestionService.validLevels
                        (Json.get question "level"))
        then Err (QuestionService.InvalidLevel (Json.get question "id")
                    (Json.get question "level"))
        else if negb (Json.includedIn QuestionService.validCategories
                        (Json.get question "category"))
        then Err (QuestionService.InvalidCategory (Json.get question "id")
                    (Json.get question "category"))
        else Ok ()
    end.
Proof. by destruct question. Qed.

(** [validateQuestion] lets a question pass exactly when it is
    [accepted]. *)
Lemma validateQuestion_Ok StringToNumber question :
  QuestionService.validateQuestion StringToNumber question = Ok ()
  ↔ accepted StringToNumber question.
Proof.
  unfold accepted.
  rewrite <- find_undefined_None, <- isArrayOfLength_true,
    <- outsideIndexRange_false, <- !includedIn_true.
  assert (question = Json.Null ∨ question ≠ Json.Null) as [->|Hnull]
    by (destruct question; auto).
  { split; [done | by intros [? _]]. }
  rewrite validateQuestion_not_null by done.
  destruct (List.find _ QuestionService.requiredFields);
    [split; [done | by intros [? _]]|].
  destruct (Json.isArrayOfLength _ 4); simpl;
    [|split; [done | by intros (_ & ? & _)]].
  destruct (QuestionService.outsideIndexRange _ _); simpl;
    [split; [done | by intros (_ & _ & ? & _)]|].
  destruct (Json.includedIn QuestionService.validLevels _); simpl;
    [|split; [done | by intros (_ & _ & _ & ? & _)]].
  destruct (Json.includedIn QuestionService.validCategories _); simpl;
    [done | split; [done | by intros (_ & _ & _ & _ & ?)]].
Qed.

(** The id in the message of [validateQuestion]. *)
Lemma validateQuestion_names_id StringToNumber question e :
  QuestionService.validateQuestion StringToNumber question = Err e →
  names_id_of e question.
Proof.
  assert (question = Json.Null ∨ question ≠ Json.Null) as [->|Hnull]
    by (destruct question; auto).
  { simpl. by intros [= <-]. }
  rewrite validateQuestion_not_null by done.
  destruct (List.find _ QuestionService.requiredFields) as [f|] eqn:Hfind.
  { by intros [= <-]. }
  pose proof (proj1 (find_undefined_None question) Hfind) as Hall.
  assert (is_Some (Json.get question "id")) as Hid.
  { apply Hall. unfold QuestionService.requiredFields. set_solver. }
  repeat case_match; intros [= <-]; done.
Qed.

(** [validateQuestions] lets a bank pass exactly when each of its
    questions is accepted, and otherwise throws the error of the first
    question that is not. *)
Lemma validateQuestions_Ok StringToNumber bank :
  QuestionService.validateQuestions StringToNumber bank = Ok ()
  ↔ Forall (accepted StringToNumber) bank.
Proof.
  induction bank as [|question bank IH]; simpl.
  - split; [by constructor | done].
  - rewrite Forall_cons, <- IH, <- validateQuestion_Ok.
    destruct (QuestionService.validateQuestion StringToNumber question)
      as [[]|e]; [tauto|].
    split; [done | by intros [? _]].
Qed.

Lemma validateQuestions_Err StringToNumber bank e :
  QuestionService.validateQuestions StringToNumber bank = Err e →
  ∃ before question after,
    bank = (before ++ question :: after)%list
    ∧ Forall (accepted StringToNumber) before
    ∧ ¬ accepted StringToNumber question
    ∧ QuestionService.validateQuestion StringToNumber question = Err e.
Proof.
  induction bank as [|question bank IH]; simpl; [done|].
  destruct (QuestionService.validateQuestion StringToNumber question)
    as [[]|e'] eqn:Hq.
  - intros (before & q & after & -> & Hbefore & Hq' & He)%IH.
    exists (question :: before), q, after.
    repeat split; try done.
    constructor; [by apply validateQuestion_Ok | done].
  - intros [= ->]. exists [], question, bank.
    repeat split; try done.
    rewrite <- validateQuestion_Ok, Hq. done.
Qed.



(** C6. The code loads a question whose [correct] is no index. The
    third rule of [validateQuestions], which throws 'has invalid correct
    answer index', refuses a [correct] that compares below 0 or above 3,
    and [null] compares as 0: a bank whose question has [correct: null],
    none of the indices 0 to 3, passes the validation, and the
    constructor yields a service that holds it. And a reload that fails
    leaves the rejected bank in the service, in the place of the bank
    that was loaded before, since [loadQuestions] stores the bank before
    it validates it. *)
Theorem loadQuestions_accepts_null_correct :
  (∀ StringToNumber,
     QuestionService.validateQuestions StringToNumber
       [json_question (Some (Json.Num 1)) Json.Null "A1"]
     = Ok ()
     ∧ QuestionService.construct StringToNumber
         (QuestionService.Parsed
            (Some [json_question (Some (Json.Num 1)) Json.Null "A1"]))
       = Ok {| QuestionService.loaded :=
                 [json_question (Some (Json.Num 1)) Json.Null "A1"] |})
  ∧ ¬ correct_is_index (json_question (Some (Json.Num 1)) Json.Null "A1")
  ∧ (∀ StringToNumber,
       QuestionService.reloadQuestions StringToNumber
         (QuestionService.Parsed
            (Some [json_question (Some (Json.Num 1)) (Json.Num 1) "A1";
                   json_question (Some (Json.Num 2)) (Json.Num 1) "C1"]))
         {| QuestionService.loaded :=
              [json_question (Some (Json.Num 1)) (Json.Num 1) "A1"] |}
       = ({| QuestionService.loaded :=
               [json_question (Some (Json.Num 1)) (Json.Num 1) "A1";
                json_question (Some (Json.Num 2)) (Json.Num 1) "C1"] |},
          Err (QuestionService.LoadFailed
                 (QuestionService.InvalidLevel (Some (Json.Num 2))
                    (Some (Json.Str "C1")))))).
Proof.
  split; [intros StringToNumber; split; by vm_compute|].
  split.
  { intros (n & _ & Hn). vm_compute in Hn. discriminate Hn. }
  intros StringToNumber; by vm_compute.
Qed.

(** ** The answer handler *)

Lemma or_default_nonzero a : Js.or_default a 1 ≠ 0.
Proof.
  unfold Js.or_default, Js.or, Js.truthy.
  destruct a as [v|]; [|done]. by case_bool_decide.
Qed.

(** Two positions of a list without repeated ids hold different ids. *)
Lemma distinct_ids (questions : list Question) i j q q' :
  NoDup (Question.id <$> questions) →
  questions !! i = Some q → questions !! j = Some q' → i ≠ j →
  Question.id q ≠ Question.id q'.
Proof.
  intros Hnodup Hi Hj Hij Heq. apply Hij.
  apply (NoDup_lookup _ i j (Question.id q) Hnodup);
    rewrite list_lookup_fmap.
  - by rewrite Hi.
  - by rewrite Hj, Heq.
Qed.

(** An answer to the question under the cursor is recorded. *)
Lemma handleAnswer_record_current handlers now userId qid selected
    (sessions : gmap Z Session.t) session q :
  sessions !! userId = Some session →
  Session.state session = Session.in_progress →
  Session.questions session !! Session.currentQuestion session = Some q →
  Question.id q = qid →
  known (CallbackHandlers.questionService handlers) (Js.Int qid) →
  ∃ result session',
    CallbackHandlers.handleAnswer_record handlers now userId (Js.Int qid)
      selected sessions
    = (CallbackHandlers.Recorded result, <[userId := session']> sessions)
    ∧ QuestionService.checkAnswer (CallbackHandlers.questionService handlers)
        (Js.Int qid) selected = Ok result
    ∧ Session.answers session'
      = (Session.answers session
         ++ [ {| AnswerRecord.questionId := Js.Int qid;
                 AnswerRecord.selectedOption := selected;
                 AnswerRecord.isCorrect := QuestionService.isCorrect result;
                 AnswerRecord.timestamp := now |} ])%list
    ∧ Session.currentQuestion session'
      = (Session.currentQuestion session + 1)%nat
    ∧ Session.score session'
      = Session.score session
        + (if QuestionService.isCorrect result
           then QuestionService.weight result else 0)
    ∧ Session.questions session' = Session.questions session
    ∧ Session.state session' = Session.state session.
Proof.
  intros Hsession Hstate Hcurrent Hid Hknown.
  apply getQuestionById_known in Hknown as [q' Hq'].
  pose proof (checkAnswer_known _ _ selected _ Hq') as Hcheck.
  unfold CallbackHandlers.handleAnswer_record, SessionService.getSession.
  rewrite Hsession, Hstate, Hcurrent, Hid. simpl.
  rewrite bool_decide_eq_true_2 by done. simpl.
  rewrite Hcheck.
  match goal with
  | |- context [SessionService.recordAnswer now userId ?a sessions] =>
      destruct (recordAnswer_session now userId a sessions session Hsession)
        as (session' & Hrun & Hanswers & Hcursor & Hscore & Hquestions
            & Hstate' & _)
  end.
  rewrite Hrun. simpl in *.
  eexists _, session'. split; [reflexivity|]. split; [reflexivity|].
  split; [done|]. split; [done|].
  split; [|by rewrite Hstate'].
  rewrite Hscore. simpl.
  destruct (Js.strict_eq (Question.correct q') selected); [|lia].
  f_equal. unfold Js.or_default at 1, Js.or, Js.truthy.
  rewrite bool_decide_eq_false_2; [done | apply or_default_nonzero].
Qed.

(** An answer whose id is not that of the question under the cursor is
    rejected, and changes nothing. *)
Lemma handleAnswer_record_moved handlers now userId qid selected
    (sessions : gmap Z Session.t) session :
  sessions !! userId = Some session →
  (∀ q, Session.questions session !! Session.currentQuestion session
        = Some q → Question.id q ≠ qid) →
  ∃ message,
    CallbackHandlers.handleAnswer_record handlers now userId (Js.Int qid)
      selected sessions
    = (CallbackHandlers.Rejected message, sessions)
    ∧ (Session.state session = Session.in_progress →
       message = CallbackHandlers.InvalidAnswer).
Proof.
  intros Hsession Hother.
  unfold CallbackHandlers.handleAnswer_record, SessionService.getSession.
  rewrite Hsession.
  destruct (decide (Session.state session = Session.in_progress))
    as [Hstate|Hstate].
  - rewrite bool_decide_eq_true_2 by done. simpl.
    destruct (Session.questions session !! Session.currentQuestion session)
      as [q'|] eqn:Hcurrent; [|by eexists].
    specialize (Hother q' eq_refl).
    simpl. rewrite bool_decide_eq_false_2 by done. by eexists.
  - rewrite bool_decide_eq_false_2 by done. by eexists.
Qed.

(** In a list of questions without repeated ids, the question after a
    question has another id. *)
Lemma distinct_ids_next (questions : list Question) i q :
  NoDup (Question.id <$> questions) →
  questions !! i = Some q →
  ∀ next, questions !! S i = Some next → Question.id next ≠ Question.id q.
Proof.
  intros Hnodup Hq next Hnext.
  eapply distinct_ids; [done..|lia].
Qed.

(** After [completeTest] the user has a new session, which is not in
    progress. *)
Lemma completeTest_leaves_ready handlers now userId
    (sessions : gmap Z Session.t) session :
  sessions !! userId = Some session →
  ∃ fresh,
    (CallbackHandlers.completeTest handlers now userId sessions).2 !! userId
    = Some fresh
    ∧ Session.state fresh = Session.ready
    ∧ Session.answers fresh = []
    ∧ Session.score fresh = 0.
Proof.
  intros Hsession.
  unfold CallbackHandlers.completeTest, SessionService.getSession.
  rewrite Hsession. simpl. rewrite lookup_insert_eq. by eexists.
Qed.

(** C8. In a session in progress, let an answer to the question under
    the cursor, known to the bank, be delivered twice, the question that
    follows in the test, if there is one, having another id (as it has
    when the ids of the questions are distinct). The first delivery
    appends one record, moves the
    cursor by one and adds the weight to the score if the answer is
    correct. The second, handled as soon as the first is recorded, is
    rejected as an invalid answer, since the cursor has left the
    question, and leaves the session as the first left it. Handled after
    the first handler has finished, it is rejected as well and changes
    nothing. *)
Theorem double_submission_recorded_once handlers now now' userId qid selected
    (sessions : gmap Z Session.t) session q :
  sessions !! userId = Some session →
  Session.state session = Session.in_progress →
  Session.questions session !! Session.currentQuestion session = Some q →
  Question.id q = qid →
  known (CallbackHandlers.questionService handlers) (Js.Int qid) →
  (∀ next,
     Session.questions session !! S (Session.currentQuestion session)
     = Some next →
     Question.id next ≠ qid) →
  ∃ result session',
    CallbackHandlers.handleAnswer_record handlers now userId (Js.Int qid)
      selected sessions
    = (CallbackHandlers.Recorded result, <[userId := session']> sessions)
    ∧ Session.answers session'
      = (Session.answers session
         ++ [ {| AnswerRecord.questionId := Js.Int qid;
                 AnswerRecord.selectedOption := selected;
                 AnswerRecord.isCorrect := QuestionService.isCorrect result;
                 AnswerRecord.timestamp := now |} ])%list
    ∧ Session.currentQuestion session'
      = (Session.currentQuestion session + 1)%nat
    ∧ Session.score session'
      = Session.score session
        + (if QuestionService.isCorrect result
           then QuestionService.weight result else 0)
    ∧ CallbackHandlers.handleAnswer_record handlers now' userId (Js.Int qid)
        selected (<[userId := session']> sessions)
      = (CallbackHandlers.Rejected CallbackHandlers.InvalidAnswer,
         <[userId := session']> sessions)
    ∧ Forall (λ seen,
                ∃ message,
                  CallbackHandlers.handleAnswer handlers now' userId
                    (Js.Int qid) selected seen
                  = ([message], seen))
        (CallbackHandlers.handleAnswer_awaits now userId
           (<[userId := session']> sessions))
    ∧ let finished :=
        (CallbackHandlers.handleAnswer handlers now userId (Js.Int qid)
           selected sessions).2 in
      ∃ message,
        CallbackHandlers.handleAnswer handlers now' userId (Js.Int qid)
          selected finished
        = ([message], finished)
        ∧ (message = CallbackHandlers.InvalidAnswer
           ∨ message = CallbackHandlers.NoActiveTest).
Proof.
  intros Hsession Hstate Hcurrent Hid Hknown Hfollows.
  destruct (handleAnswer_record_current handlers now userId qid selected
              sessions session q Hsession Hstate Hcurrent Hid Hknown)
    as (result & session' & Hfirst & _ & Hanswers & Hcursor & Hscore
        & Hquestions & Hstate').
  assert (∀ t, CallbackHandlers.handleAnswer_record handlers t userId
                 (Js.Int qid) selected (<[userId := session']> sessions)
               = (CallbackHandlers.Rejected CallbackHandlers.InvalidAnswer,
                  <[userId := session']> sessions)) as Hsecond.
  { intros t.
    destruct (handleAnswer_record_moved handlers t userId qid selected
                (<[userId := session']> sessions) session')
      as (message & Hrun & Hmessage).
    - by rewrite lookup_insert_eq.
    - rewrite Hquestions, Hcursor, Nat.add_1_r. exact Hfollows.
    - rewrite Hrun, Hmessage; [done|]. by rewrite Hstate'. }
  exists result, session'.
  split; [done|]. split; [done|]. split; [done|]. split; [done|].
  split; [apply Hsecond|].
  split.
  { unfold CallbackHandlers.handleAnswer_awaits. constructor.
    { eexists. unfold CallbackHandlers.handleAnswer. by rewrite Hsecond. }
    assert (Forall (λ seen,
                      ∃ message,
                        CallbackHandlers.handleAnswer handlers now' userId
                          (Js.Int qid) selected seen = ([message], seen))
              (CallbackHandlers.completeTest_awaits now userId
                 (<[userId := session']> sessions))) as Hcompleting.
    { unfold CallbackHandlers.completeTest_awaits, SessionService.getSession.
      rewrite lookup_insert_eq.
      repeat constructor; eexists;
        unfold CallbackHandlers.handleAnswer,
          CallbackHandlers.handleAnswer_record, SessionService.getSession,
          SessionService.completeSession, SessionService.updateSession,
          SessionService.getSession, SessionService.clearSession,
          SessionService.createSession; simpl;
        rewrite ?lookup_insert_eq; simpl;
        rewrite ?lookup_insert_eq, ?lookup_delete_eq; simpl; reflexivity. }
    destruct (SessionService.isTestComplete userId
                (<[userId:=session']> sessions)); [done|].
    unfold CallbackHandlers.sendQuestion_awaits, SessionService.getSession.
    rewrite lookup_insert_eq.
    destruct (Session.questions session' !! Session.currentQuestion session');
      [|done].
    constructor; [|done].
    eexists. unfold CallbackHandlers.handleAnswer. by rewrite Hsecond. }
  cbv zeta.
  assert (CallbackHandlers.handleAnswer handlers now userId (Js.Int qid)
            selected sessions
          = CallbackHandlers.handleAnswer_continue handlers now userId result
              (<[userId := session']> sessions)) as ->.
  { unfold CallbackHandlers.handleAnswer. by rewrite Hfirst. }
  unfold CallbackHandlers.handleAnswer_continue.
  destruct (SessionService.isTestComplete userId (<[userId:=session']> sessions))
    eqn:Hcomplete.
  - destruct (completeTest_leaves_ready handlers now userId
                (<[userId := session']> sessions) session')
      as (fresh & Hfresh & Hready & _); [by rewrite lookup_insert_eq|].
    destruct (CallbackHandlers.completeTest handlers now userId
                (<[userId := session']> sessions)) as [messages finished].
    simpl in *. exists CallbackHandlers.NoActiveTest. split; [|by right].
    unfold CallbackHandlers.handleAnswer, CallbackHandlers.handleAnswer_record,
      SessionService.getSession.
    by rewrite Hfresh, Hready.
  - unfold SessionService.isTestComplete, SessionService.getSession in Hcomplete.
    rewrite lookup_insert_eq in Hcomplete.
    apply bool_decide_eq_false in Hcomplete.
    unfold CallbackHandlers.sendQuestion, SessionService.getSession.
    rewrite lookup_insert_eq.
    destruct (Session.questions session' !! Session.currentQuestion session')
      as [next|] eqn:Hnext.
    + simpl. exists CallbackHandlers.InvalidAnswer. split; [|by left].
      unfold CallbackHandlers.handleAnswer. by rewrite Hsecond.
    + apply lookup_ge_None in Hnext. lia.
Qed.

Lemma double_submission_recorded_once_witness :
  ∃ result session',
    CallbackHandlers.handleAnswer_record scenario_handlers
      "2024-05-01T10:01:00.000Z" 42 (Js.Int 1) (Js.Int 0) scenario_started
    = (CallbackHandlers.Recorded result, <[42 := session']> scenario_started)
    ∧ Session.answers session' = [answered 1 0 (QuestionService.isCorrect result)]
    ∧ Session.currentQuestion session' = 1%nat
    ∧ Session.score session'
      = 0 + (if QuestionService.isCorrect result
             then QuestionService.weight result else 0)
    ∧ CallbackHandlers.handleAnswer_record scenario_handlers
        "2024-05-01T10:01:00.100Z" 42 (Js.Int 1) (Js.Int 0)
        (<[42 := session']> scenario_started)
      = (CallbackHandlers.Rejected CallbackHandlers.InvalidAnswer,
         <[42 := session']> scenario_started)
    ∧ Forall (λ seen,
                ∃ message,
                  CallbackHandlers.handleAnswer scenario_handlers
                    "2024-05-01T10:01:00.100Z" 42 (Js.Int 1) (Js.Int 0) seen
                  = ([message], seen))
        (CallbackHandlers.handleAnswer_awaits "2024-05-01T10:01:00.000Z" 42
           (<[42 := session']> scenario_started))
    ∧ let finished :=
        (CallbackHandlers.handleAnswer scenario_handlers
           "2024-05-01T10:01:00.000Z" 42 (Js.Int 1) (Js.Int 0)
           scenario_started).2 in
      ∃ message,
        CallbackHandlers.handleAnswer scenario_handlers
          "2024-05-01T10:01:00.100Z" 42 (Js.Int 1) (Js.Int 0) finished
        = ([message], finished)
        ∧ (message = CallbackHandlers.InvalidAnswer
           ∨ message = CallbackHandlers.NoActiveTest).
Proof.
  apply (double_submission_recorded_once scenario_handlers
           "2024-05-01T10:01:00.000Z" "2024-05-01T10:01:00.100Z" 42 1
           (Js.Int 0) scenario_started
           (session_on scenario_questions [] 0)
           (default unweighted_B2 (scenario_questions !! 0%nat))).
  - reflexivity.
  - reflexivity.
  - reflexivity.
  - reflexivity.
  - exists (default unweighted_B2 (scenario_questions !! 0%nat)).
    split; [|reflexivity]. simpl. left.
  - assert (NoDup (Question.id <$> scenario_questions)) as Hnodup
      by (apply (bool_decide_unpack _); vm_compute; exact I).
    exact (distinct_ids_next scenario_questions 0
             (default unweighted_B2 (scenario_questions !! 0%nat))
             Hnodup eq_refl).
Defined.

(** C8, the claim as stated fails. Nothing keeps two questions of a test
    from having the same id: in a session in progress on two such
    questions, one after the other, the cursor that the first delivery
    has moved is on a question with the id of the answer, so that the
    second delivery is recorded as well. The session then holds two
    records and a score counted twice, and the test, which has no third
    question, is over. *)
Lemma double_submission_recorded_twice :
  ∃ result session' sessions'' session'',
    twin_started !! 42 = Some (session_on twin_questions [] 0)
    ∧ CallbackHandlers.handleAnswer_record twin_handlers
        "2024-05-01T10:01:00.000Z" 42 (Js.Int 1) (Js.Int 0) twin_started
      = (CallbackHandlers.Recorded result, <[42 := session']> twin_started)
    ∧ CallbackHandlers.handleAnswer_record twin_handlers
        "2024-05-01T10:01:00.100Z" 42 (Js.Int 1) (Js.Int 0)
        (<[42 := session']> twin_started)
      = (CallbackHandlers.Recorded result, sessions'')
    ∧ sessions'' !! 42 = Some session''
    ∧ Session.answers session''
      = [ {| AnswerRecord.questionId := Js.Int 1;
             AnswerRecord.selectedOption := Js.Int 0;
             AnswerRecord.isCorrect := true;
             AnswerRecord.timestamp := "2024-05-01T10:01:00.000Z" |};
          {| AnswerRecord.questionId := Js.Int 1;
             AnswerRecord.selectedOption := Js.Int 0;
             AnswerRecord.isCorrect := true;
             AnswerRecord.timestamp := "2024-05-01T10:01:00.100Z" |} ]
    ∧ Session.currentQuestion session'' = 2%nat
    ∧ Session.score session'' = 2.
Proof.
  eexists _, _, _, _.
  split; [reflexivity|].
  split.
  { unfold CallbackHandlers.handleAnswer_record, SessionService.getSession,
      twin_started.
    rewrite lookup_singleton_eq. simpl. reflexivity. }
  split.
  { unfold CallbackHandlers.handleAnswer_record, SessionService.getSession.
    rewrite lookup_insert_eq. simpl. reflexivity. }
  split; [apply lookup_insert_eq|].
  split; [reflexivity|]. split; reflexivity.
Qed.

(** ** Selection of the questions of a test *)

Section SelectionProofs.
Import Heap.

Lemma bind_run {A B} (m : M A) (f : A → M B) σ :
  (m ≫= f) σ = f (m σ).1 (m σ).2.
Proof. unfold mbind, M_bind. by destruct (m σ). Qed.

Lemma floor_mul_lt d n :
  Random.in_unit_interval d → (0 < n)%nat → (Random.floor_mul d n < n)%nat.
Proof.
  unfold Random.in_unit_interval, Random.floor_mul. intros Hd Hn.
  apply Nat.Div0.div_lt_upper_bound. nia.
Qed.

Lemma for_down_S i (body : nat → M unit) σ :
  for_down (S i) body σ = for_down i body (body (S i) σ).2.
Proof. simpl. by rewrite bind_run. Qed.

Lemma for_of_cons {A} (x : A) rest (body : A → M unit) σ :
  for_of (x :: rest) body σ = for_of rest body (body x σ).2.
Proof. simpl. by rewrite bind_run. Qed.

Lemma swap_run (a : ref) i j σ xs xi xj :
  arrays σ !! a = Some xs → xs !! j = Some xj → xs !! i = Some xi →
  swap a i j σ
  = (tt, {| arrays := <[a := <[j := xi]> (<[i := xj]> xs)]> (arrays σ);
            draws := draws σ; calls := calls σ |}).
Proof.
  intros Ha Hj Hi. unfold swap. rewrite bind_run. unfold read at 1 2.
  simpl. rewrite Ha. simpl. by rewrite Hj, Hi.
Qed.

(** The loop of [shuffleArray] rearranges the array it is given, and
    touches no other. *)
Lemma shuffle_loop (shuffled : ref) i : ∀ σ xs,
  arrays σ !! shuffled = Some xs →
  (i ≤ length xs - 1)%nat →
  valid_draws σ →
  ∃ σ' xs',
    for_down i (λ i, r ← random;
                     swap shuffled i (Random.floor_mul r (i + 1))) σ
    = (tt, σ')
    ∧ arrays σ' = <[shuffled := xs']> (arrays σ)
    ∧ xs' ≡ₚ xs
    ∧ draws σ' = draws σ.
Proof.
  induction i as [|i IH]; intros σ xs Hxs Hi Hvalid.
  - exists σ, xs. simpl. split; [done|].
    split; [by rewrite list_insert_id|done].
  - rewrite for_down_S, bind_run. unfold random at 1 2. cbn [fst snd].
    set (j := Random.floor_mul (draws σ (calls σ)) (S i + 1)).
    assert (j < S i + 1)%nat as Hj by (apply floor_mul_lt; [done|lia]).
    destruct (lookup_lt_is_Some_2 xs j) as [xj Hxj]; [lia|].
    destruct (lookup_lt_is_Some_2 xs (S i)) as [xi Hxi]; [lia|].
    rewrite (swap_run shuffled (S i) j _ xs xi xj); [|done..].
    cbn [fst snd arrays draws calls].
    pose proof (Permutation_insert_swap xs (S i) j xi xj Hxi Hxj) as Hperm.
    set (xs1 := <[j:=xi]> (<[S i:=xj]> xs)) in *.
    set (σ1 := {| arrays := <[shuffled:=xs1]> (arrays σ);
                  draws := draws σ; calls := S (calls σ) |}).
    destruct (IH σ1 xs1) as (σ' & xs' & Hrun & Harrays & Hperm' & Hdraws).
    + simpl. apply list_lookup_insert_eq. by eapply lookup_lt_Some.
    + unfold xs1. rewrite !length_insert. lia.
    + done.
    + exists σ', xs'. split; [exact Hrun|].
      split; [|split; [by rewrite Hperm'|done]].
      rewrite Harrays. simpl. apply list_insert_insert_eq.
Qed.

(** [shuffleArray] returns a new array, a rearrangement of its argument,
    and touches no other array. *)
Lemma shuffleArray_spec (array : ref) σ xs :
  arrays σ !! array = Some xs →
  valid_draws σ →
  ∃ σ' xs',
    QuestionService.shuffleArray array σ = (length (arrays σ), σ')
    ∧ arrays σ' = (arrays σ ++ [xs'])%list
    ∧ xs' ≡ₚ xs
    ∧ draws σ' = draws σ.
Proof.
  intros Hxs Hvalid. unfold QuestionService.shuffleArray.
  rewrite !bind_run. simpl. rewrite Hxs. simpl.
  set (σ1 := {| arrays := arrays σ ++ [xs]; draws := draws σ;
                calls := calls σ |}).
  destruct (shuffle_loop (length (arrays σ)) (length xs - 1) σ1 xs)
    as (σ' & xs' & Hrun & Harrays & Hperm & Hdraws).
  - simpl. by rewrite list_lookup_middle.
  - done.
  - done.
  - rewrite Hrun. simpl. exists σ', xs'. split; [done|].
    split; [|done]. rewrite Harrays. simpl.
    rewrite insert_app_r_alt, Nat.sub_diag by lia. done.
Qed.

Lemma bind_run_eq {A B} (m : M A) (f : A → M B) σ a σ' :
  m σ = (a, σ') → (m ≫= f) σ = f a σ'.
Proof. intros Hm. by rewrite bind_run, Hm. Qed.

(** One step of a run: the first action of a sequence is replaced by its
    result, which [tac] establishes. *)
Ltac run_step tac := erewrite bind_run_eq; [|tac].

Lemma filter_array_run (P : Question → Prop) `{!∀ q, Decision (P q)}
    (a : ref) σ xs :
  arrays σ !! a = Some xs →
  filter_array P a σ
  = (length (arrays σ),
     {| arrays := arrays σ ++ [filter P xs]; draws := draws σ;
        calls := calls σ |}).
Proof.
  intros Ha. unfold filter_array. rewrite bind_run. unfold read, alloc.
  simpl. by rewrite Ha.
Qed.

Lemma slice0_run (a : ref) n σ xs :
  arrays σ !! a = Some xs →
  slice0 a n σ
  = (length (arrays σ),
     {| arrays := arrays σ ++ [take n xs]; draws := draws σ;
        calls := calls σ |}).
Proof.
  intros Ha. unfold slice0. rewrite bind_run. unfold read, alloc.
  simpl. by rewrite Ha.
Qed.

Lemma push_all_run (a b : ref) σ xs ys :
  arrays σ !! a = Some xs → arrays σ !! b = Some ys →
  push_all a b σ
  = (tt, {| arrays := <[a := (xs ++ ys)%list]> (arrays σ); draws := draws σ;
            calls := calls σ |}).
Proof.
  intros Ha Hb. unfold push_all. rewrite !bind_run. unfold read, write.
  simpl. by rewrite Ha, Hb.
Qed.

(** The array that [getQuestionsByLevel] returns holds what the method
    returns as a function of the bank, and is a new one. *)
Lemma getQuestionsByLevel_array_run (this_questions : ref) this lvl σ :
  arrays σ !! this_questions = Some (QuestionService.questions this) →
  QuestionService.getQuestionsByLevel_array this_questions lvl σ
  = (length (arrays σ),
     {| arrays := arrays σ ++ [QuestionService.getQuestionsByLevel this lvl];
        draws := draws σ; calls := calls σ |}).
Proof.
  intros Hbank. unfold QuestionService.getQuestionsByLevel_array.
  by rewrite (filter_array_run _ _ _ _ Hbank).
Qed.

(** One pass of the selection loop appends to [selectedQuestions] what it
    draws from the pool of the level, creates arrays of its own, and
    touches no other array. *)
Lemma selectLevel_spec (this_questions selectedQuestions : ref) lvl count
    σ bank acc :
  arrays σ !! this_questions = Some bank →
  arrays σ !! selectedQuestions = Some acc →
  valid_draws σ →
  ∃ σ' chosen ext,
    QuestionService.selectLevel this_questions selectedQuestions lvl count σ
    = (tt, σ')
    ∧ arrays σ'
      = (<[selectedQuestions := (acc ++ chosen)%list]> (arrays σ) ++ ext)%list
    ∧ drawn_from bank (lvl, count) chosen
    ∧ draws σ' = draws σ.
Proof.
  intros Hbank Hacc Hvalid.
  assert (selectedQuestions < length (arrays σ))%nat as Hlt
    by (by eapply lookup_lt_Some).
  unfold QuestionService.selectLevel,
    QuestionService.getQuestionsByLevel_array.
  set (pool := filter (λ q, Question.level q = lvl) bank).
  run_step ltac:(by apply filter_array_run).
  set (σ1 := {| arrays := arrays σ ++ [pool]; draws := draws σ;
                calls := calls σ |}).
  destruct (shuffleArray_spec (length (arrays σ)) σ1 pool)
    as (σ2 & shuffled & Hshuffle & Harrays2 & Hperm & Hdraws2).
  { simpl. by rewrite list_lookup_middle. }
  { done. }
  run_step ltac:(exact Hshuffle).
  run_step ltac:(apply (slice0_run _ _ _ shuffled); rewrite Harrays2;
                 by rewrite list_lookup_middle).
  erewrite (push_all_run _ _ _ acc (take count shuffled)).
  2:{ simpl. rewrite Harrays2. simpl.
      rewrite !lookup_app_l by (rewrite ?length_app; simpl; lia). done. }
  2:{ simpl. by rewrite list_lookup_middle. }
  eexists _, (take count shuffled), [pool; shuffled; take count shuffled].
  split; [reflexivity|]. cbn [arrays draws].
  split; [|split; [by exists shuffled | by rewrite Hdraws2]].
  rewrite Harrays2. simpl. rewrite <- !(assoc_L (++)). simpl.
  by rewrite insert_app_l.
Qed.

(** The loop over the levels appends what each pass draws. *)
Lemma selectLoop_spec {A} (entry_of : A → string * nat)
    (this_questions selectedQuestions : ref) bank (body : A → M unit) items :
  (∀ x σ, body x σ
          = QuestionService.selectLevel this_questions selectedQuestions
              (entry_of x).1 (entry_of x).2 σ) →
  selectedQuestions ≠ this_questions →
  ∀ σ acc,
    arrays σ !! this_questions = Some bank →
    arrays σ !! selectedQuestions = Some acc →
    valid_draws σ →
    ∃ σ' chosen ext,
      for_of items body σ = (tt, σ')
      ∧ arrays σ'
        = (<[selectedQuestions := (acc ++ concat chosen)%list]> (arrays σ)
           ++ ext)%list
      ∧ Forall2 (drawn_from bank) (entry_of <$> items) chosen
      ∧ draws σ' = draws σ.
Proof.
  intros Hbody Hne. induction items as [|x items IH];
    intros σ acc Hbank Hacc Hvalid.
  - exists σ, [], []. simpl. split; [done|].
    rewrite !app_nil_r, list_insert_id by done. by repeat split.
  - rewrite for_of_cons, Hbody.
    destruct (selectLevel_spec this_questions selectedQuestions
                (entry_of x).1 (entry_of x).2 σ bank acc Hbank Hacc Hvalid)
      as (σ1 & c & ext1 & Hrun & Harrays1 & Hdrawn & Hdraws1).
    rewrite Hrun. cbn [snd].
    assert (selectedQuestions < length (arrays σ))%nat as Hlt
      by (by eapply lookup_lt_Some).
    assert (this_questions < length (arrays σ))%nat as Hlt'
      by (by eapply lookup_lt_Some).
    destruct (IH σ1 (acc ++ c)%list)
      as (σ' & chosen & ext & Hloop & Harrays & Hall & Hdraws).
    + rewrite Harrays1, lookup_app_l by (rewrite length_insert; lia).
      by rewrite list_lookup_insert_ne.
    + rewrite Harrays1, lookup_app_l by (rewrite length_insert; lia).
      by rewrite list_lookup_insert_eq.
    + intros n. rewrite Hdraws1. apply Hvalid.
    + exists σ', (c :: chosen), (ext1 ++ ext)%list.
      split; [done|]. split; [|split].
      * rewrite Harrays, Harrays1. simpl.
        rewrite insert_app_l by (rewrite length_insert; lia).
        rewrite list_insert_insert_eq.
        by rewrite <- !(assoc_L (++)).
      * rewrite fmap_cons. constructor; [|done]. by destruct (entry_of x).
      * by rewrite Hdraws, Hdraws1.
Qed.

(** [selectQuestionsForTest] returns a new array, a rearrangement of what
    the passes over [selection_entries] have drawn, and leaves every array
    that existed before the call as it was. *)
Lemma selectQuestionsForTest_spec (this_questions : ref) config σ bank :
  arrays σ !! this_questions = Some bank →
  valid_draws σ →
  ∃ r σ' chosen result,
    QuestionService.selectQuestionsForTest this_questions config σ = (r, σ')
    ∧ arrays σ' !! r = Some result
    ∧ result ≡ₚ concat chosen
    ∧ Forall2 (drawn_from bank) (selection_entries config) chosen
    ∧ (∀ r' xs, arrays σ !! r' = Some xs → arrays σ' !! r' = Some xs)
    ∧ draws σ' = draws σ.
Proof.
  intros Hbank Hvalid.
  assert (this_questions < length (arrays σ))%nat as Hlt
    by (by eapply lookup_lt_Some).
  unfold QuestionService.selectQuestionsForTest.
  run_step ltac:(reflexivity).
  set (sel := length (arrays σ)).
  set (σ0 := {| arrays := arrays σ ++ [[]]; draws := draws σ;
                calls := calls σ |}).
  assert (∃ σ1 chosen ext,
            (match QuestionService.questionsPerLevel config with
             | Some entries =>
                 for_of entries (λ '(lvl, count),
                   QuestionService.selectLevel this_questions sel lvl count)
             | None =>
                 for_of ["A1"; "A2"; "B1"; "B2"] (λ lvl,
                   QuestionService.selectLevel this_questions sel lvl
                     (default 20 (QuestionService.totalQuestions config)
                      `div` length ["A1"; "A2"; "B1"; "B2"])%nat)
             end) σ0 = (tt, σ1)
            ∧ arrays σ1
              = (<[sel := concat chosen]> (arrays σ0) ++ ext)%list
            ∧ Forall2 (drawn_from bank) (selection_entries config) chosen
            ∧ draws σ1 = draws σ)
    as (σ1 & chosen & ext & Hloop & Harrays1 & Hall & Hdraws1).
  { unfold selection_entries.
    destruct (QuestionService.questionsPerLevel config) as [entries|].
    - destruct (selectLoop_spec (λ e : string * nat, e) this_questions sel
                  bank
                  (λ '(lvl, count),
                     QuestionService.selectLevel this_questions sel lvl count)
                  entries) with (σ := σ0) (acc := @nil Question)
        as (σ1 & chosen & ext & Hloop & Harrays1 & Hall & Hdraws1).
      + by intros [lvl count] σ'.
      + unfold sel. lia.
      + simpl. by rewrite lookup_app_l.
      + simpl. by rewrite list_lookup_middle.
      + done.
      + exists σ1, chosen, ext. rewrite list_fmap_id in Hall. done.
    - destruct (selectLoop_spec
                  (λ lvl, (lvl, (default 20
                                   (QuestionService.totalQuestions config)
                                 `div` 4)%nat))
                  this_questions sel bank
                  (λ lvl,
                     QuestionService.selectLevel this_questions sel lvl
                       (default 20 (QuestionService.totalQuestions config)
                        `div` length ["A1"; "A2"; "B1"; "B2"])%nat)
                  ["A1"; "A2"; "B1"; "B2"]) with (σ := σ0) (acc := @nil Question)
        as (σ1 & chosen & ext & Hloop & Harrays1 & Hall & Hdraws1).
      + done.
      + unfold sel. lia.
      + simpl. by rewrite lookup_app_l.
      + simpl. by rewrite list_lookup_middle.
      + done.
      + by exists σ1, chosen, ext. }
  run_step ltac:(exact Hloop).
  destruct (shuffleArray_spec sel σ1 (concat chosen))
    as (σ' & result & Hshuffle & Harrays & Hperm & Hdraws).
  { rewrite Harrays1. simpl.
    rewrite lookup_app_l
      by (rewrite length_insert, length_app; unfold sel; simpl; lia).
    apply list_lookup_insert_eq. rewrite length_app. unfold sel. simpl. lia. }
  { intros n. rewrite Hdraws1. apply Hvalid. }
  rewrite Hshuffle. exists (length (arrays σ1)), σ', chosen, result.
  split; [done|]. split; [by rewrite Harrays, list_lookup_middle|].
  split; [done|]. split; [done|]. split; [|by rewrite Hdraws, Hdraws1].
  intros r' xs Hr'.
  assert (r' < length (arrays σ))%nat as Hlt' by (by eapply lookup_lt_Some).
  rewrite Harrays, Harrays1. simpl.
  rewrite !lookup_app_l
    by (rewrite ?length_app, ?length_insert, ?length_app; simpl; lia).
  rewrite list_lookup_insert_ne by (unfold sel; lia).
  by rewrite lookup_app_l.
Qed.

End SelectionProofs.

(** What is drawn for a level is a part of the pool of that level. *)
Lemma drawn_from_pool bank lvl count chosen :
  drawn_from bank (lvl, count) chosen →
  chosen ⊆+ of_level lvl bank
  ∧ (∀ q, q ∈ chosen → Question.level q = lvl)
  ∧ ((count ≤ length (of_level lvl bank))%nat → length chosen = count).
Proof.
  intros (shuffled & Hperm & ->). simpl in *.
  assert (take count shuffled ⊆+ of_level lvl bank) as Hsub.
  { rewrite <- Hperm. apply submseteq_take. }
  split; [done|]. split.
  - intros q Hq. eapply elem_of_submseteq in Hq; [|exact Hsub].
    unfold of_level in Hq. by apply list_elem_of_filter in Hq as [? _].
  - intros Hcount. apply length_take_le. by rewrite Hperm.
Qed.

(** The pools of distinct levels share no entry of the bank. *)
Lemma pools_submseteq lvls : ∀ bank,
  NoDup lvls →
  concat ((λ lvl, of_level lvl bank) <$> lvls) ⊆+ bank.
Proof.
  induction lvls as [|lvl lvls IH]; intros bank Hnodup; simpl.
  - apply submseteq_nil_l.
  - apply NoDup_cons in Hnodup as [Hnotin Hnodup].
    set (others := filter (λ q, ¬ Question.level q = lvl) bank).
    transitivity (of_level lvl bank ++ others)%list;
      [|unfold of_level, others; by rewrite filter_app_complement].
    apply submseteq_skips_l.
    change (concat ((λ l, of_level l bank) <$> lvls) ⊆+ others).
    assert ((λ l, of_level l bank) <$> lvls
            = (λ l, of_level l others) <$> lvls) as ->.
    { apply list_fmap_ext. intros i l Hl. unfold of_level, others.
      rewrite list_filter_filter. apply list_filter_iff.
      intros q. split; [|tauto]. intros Hq. split; [done|].
      intros Hlvl. apply Hnotin. rewrite <- Hlvl, Hq.
      by eapply list_elem_of_lookup_2. }
    by apply IH.
Qed.

Lemma concat_submseteq (ls ks : list (list Question)) :
  Forall2 submseteq ls ks → concat ls ⊆+ concat ks.
Proof.
  induction 1 as [|l k ls ks Hlk _ IH]; simpl; [done|].
  by apply submseteq_app.
Qed.

(** What the passes draw for distinct levels is, taken together, a part
    of the bank: no entry of the bank is drawn twice. *)
Lemma drawn_submseteq bank entries chosen :
  NoDup entries.*1 →
  Forall2 (drawn_from bank) entries chosen →
  concat chosen ⊆+ bank.
Proof.
  intros Hnodup Hall.
  transitivity (concat ((λ lvl, of_level lvl bank) <$> entries.*1));
    [|by apply pools_submseteq].
  apply concat_submseteq. rewrite <- list_fmap_compose.
  apply Forall2_fmap_r.
  eapply Forall2_flip, Forall2_impl; [exact Hall|].
  intros [lvl count] c Hdrawn. simpl.
  by apply drawn_from_pool in Hdrawn as [? _].
Qed.

Lemma of_level_all lvl (l : list Question) :
  (∀ q, q ∈ l → Question.level q = lvl) → of_level lvl l = l.
Proof.
  unfold of_level. induction l as [|q l IH]; intros Hall; [done|].
  rewrite filter_cons_True by (apply Hall; left).
  f_equal. apply IH. intros q' Hq'. apply Hall. by right.
Qed.

Lemma of_level_none lvl lvl' (l : list Question) :
  (∀ q, q ∈ l → Question.level q = lvl') → lvl' ≠ lvl → of_level lvl l = [].
Proof.
  unfold of_level. induction l as [|q l IH]; intros Hall Hne; [done|].
  rewrite filter_cons_False.
  - apply IH; [|done]. intros q' Hq'. apply Hall. by right.
  - rewrite (Hall q) by left. done.
Qed.

Lemma NoDup_ids_submseteq (l k : list Question) :
  l ⊆+ k → NoDup (Question.id <$> k) → NoDup (Question.id <$> l).
Proof.
  intros Hsub Hnodup.
  apply (fmap_submseteq Question.id) in Hsub.
  apply submseteq_Permutation in Hsub as [rest Hrest].
  rewrite Hrest in Hnodup. by apply NoDup_app in Hnodup as [? _].
Qed.

(** C7. From a bank with at least five questions of each of the four
    levels, whatever [Math.random] returns, the selection of twenty
    questions without quotas returns a new array of exactly twenty
    questions, five of each level; they are distinct entries of the
    bank, so no id is repeated when the ids of the bank are distinct;
    and every array that existed before the call, that of the bank among
    them, is as it was. *)
Theorem selectQuestionsForTest_twenty (this_questions : Heap.ref) config σ
    bank :
  Heap.arrays σ !! this_questions = Some bank →
  valid_draws σ →
  QuestionService.questionsPerLevel config = None →
  default 20%nat (QuestionService.totalQuestions config) = 20%nat →
  (∀ lvl, lvl ∈ default_levels → (5 ≤ length (of_level lvl bank))%nat) →
  ∃ r σ' result,
    QuestionService.selectQuestionsForTest this_questions config σ = (r, σ')
    ∧ Heap.arrays σ' !! r = Some result
    ∧ length result = 20%nat
    ∧ (∀ lvl, lvl ∈ default_levels → length (of_level lvl result) = 5%nat)
    ∧ result ⊆+ bank
    ∧ (NoDup (Question.id <$> bank) → NoDup (Question.id <$> result))
    ∧ (∀ r' xs, Heap.arrays σ !! r' = Some xs →
                Heap.arrays σ' !! r' = Some xs).
Proof.
  intros Hbank Hvalid Hquotas Htotal Hfive.
  destruct (selectQuestionsForTest_spec this_questions config σ bank
              Hbank Hvalid)
    as (r & σ' & chosen & result & Hrun & Hresult & Hperm & Hall & Hframe & _).
  exists r, σ', result.
  assert (result ⊆+ bank) as Hsub.
  { rewrite Hperm. eapply drawn_submseteq; [|exact Hall].
    unfold selection_entries. rewrite Hquotas.
    apply (bool_decide_unpack _). by vm_compute. }
  unfold selection_entries in Hall. rewrite Hquotas, Htotal in Hall.
  change ((20 `div` 4)%nat) with 5%nat in Hall.
  unfold default_levels in Hall. simpl in Hall.
  apply Forall2_cons_inv_l in Hall as (c1 & rest1 & H1 & Hall & ->).
  apply Forall2_cons_inv_l in Hall as (c2 & rest2 & H2 & Hall & ->).
  apply Forall2_cons_inv_l in Hall as (c3 & rest3 & H3 & Hall & ->).
  apply Forall2_cons_inv_l in Hall as (c4 & rest4 & H4 & Hall & ->).
  apply Forall2_nil_inv_l in Hall as ->.
  apply drawn_from_pool in H1 as (_ & Hlvl1 & Hlen1).
  apply drawn_from_pool in H2 as (_ & Hlvl2 & Hlen2).
  apply drawn_from_pool in H3 as (_ & Hlvl3 & Hlen3).
  apply drawn_from_pool in H4 as (_ & Hlvl4 & Hlen4).
  specialize (Hlen1 (Hfive "A1" ltac:(unfold default_levels; set_solver))).
  specialize (Hlen2 (Hfive "A2" ltac:(unfold default_levels; set_solver))).
  specialize (Hlen3 (Hfive "B1" ltac:(unfold default_levels; set_solver))).
  specialize (Hlen4 (Hfive "B2" ltac:(unfold default_levels; set_solver))).
  simpl in Hperm. rewrite app_nil_r in Hperm.
  split; [done|]. split; [done|]. split.
  { rewrite Hperm, !length_app. lia. }
  split.
  { intros lvl Hlvl. unfold of_level at 1. rewrite Hperm.
    rewrite !filter_app, !length_app. fold (of_level lvl c1).
    fold (of_level lvl c2). fold (of_level lvl c3). fold (of_level lvl c4).
    unfold default_levels in Hlvl.
    apply elem_of_cons in Hlvl as [->|Hlvl];
      [|apply elem_of_cons in Hlvl as [->|Hlvl];
        [|apply elem_of_cons in Hlvl as [->|Hlvl];
          [|apply list_elem_of_singleton in Hlvl as ->]]].
    - rewrite (of_level_all _ c1), (of_level_none _ _ c2 Hlvl2),
        (of_level_none _ _ c3 Hlvl3), (of_level_none _ _ c4 Hlvl4) by done.
      simpl. lia.
    - rewrite (of_level_none _ _ c1 Hlvl1), (of_level_all _ c2),
        (of_level_none _ _ c3 Hlvl3), (of_level_none _ _ c4 Hlvl4) by done.
      simpl. lia.
    - rewrite (of_level_none _ _ c1 Hlvl1), (of_level_none _ _ c2 Hlvl2),
        (of_level_all _ c3), (of_level_none _ _ c4 Hlvl4) by done.
      simpl. lia.
    - rewrite (of_level_none _ _ c1 Hlvl1), (of_level_none _ _ c2 Hlvl2),
        (of_level_none _ _ c3 Hlvl3), (of_level_all _ c4) by done.
      simpl. lia. }
  split; [done|]. split; [by apply NoDup_ids_submseteq|done].
Qed.

Lemma selectQuestionsForTest_twenty_witness :
  ∃ r σ' result,
    QuestionService.selectQuestionsForTest 0%nat
      {| QuestionService.totalQuestions := Some 20%nat;
         QuestionService.questionsPerLevel := None |} state20 = (r, σ')
    ∧ Heap.arrays σ' !! r = Some result
    ∧ length result = 20%nat
    ∧ (∀ lvl, lvl ∈ default_levels → length (of_level lvl result) = 5%nat)
    ∧ result ⊆+ bank20
    ∧ NoDup (Question.id <$> result)
    ∧ Heap.arrays σ' !! 0%nat = Some bank20.
Proof.
  destruct (selectQuestionsForTest_twenty 0%nat
              {| QuestionService.totalQuestions := Some 20%nat;
                 QuestionService.questionsPerLevel := None |} state20 bank20)
    as (r & σ' & result & Hrun & Hresult & Hlength & Hlevels & Hsub & Hnodup
        & Hframe).
  - reflexivity.
  - intros n. unfold Random.in_unit_interval. simpl. lia.
  - reflexivity.
  - reflexivity.
  - intros lvl Hlvl. unfold default_levels in Hlvl.
    repeat (apply elem_of_cons in Hlvl as [->|Hlvl]);
      [vm_compute; lia..|].
    by apply elem_of_nil in Hlvl.
  - exists r, σ', result.
    split; [exact Hrun|]. split; [exact Hresult|]. split; [exact Hlength|].
    split; [exact Hlevels|]. split; [exact Hsub|]. split.
    + apply Hnodup. apply (bool_decide_unpack _). vm_compute. exact I.
    + apply Hframe. reflexivity.
Defined.

(** C7, the claim as stated fails. Nothing compares the ids of the
    questions: a bank of twenty questions, five of each level, of which
    two have the id 1, passes [validateQuestions]; and the selection of
    twenty questions, which takes every question of this bank, returns
    twenty questions among which the id 1 occurs twice. *)
Lemma selectQuestionsForTest_repeats_id :
  (∀ StringToNumber,
     QuestionService.validateQuestions StringToNumber twin_json = Ok ())
  ∧ Forall (λ lvl, length (of_level lvl twin_bank) = 5%nat) default_levels
  ∧ ∃ r σ' result,
      QuestionService.selectQuestionsForTest 0%nat
        {| QuestionService.totalQuestions := Some 20%nat;
           QuestionService.questionsPerLevel := None |} twin_state
      = (r, σ')
      ∧ Heap.arrays σ' !! r = Some result
      ∧ length result = 20%nat
      ∧ Question.id <$> result
        = [1; 17; 4; 15; 1; 14; 5; 16; 3; 18; 6; 12; 9; 13; 7; 19; 10; 20;
           8; 11]
      ∧ ¬ NoDup (Question.id <$> result).
Proof.
  split; [intros StringToNumber; by vm_compute|].
  split; [repeat constructor|].
  eexists _, _, _.
  split; [vm_compute; reflexivity|].
  split; [reflexivity|].
  split; [reflexivity|].
  split; [reflexivity|].
  intros Hnodup. simpl in Hnodup.
  apply NoDup_cons in Hnodup as [Hnotin _]. apply Hnotin.
  repeat constructor.
Qed.

(** A run of the selection: with [Math.random] returning 1/2 at every
    call, the twenty questions of [bank20] come out in this order. *)
Example selectQuestionsForTest_run :
  let '(r, σ') :=
    QuestionService.selectQuestionsForTest 0%nat
      {| QuestionService.totalQuestions := None;
         QuestionService.questionsPerLevel := None |} state20 in
  Question.id <$> default [] (Heap.arrays σ' !! r)
  = [1; 14; 4; 19; 2; 12; 17; 13; 3; 15; 5; 10; 8; 11; 6; 16; 18; 20; 7; 9]
  ∧ Heap.arrays σ' !! 0%nat = Some bank20.
Proof. by vm_compute. Qed.

Lemma drawn_length bank entries chosen :
  Forall2 (drawn_from bank) entries chosen →
  length (concat chosen)
  = sum_list ((λ e, e.2 `min` length (of_level e.1 bank))%nat <$> entries).
Proof.
  induction 1 as [|[lvl count] c entries chosen Hdrawn _ IH]; [done|].
  simpl. rewrite length_app, IH. f_equal.
  destruct Hdrawn as (shuffled & Hperm & ->). simpl.
  by rewrite length_take, Hperm.
Qed.

Lemma drawn_elem_of bank entries chosen q :
  Forall2 (drawn_from bank) entries chosen →
  q ∈ concat chosen → q ∈ bank.
Proof.
  induction 1 as [|[lvl count] c entries chosen Hdrawn _ IH]; simpl.
  - by intros ?%elem_of_nil.
  - intros [Hq|Hq]%elem_of_app; [|by apply IH].
    apply drawn_from_pool in Hdrawn as [Hsub _].
    eapply elem_of_submseteq in Hq; [|exact Hsub].
    unfold of_level in Hq. by apply list_elem_of_filter in Hq as [_ ?].
Qed.

(** X2. The selection in general, with quotas or without. It returns a new
    array of questions of the bank; each level contributes its count, or
    its whole pool if that is smaller; when no level is listed twice no
    entry of the bank is selected twice; and every array that existed
    before the call is as it was. *)
Theorem selectQuestionsForTest_counts (this_questions : Heap.ref) config σ
    bank :
  Heap.arrays σ !! this_questions = Some bank →
  valid_draws σ →
  ∃ r σ' result,
    QuestionService.selectQuestionsForTest this_questions config σ = (r, σ')
    ∧ Heap.arrays σ' !! r = Some result
    ∧ length result
      = sum_list ((λ e, e.2 `min` length (of_level e.1 bank))%nat
                    <$> selection_entries config)
    ∧ (length result ≤ sum_list ((selection_entries config).*2))%nat
    ∧ (∀ q, q ∈ result → q ∈ bank)
    ∧ (NoDup (selection_entries config).*1 → result ⊆+ bank)
    ∧ (∀ r' xs, Heap.arrays σ !! r' = Some xs →
                Heap.arrays σ' !! r' = Some xs).
Proof.
  intros Hbank Hvalid.
  destruct (selectQuestionsForTest_spec this_questions config σ bank
              Hbank Hvalid)
    as (r & σ' & chosen & result & Hrun & Hresult & Hperm & Hall & Hframe & _).
  exists r, σ', result.
  assert (length result
          = sum_list ((λ e, e.2 `min` length (of_level e.1 bank))%nat
                        <$> selection_entries config)) as Hlength.
  { rewrite Hperm. by apply drawn_length. }
  split; [done|]. split; [done|]. split; [done|]. split.
  { rewrite Hlength. clear.
    induction (selection_entries config) as [|e entries IH]; [done|].
    cbn [fmap list_fmap sum_list_with id] in IH |- *. lia. }
  split.
  { intros q Hq. rewrite Hperm in Hq. by eapply drawn_elem_of. }
  split; [|done].
  intros Hnodup. rewrite Hperm. by eapply drawn_submseteq.
Qed.

Lemma selectQuestionsForTest_counts_witness :
  ∃ r σ' result,
    QuestionService.selectQuestionsForTest 0%nat quota_config state20
    = (r, σ')
    ∧ Heap.arrays σ' !! r = Some result
    ∧ length result = 7%nat
    ∧ result ⊆+ bank20
    ∧ Heap.arrays σ' !! 0%nat = Some bank20.
Proof.
  destruct (selectQuestionsForTest_counts 0%nat quota_config state20 bank20)
    as (r & σ' & result & Hrun & Hresult & Hlength & _ & _ & Hsub & Hframe).
  - reflexivity.
  - intros n. unfold Random.in_unit_interval. simpl. lia.
  - exists r, σ', result.
    split; [exact Hrun|]. split; [exact Hresult|]. split; [exact Hlength|].
    split.
    + apply Hsub. apply (bool_decide_unpack _). vm_compute. exact I.
    + apply Hframe. reflexivity.
Defined.

(** ** Sessions that are absent or replaced *)

(** X3. An answer that finds no session, the session having expired or been
    cleared, is answered with the notice of expiry and creates nothing. *)
Theorem handleAnswer_without_session handlers now userId questionId selected
    (sessions : gmap Z Session.t) :
  sessions !! userId = None →
  CallbackHandlers.handleAnswer handlers now userId questionId selected
    sessions
  = ([CallbackHandlers.SessionExpired], sessions).
Proof.
  intros Hnone.
  unfold CallbackHandlers.handleAnswer, CallbackHandlers.handleAnswer_record,
    SessionService.getSession.
  by rewrite Hnone.
Qed.

Lemma handleAnswer_without_session_witness :
  CallbackHandlers.handleAnswer scenario_handlers "2024-05-01T10:45:00.000Z"
    42 (Js.Int 1) (Js.Int 0) (delete 42 scenario_started)
  = ([CallbackHandlers.SessionExpired], delete 42 scenario_started).
Proof.
  apply (handleAnswer_without_session scenario_handlers
           "2024-05-01T10:45:00.000Z" 42 (Js.Int 1) (Js.Int 0)
           (delete 42 scenario_started)).
  apply lookup_delete_eq.
Defined.

(** X4. [createSession] replaces whatever session the user had by a new one
    in the state [ready], with no answers, no questions and score 0;
    [clearSession] removes the session; [resetSession] is the one after
    the other; the sessions of the other users are left alone. *)
Theorem createSession_overwrites now userId username
    (sessions : gmap Z Session.t) :
  let created := SessionService.createSession now userId username sessions in
  SessionService.getSession userId created.2 = Some created.1
  ∧ Session.state created.1 = Session.ready
  ∧ Session.answers created.1 = []
  ∧ Session.questions created.1 = []
  ∧ Session.currentQuestion created.1 = 0%nat
  ∧ Session.score created.1 = 0
  ∧ SessionService.getSession userId
      (SessionService.clearSession userId sessions).2 = None
  ∧ SessionService.resetSession now userId username sessions = created
  ∧ ∀ other, other ≠ userId →
      SessionService.getSession other created.2
      = SessionService.getSession other sessions
      ∧ SessionService.getSession other
          (SessionService.clearSession userId sessions).2
        = SessionService.getSession other sessions.
Proof.
  cbv zeta.
  unfold SessionService.resetSession, SessionService.createSession,
    SessionService.clearSession, SessionService.getSession. simpl.
  rewrite lookup_insert_eq, lookup_delete_eq.
  do 7 (split; [done|]). split.
  - by rewrite insert_delete_eq.
  - intros other Hne. by rewrite lookup_insert_ne, lookup_delete_ne.
Qed.

Lemma count_lookup key c stats k :
  AssessmentService.count key c stats !! k
  = if decide (k = key)
    then (λ st, {| AssessmentService.correct :=
                     if c then S (AssessmentService.correct st)
                     else AssessmentService.correct st;
                   AssessmentService.total := S (AssessmentService.total st) |})
           <$> stats !! k
    else stats !! k.
Proof.
  unfold AssessmentService.count.
  destruct (decide (k = key)) as [->|Hne].
  - destruct (stats !! key) as [st|] eqn:Hst.
    + by rewrite lookup_insert_eq.
    + by rewrite Hst.
  - destruct (stats !! key) as [st|] eqn:Hst; [|done].
    by rewrite lookup_insert_ne.
Qed.

Lemma tally_breakdown config questions answers acc k :
  let acc' :=
    foldl (AssessmentService.tallyAnswer config questions) acc answers in
  let matched := matchedAnswers questions answers in
  let add key_of (st : AssessmentService.Stats) :=
    {| AssessmentService.correct :=
         (AssessmentService.correct st
          + AssessmentService.correct (breakdown key_of k matched))%nat;
       AssessmentService.total :=
         (AssessmentService.total st
          + AssessmentService.total (breakdown key_of k matched))%nat |} in
  AssessmentService.tally_categoryStats acc' !! k
  = add Question.category <$> AssessmentService.tally_categoryStats acc !! k
  ∧ AssessmentService.tally_levelStats acc' !! k
    = add Question.level <$> AssessmentService.tally_levelStats acc !! k.
Proof.
  cbv zeta. revert acc.
  induction answers as [|a answers IH]; intros acc.
  - simpl. split.
    + destruct (_ !! k) as [[]|]; simpl; [|done]. f_equal. f_equal; lia.
    + destruct (_ !! k) as [[]|]; simpl; [|done]. f_equal. f_equal; lia.
  - simpl. destruct (IH (AssessmentService.tallyAnswer config questions acc a))
      as [Hcat Hlvl]. rewrite Hcat, Hlvl. clear IH Hcat Hlvl.
    unfold AssessmentService.tallyAnswer, matchedAnswers. simpl.
    destruct (List.find _ questions) as [q|]; simpl; [|done].
    rewrite !count_lookup. unfold breakdown. simpl.
    rewrite !filter_cons. simpl.
    destruct (AnswerRecord.isCorrect a);
      (split;
       [destruct (AssessmentService.tally_categoryStats acc !! k) as [[c t]|]
       |destruct (AssessmentService.tally_levelStats acc !! k) as [[c t]|]];
       repeat case_decide; simpl; try done; try (exfalso; tauto);
       f_equal; f_equal; simpl; lia).
Qed.

(** A list splits into the parts that a key function sends to each of
    a list of distinct keys. *)
Lemma filter_keys_cons {A} (key_of : A → string) k ks (l : list A) :
  k ∉ ks →
  length (filter (λ m, key_of m ∈ k :: ks) l)
  = (length (filter (λ m, key_of m = k) l)
     + length (filter (λ m, key_of m ∈ ks) l))%nat.
Proof.
  intros Hk. induction l as [|x l IH]; [done|].
  rewrite !filter_cons.
  repeat case_decide; simpl; rewrite ?IH; try lia;
    exfalso; rewrite elem_of_cons in *; subst; tauto.
Qed.

Lemma filter_keys_sum {A} (key_of : A → string) keys (l : list A) :
  NoDup keys →
  sum_list ((λ k, length (filter (λ m, key_of m = k) l)) <$> keys)
  = length (filter (λ m, key_of m ∈ keys) l).
Proof.
  induction 1 as [|k ks Hk Hks IH].
  - induction l as [|x l IHl]; [done|].
    rewrite filter_cons. case_decide as Hin; [|done].
    by apply elem_of_nil in Hin.
  - rewrite filter_keys_cons, <- IH by done. done.
Qed.

Lemma validLevels_NoDup : NoDup QuestionService.validLevels.
Proof. apply (bool_decide_unpack _). by vm_compute. Qed.

Lemma validCategories_NoDup : NoDup QuestionService.validCategories.
Proof. apply (bool_decide_unpack _). by vm_compute. Qed.

Lemma matchedAnswers_length questions answers :
  (length (matchedAnswers questions answers) ≤ length answers)%nat.
Proof.
  unfold matchedAnswers. induction answers as [|a answers IH]; simpl; [done|].
  destruct (List.find _ questions); simpl;
    [apply le_n_S | apply Nat.le_le_succ_r]; exact IH.
Qed.

(** X5. The two breakdowns of an assessment. For each of the four levels
    [levelStats] holds the number of answers whose question, the first
    of [questions] with the id of the answer, is of that level, and the
    number of those answers that are flagged correct; it has no other
    key. [categoryStats] does the same for the two categories. An
    answer that matches no question, or whose question is of no listed
    level, is counted in [totalQuestions] only: every entry has
    [correct ≤ total ≤ totalQuestions], and the totals of the four
    levels add up to the number of matched answers whose question has
    one of the four levels. *)
Theorem calculateAssessment_breakdown config now session questions :
  let a :=
    AssessmentService.calculateAssessment config now session questions in
  let matched := matchedAnswers questions (Session.answers session) in
  (∀ lvl, AssessmentService.levelStats a !! lvl
          = if decide (lvl ∈ QuestionService.validLevels)
            then Some (breakdown Question.level lvl matched) else None)
  ∧ (∀ cat, AssessmentService.categoryStats a !! cat
            = if decide (cat ∈ QuestionService.validCategories)
              then Some (breakdown Question.category cat matched) else None)
  ∧ (∀ key st,
       AssessmentService.levelStats a !! key = Some st
       ∨ AssessmentService.categoryStats a !! key = Some st →
       (AssessmentService.correct st ≤ AssessmentService.total st
        ≤ AssessmentService.totalQuestions a)%nat)
  ∧ sum_list ((λ lvl, AssessmentService.total
                        (breakdown Question.level lvl matched))
                <$> QuestionService.validLevels)
    = length (filter (λ m, Question.level m.1 ∈ QuestionService.validLevels)
                matched)
  ∧ sum_list ((λ cat, AssessmentService.total
                        (breakdown Question.category cat matched))
                <$> QuestionService.validCategories)
    = length (filter (λ m, Question.category m.1
                           ∈ QuestionService.validCategories) matched)
  ∧ (length matched ≤ AssessmentService.totalQuestions a)%nat
  ∧ (AssessmentService.correctAnswers a
     ≤ AssessmentService.totalQuestions a)%nat.
Proof.
  cbv zeta.
  assert (∀ key_of key,
            (AssessmentService.correct
               (breakdown key_of key
                  (matchedAnswers questions (Session.answers session)))
             ≤ AssessmentService.total
                 (breakdown key_of key
                    (matchedAnswers questions (Session.answers session)))
             ≤ length (Session.answers session))%nat) as Hle.
  { intros key_of key. unfold breakdown. simpl. split.
    - induction (matchedAnswers questions (Session.answers session))
        as [|m l IH]; [done|].
      rewrite !filter_cons. repeat case_decide; simpl; try lia; tauto.
    - etrans; [apply length_filter|]. apply matchedAnswers_length. }
  assert (∀ lvl, AssessmentService.levelStats
                   (AssessmentService.calculateAssessment config now session
                      questions) !! lvl
          = if decide (lvl ∈ QuestionService.validLevels)
            then Some (breakdown Question.level lvl
                         (matchedAnswers questions (Session.answers session)))
            else None) as Hlvl.
  { intros lvl. unfold AssessmentService.calculateAssessment. simpl.
    destruct (tally_breakdown config questions (Session.answers session)
                AssessmentService.emptyTally lvl) as [_ ->].
    unfold AssessmentService.emptyTally, QuestionService.validLevels. simpl.
    case_decide as Hin.
    - repeat (apply elem_of_cons in Hin as [->|Hin]); [..|by apply elem_of_nil in Hin];
        by vm_compute.
    - rewrite !lookup_insert_ne, lookup_singleton_ne;
        [done|intros <-; apply Hin; repeat constructor..]. }
  assert (∀ cat, AssessmentService.categoryStats
                   (AssessmentService.calculateAssessment config now session
                      questions) !! cat
          = if decide (cat ∈ QuestionService.validCategories)
            then Some (breakdown Question.category cat
                         (matchedAnswers questions (Session.answers session)))
            else None) as Hcat.
  { intros cat. unfold AssessmentService.calculateAssessment. simpl.
    destruct (tally_breakdown config questions (Session.answers session)
                AssessmentService.emptyTally cat) as [-> _].
    unfold AssessmentService.emptyTally, QuestionService.validCategories.
    simpl. case_decide as Hin.
    - repeat (apply elem_of_cons in Hin as [->|Hin]); [..|by apply elem_of_nil in Hin];
        by vm_compute.
    - rewrite !lookup_insert_ne, lookup_singleton_ne;
        [done|intros <-; apply Hin; repeat constructor..]. }
  split; [exact Hlvl|]. split; [exact Hcat|]. split.
  { intros key st [Hst|Hst].
    - rewrite Hlvl in Hst. case_decide; [|done].
      injection Hst as <-. apply Hle.
    - rewrite Hcat in Hst. case_decide; [|done].
      injection Hst as <-. apply Hle. }
  split.
  { apply (filter_keys_sum (λ m : Question * bool, Question.level m.1)),
      validLevels_NoDup. }
  split.
  { apply (filter_keys_sum (λ m : Question * bool, Question.category m.1)),
      validCategories_NoDup. }
  split; [apply matchedAnswers_length|].
  simpl. apply length_filter.
Qed.

Lemma count_comm k1 c1 k2 c2 stats :
  AssessmentService.count k1 c1 (AssessmentService.count k2 c2 stats)
  = AssessmentService.count k2 c2 (AssessmentService.count k1 c1 stats).
Proof.
  apply map_eq. intros k. rewrite !count_lookup.
  repeat case_decide; destruct (stats !! k) as [[c t]|]; simpl; try done.
  by destruct c1, c2.
Qed.

Lemma tallyAnswer_comm config questions acc a b :
  AssessmentService.tallyAnswer config questions
    (AssessmentService.tallyAnswer config questions acc a) b
  = AssessmentService.tallyAnswer config questions
      (AssessmentService.tallyAnswer config questions acc b) a.
Proof.
  unfold AssessmentService.tallyAnswer.
  destruct (List.find _ questions) as [qa|];
    destruct (List.find _ questions) as [qb|]; simpl; try done.
  f_equal.
  - lia.
  - destruct (AnswerRecord.isCorrect a), (AnswerRecord.isCorrect b); lia.
  - apply count_comm.
  - apply count_comm.
Qed.

Lemma foldl_tally_permutation config questions answers answers' :
  answers ≡ₚ answers' →
  ∀ acc, foldl (AssessmentService.tallyAnswer config questions) acc answers
         = foldl (AssessmentService.tallyAnswer config questions) acc answers'.
Proof.
  induction 1 as [|a l l' _ IH|a b l|l1 l2 l3 _ IH1 _ IH2]; intros acc; simpl.
  - done.
  - apply IH.
  - by rewrite tallyAnswer_comm.
  - by rewrite IH1.
Qed.



(** X7. [determineLevel] is monotone for every configuration of the
    thresholds, ordered or not: a higher percentage never gets a lower
    level. It always returns one of the four levels; a percentage at most
    [A1.max] gets A1, one above the three thresholds gets B2, and so do
    [NaN] and +Infinity, which no threshold bounds. *)
Theorem determineLevel_monotone config p q :
  p ≤ q →
  (levelRank (AssessmentService.determineLevel config (Js.Int p))
   ≤ levelRank (AssessmentService.determineLevel config (Js.Int q)))%nat
  ∧ (∀ x, AssessmentService.determineLevel config x
          ∈ QuestionService.validLevels)
  ∧ AssessmentService.determineLevel config Js.NaN = "B2"
  ∧ AssessmentService.determineLevel config (Js.Inf false) = "B2"
  ∧ AssessmentService.determineLevel config (Js.Inf true) = "A1".
Proof.
  intros Hpq. unfold AssessmentService.determineLevel, Js.le.
  split; [|split; [|done]].
  - repeat case_bool_decide; simpl; vm_compute; try done; lia.
  - intros x. unfold QuestionService.validLevels.
    destruct x as [|[]|z]; repeat case_bool_decide; repeat constructor.
Qed.

Lemma determineLevel_monotone_witness :
  (levelRank (AssessmentService.determineLevel
                AssessmentService.getDefaultConfig (Js.Int 50))
   ≤ levelRank (AssessmentService.determineLevel
                  AssessmentService.getDefaultConfig (Js.Int 51)))%nat.
Proof. apply (determineLevel_monotone _ 50 51). lia. Defined.

Lemma find_elem_of {A} (P : A → bool) (l : list A) x :
  List.find P l = Some x → x ∈ l ∧ P x = true.
Proof.
  intros H. apply find_some in H as [Hin HP]. split; [|done].
  by apply list_elem_of_In.
Qed.

Lemma answerWeights_nonneg config questions answers :
  (∀ q, q ∈ questions → 0 ≤ resolvedWeight config q) →
  0 ≤ sumZ (answerWeights config questions
              (filter (λ a, AnswerRecord.isCorrect a = true) answers))
    ≤ sumZ (answerWeights config questions answers).
Proof.
  intros Hw. unfold answerWeights, sumZ.
  induction answers as [|a answers IH]; [simpl; lia|].
  rewrite filter_cons.
  assert (∀ q, List.find (λ q, Js.strict_eq (Question.id q)
                                 (AnswerRecord.questionId a)) questions
               = Some q → 0 ≤ resolvedWeight config q) as Hq.
  { intros q Hfind. apply Hw. by apply find_elem_of in Hfind as [? _]. }
  unfold omap in *.
  case_decide; simpl;
    destruct (List.find _ questions) as [q|]; simpl;
    try specialize (Hq q eq_refl); lia.
Qed.

(** X8. When no question resolves to a negative weight, the questions
    having levels and categories of the lists of the validation, the
    earned weight lies between 0 and the total weight, whatever the
    answers. The
    weight of a question is not validated, and a negative one breaks the
    bound: a correct answer of weight 3 and a wrong one of weight -2 earn
    3 of a total of 1, which is reported as 300 per cent and level B2. *)
Theorem calculateAssessment_weight_bounds config now session questions :
  validated questions →
  (∀ q, q ∈ questions → 0 ≤ resolvedWeight config q) →
  let a :=
    AssessmentService.calculateAssessment config now session questions in
  0 ≤ AssessmentService.earnedWeight a ≤ AssessmentService.totalWeight a
  ∧ (let weighted w qid :=
       {| Question.id := qid; Question.text := "q";
          Question.options := ["a"; "b"; "c"; "d"]; Question.correct := 0;
          Question.level := "A1"; Question.category := "grammar";
          Question.weight := Some w |} in
     let qs := [weighted 3 1; weighted (-2) 2] in
     let s :=
       AssessmentService.calculateAssessment AssessmentService.getDefaultConfig
         now (session_on qs [answered 1 0 true; answered 2 1 false] 3) qs in
     AssessmentService.earnedWeight s = 3
     ∧ AssessmentService.totalWeight s = 1
     ∧ AssessmentService.percentageScore s = Js.Int 300
     ∧ AssessmentService.level s = "B2").
Proof.
  intros _ Hw. cbv zeta. split; [|by vm_compute].
  destruct (tally_weights config questions (Session.answers session)
              AssessmentService.emptyTally) as [Htotal Hearned].
  simpl in Htotal, Hearned |- *. rewrite Htotal, Hearned.
  by apply answerWeights_nonneg.
Qed.

Lemma calculateAssessment_weight_bounds_witness :
  let a :=
    AssessmentService.calculateAssessment AssessmentService.getDefaultConfig
      "2024-05-01T10:09:00.000Z" scenario_session scenario_questions in
  0 ≤ AssessmentService.earnedWeight a ≤ AssessmentService.totalWeight a.
Proof.
  apply calculateAssessment_weight_bounds;
    [exact scenario_questions_validated|].
  intros q Hq. unfold scenario_questions in Hq.
  repeat (apply elem_of_cons in Hq as [->|Hq]); [..|by apply elem_of_nil in Hq];
    by vm_compute.
Defined.

Lemma progress_cells_ok_100 :
  forallb progress_cells_ok (seqZ 0 101) = true.
Proof. vm_compute. reflexivity. Qed.

(** X9. The progress bar of question [current] of [total], for a test of
    at most 200 questions: no exception is thrown, the percentage shown
    is an integer of 0..100 nearest to the exact one, the number of full
    cells is a tenth of it rounded half up, and the full and the empty
    cells are ten together. The bar of the last question is full and
    shows 100. *)
Theorem generateProgressBar_ten_cells current total :
  0 ≤ current ≤ total → 0 < total ≤ 200 →
  ∃ p bar,
    AssessmentService.generateProgressBar current total = Ok bar
    ∧ AssessmentService.shown bar = Js.Int p
    ∧ 0 ≤ p ≤ 100
    ∧ nearest_integer p (100 * current) total
    ∧ Z.of_nat (AssessmentService.filled bar) = round_half_up p 10
    ∧ (AssessmentService.filled bar + AssessmentService.empty bar = 10)%nat
    ∧ (current = total → p = 100 ∧ AssessmentService.filled bar = 10%nat).
Proof.
  intros Hcurrent Htotal.
  destruct (round_percent_nearest current total Hcurrent Htotal)
    as (p & Hp & Hnear & _).
  assert (0 ≤ p ≤ 100) as Hrange.
  { unfold nearest_integer in Hnear. nia. }
  pose proof progress_cells_ok_100 as Hall.
  rewrite forallb_forall in Hall.
  assert (progress_cells_ok p = true) as Hok.
  { apply Hall, list_elem_of_In, elem_of_seqZ. lia. }
  unfold progress_cells_ok in Hok.
  unfold AssessmentService.generateProgressBar. rewrite Hp.
  destruct (repeat_count (Js.round_div (Js.Int p) 10)) as [f|]; [|done].
  destruct (repeat_count (Js.minus 10 (Js.round_div (Js.Int p) 10)))
    as [e|]; [|done].
  apply andb_prop in Hok as [Hf He].
  apply bool_decide_eq_true in Hf, He.
  exists p, {| AssessmentService.filled := f; AssessmentService.empty := e;
               AssessmentService.shown := Js.Int p |}.
  simpl. do 6 (split; [done|]).
  intros ->.
  assert (p = 100) as -> by (unfold nearest_integer in Hnear; nia).
  split; [done|]. change (round_half_up 100 10) with 10 in Hf. lia.
Qed.

Lemma generateProgressBar_ten_cells_witness :
  ∃ p bar,
    AssessmentService.generateProgressBar 7 20 = Ok bar
    ∧ AssessmentService.shown bar = Js.Int p
    ∧ 0 ≤ p ≤ 100
    ∧ nearest_integer p (100 * 7) 20
    ∧ Z.of_nat (AssessmentService.filled bar) = round_half_up p 10
    ∧ (AssessmentService.filled bar + AssessmentService.empty bar = 10)%nat
    ∧ (7 = 20 → p = 100 ∧ AssessmentService.filled bar = 10%nat).
Proof. apply generateProgressBar_ten_cells; lia. Defined.

Lemma default_lookup_total {A} (m : gmap string A) k v d :
  m !! k = Some v → default d (m !! k) = v.
Proof. by intros ->. Qed.

Lemma length_filter_all {A} (P : A → Prop) `{!∀ x, Decision (P x)} l :
  (∀ x, x ∈ l → P x) → length (filter P l) = length l.
Proof.
  intros HP. induction l as [|x l IH]; [done|].
  rewrite filter_cons, decide_True by (apply HP; constructor).
  simpl. f_equal. apply IH. intros y Hy. apply HP. by constructor.
Qed.

(** X10. The numbers that /stats reports about the bank. [total] is the
    size of the bank; [byLevel] has the four levels as its keys and
    [byCategory] the two categories, each with the size of its pool. The
    four level counts add up to the number of questions whose level is
    one of the four, and the two category counts likewise; for a bank
    whose levels and categories are all among the valid ones, as
    [validateQuestions] requires, both sums equal [total]. *)
Theorem getStats_counts this :
  let s := QuestionService.getStats this in
  let bank := QuestionService.questions this in
  QuestionService.total s = length bank
  ∧ (∀ lvl, QuestionService.byLevel s !! lvl
            = if decide (lvl ∈ QuestionService.validLevels)
              then Some (length (QuestionService.getQuestionsByLevel this lvl))
              else None)
  ∧ (∀ cat, QuestionService.byCategory s !! cat
            = if decide (cat ∈ QuestionService.validCategories)
              then Some (length
                           (QuestionService.getQuestionsByCategory this cat))
              else None)
  ∧ sum_list ((λ lvl, default 0%nat (QuestionService.byLevel s !! lvl))
                <$> QuestionService.validLevels)
    = length (filter (λ q, Question.level q ∈ QuestionService.validLevels)
                bank)
  ∧ sum_list ((λ cat, default 0%nat (QuestionService.byCategory s !! cat))
                <$> QuestionService.validCategories)
    = length (filter (λ q, Question.category q
                           ∈ QuestionService.validCategories) bank)
  ∧ ((∀ q, q ∈ bank →
           Question.level q ∈ QuestionService.validLevels
           ∧ Question.category q ∈ QuestionService.validCategories) →
     sum_list ((λ lvl, default 0%nat (QuestionService.byLevel s !! lvl))
                 <$> QuestionService.validLevels)
     = QuestionService.total s
     ∧ sum_list ((λ cat, default 0%nat (QuestionService.byCategory s !! cat))
                   <$> QuestionService.validCategories)
       = QuestionService.total s).
Proof.
  cbv zeta.
  assert (∀ lvl, QuestionService.byLevel (QuestionService.getStats this) !! lvl
            = if decide (lvl ∈ QuestionService.validLevels)
              then Some (length (QuestionService.getQuestionsByLevel this lvl))
              else None) as Hlvl.
  { intros lvl. unfold QuestionService.getStats, QuestionService.validLevels.
    simpl. case_decide as Hin.
    - repeat (apply elem_of_cons in Hin as [->|Hin]);
        [..|by apply elem_of_nil in Hin].
      + rewrite !lookup_insert_ne by done. by rewrite lookup_insert_eq.
      + rewrite !lookup_insert_ne by done. by rewrite lookup_insert_eq.
      + rewrite !lookup_insert_ne by done. by rewrite lookup_insert_eq.
      + by rewrite lookup_insert_eq.
    - rewrite !lookup_insert_ne, lookup_empty;
        [done|intros <-; apply Hin; repeat constructor..]. }
  assert (∀ cat, QuestionService.byCategory (QuestionService.getStats this)
                 !! cat
            = if decide (cat ∈ QuestionService.validCategories)
              then Some (length
                           (QuestionService.getQuestionsByCategory this cat))
              else None) as Hcat.
  { intros cat.
    unfold QuestionService.getStats, QuestionService.validCategories.
    simpl. case_decide as Hin.
    - repeat (apply elem_of_cons in Hin as [->|Hin]);
        [..|by apply elem_of_nil in Hin].
      + rewrite !lookup_insert_ne by done. by rewrite lookup_insert_eq.
      + by rewrite lookup_insert_eq.
    - rewrite !lookup_insert_ne, lookup_empty;
        [done|intros <-; apply Hin; repeat constructor..]. }
  assert (sum_list ((λ lvl, default 0%nat
                              (QuestionService.byLevel
                                 (QuestionService.getStats this) !! lvl))
                      <$> QuestionService.validLevels)
          = length (filter (λ q, Question.level q
                                 ∈ QuestionService.validLevels)
                      (QuestionService.questions this))) as Hsum.
  { rewrite <- (filter_keys_sum Question.level) by apply validLevels_NoDup.
    unfold QuestionService.validLevels. simpl.
    rewrite !Hlvl. unfold QuestionService.validLevels. by vm_compute. }
  assert (sum_list ((λ cat, default 0%nat
                              (QuestionService.byCategory
                                 (QuestionService.getStats this) !! cat))
                      <$> QuestionService.validCategories)
          = length (filter (λ q, Question.category q
                                 ∈ QuestionService.validCategories)
                      (QuestionService.questions this))) as Hsum'.
  { rewrite <- (filter_keys_sum Question.category)
      by apply validCategories_NoDup.
    unfold QuestionService.validCategories. simpl.
    rewrite !Hcat. unfold QuestionService.validCategories. by vm_compute. }
  split; [done|]. split; [exact Hlvl|]. split; [exact Hcat|].
  split; [exact Hsum|]. split; [exact Hsum'|].
  intros Hvalid. rewrite Hsum, Hsum'. simpl.
  split; apply length_filter_all; intros q Hq; by apply Hvalid.
Qed.

(** ** The data of the answer buttons *)

Lemma uint_value_pos d : ∀ p,
  uint_value d (Z.pos p) = Z.pos (Pos.of_uint_acc d p).
Proof.
  induction d as [|d IH|d IH|d IH|d IH|d IH|d IH|d IH|d IH|d IH|d IH];
    intros p; simpl; [done|..];
    match goal with
    | |- uint_value _ ?a = Z.pos (Pos.of_uint_acc _ ?b) =>
        replace a with (Z.pos b) by lia; apply IH
    end.
Qed.

Lemma uint_value_zero d : uint_value d 0 = Z.of_N (Pos.of_uint d).
Proof.
  induction d as [|d IH|d IH|d IH|d IH|d IH|d IH|d IH|d IH|d IH|d IH];
    simpl; [done|exact IH|..]; apply uint_value_pos.
Qed.

Lemma digits_string_of_uint d : ∀ acc,
  JsString.digits 10 (NilEmpty.string_of_uint d) (Some acc)
  = Some (uint_value d acc).
Proof.
  induction d as [|d IH|d IH|d IH|d IH|d IH|d IH|d IH|d IH|d IH|d IH];
    intros acc; [done|..]; simpl; apply IH.
Qed.

Lemma digits_string_of_uint_None d :
  d ≠ Decimal.Nil →
  JsString.digits 10 (NilEmpty.string_of_uint d) None
  = Some (uint_value d 0).
Proof.
  destruct d; [done|..]; intros _; simpl; apply digits_string_of_uint.
Qed.

(** A numeral is parsed as a whole, in radix 10. *)
Lemma parseInt_string_of_uint d :
  d ≠ Decimal.Nil →
  JsString.parseInt (NilEmpty.string_of_uint d)
  = JsString.toNumber (uint_value d 0)
  ∧ JsString.parseInt (String "-" (NilEmpty.string_of_uint d))
    = JsString.toNumber (- uint_value d 0).
Proof.
  intros Hd.
  assert (JsString.parseInt (NilEmpty.string_of_uint d)
          = match JsString.digits 10 (NilEmpty.string_of_uint d) None with
            | Some n => JsString.toNumber n
            | None => Js.NaN
            end
          ∧ JsString.parseInt (String "-" (NilEmpty.string_of_uint d))
            = match JsString.digits 10 (NilEmpty.string_of_uint d) None with
              | Some n => JsString.toNumber (- n)
              | None => Js.NaN
              end) as [-> ->].
  { destruct d as [|d|d|d|d|d|d|d|d|d|d]; [done|..];
      destruct d; split; reflexivity. }
  by rewrite digits_string_of_uint_None.
Qed.

(** The decimal rendering of an integer up to 2^53 is parsed back to
    it. *)
Lemma parseInt_ofInteger z :
  Z.abs z ≤ 2 ^ 53 →
  JsString.parseInt (JsString.ofInteger z) = Js.Int z.
Proof.
  intros Hz. unfold JsString.ofInteger.
  assert (JsString.toNumber z = Js.Int z) as Hnum.
  { unfold JsString.toNumber. by rewrite bool_decide_eq_true_2. }
  destruct z as [|p|p]; [done|..]; simpl.
  - pose proof (DecimalPos.Unsigned.to_uint_nonnil p) as Hnil.
    assert (NilZero.string_of_uint (Pos.to_uint p)
            = NilEmpty.string_of_uint (Pos.to_uint p)) as ->
      by (by destruct (Pos.to_uint p)).
    destruct (parseInt_string_of_uint _ Hnil) as [-> _].
    rewrite uint_value_zero, DecimalPos.Unsigned.of_to. exact Hnum.
  - pose proof (DecimalPos.Unsigned.to_uint_nonnil p) as Hnil.
    assert (NilZero.string_of_uint (Pos.to_uint p)
            = NilEmpty.string_of_uint (Pos.to_uint p)) as ->
      by (by destruct (Pos.to_uint p)).
    destruct (parseInt_string_of_uint _ Hnil) as [_ ->].
    rewrite uint_value_zero, DecimalPos.Unsigned.of_to. exact Hnum.
Qed.

Lemma split_free sep s :
  free_of sep s = true → JsString.split sep s = [s].
Proof.
  induction s as [|c s IH]; [done|]. simpl.
  case_bool_decide; [done|]. simpl. intros Hs. by rewrite IH.
Qed.

Lemma split_app sep s t :
  free_of sep s = true →
  JsString.split sep (s +:+ String sep t) = s :: JsString.split sep t.
Proof.
  induction s as [|c s IH]; simpl.
  - intros _. by rewrite bool_decide_eq_true_2.
  - case_bool_decide; [done|]. simpl. intros Hs. by rewrite IH.
Qed.

Lemma free_of_string_of_uint d :
  free_of "_" (NilEmpty.string_of_uint d) = true.
Proof. induction d; simpl; by rewrite ?bool_decide_eq_false_2. Qed.

Lemma free_of_ofInteger z : free_of "_" (JsString.ofInteger z) = true.
Proof.
  unfold JsString.ofInteger.
  assert (∀ d, free_of "_" (NilZero.string_of_uint d) = true) as Hd.
  { intros d. destruct d; try done; apply free_of_string_of_uint. }
  destruct z as [|p|p]; simpl; [done|apply Hd..].
Qed.

(** The data of a button are split into the word, the id and the
    index. *)
Lemma split_callback_data q index :
  JsString.split "_" (CallbackHandlers.callback_data q index)
  = ["answer"; JsString.ofInteger (Question.id q);
     JsString.ofInteger (Z.of_nat index)].
Proof.
  unfold CallbackHandlers.callback_data.
  change ("answer_" +:+ ?s) with ("answer" +:+ String "_" s).
  rewrite split_app by done.
  change ("_" +:+ ?s) with (String "_" s).
  rewrite split_app by apply free_of_ofInteger.
  by rewrite split_free by apply free_of_ofInteger.
Qed.

(** X11. The buttons of a question and the handler of the answers
    agree. For a question whose id is an integer up to 2^53, the data
    [answer_<id>_<index>] of the button of option [index] are routed to
    [handleAnswer] and parsed back to that id and that index, whatever
    the sign of the id; so a session in progress on that question, whose
    id the repository knows, records the answer with the option of the
    button, and the button is not refused as invalid. *)
Theorem handleCallback_answer_button handlers test this_questions now userId
    q index (sessions : gmap Z Session.t) σ :
  Z.abs (Question.id q) ≤ 2 ^ 53 →
  (index < length (Question.options q))%nat →
  Z.of_nat (length (Question.options q)) ≤ 2 ^ 53 →
  CallbackHandlers.keyboard q !! index
  = Some (CallbackHandlers.callback_data q index)
  ∧ CallbackHandlers.handleCallback handlers test this_questions now userId
      (CallbackHandlers.callback_data q index) sessions σ
    = (let '(messages, sessions') :=
         CallbackHandlers.handleAnswer handlers now userId
           (Js.Int (Question.id q)) (Js.Int (Z.of_nat index)) sessions in
       (CallbackHandlers.Sent <$> messages, sessions'), σ)
  ∧ (∀ session,
       sessions !! userId = Some session →
       Session.state session = Session.in_progress →
       Session.questions session !! Session.currentQuestion session = Some q →
       known (CallbackHandlers.questionService handlers)
         (Js.Int (Question.id q)) →
       ∃ result session',
         CallbackHandlers.handleAnswer_record handlers now userId
           (JsString.parseInt_item
              (JsString.split "_" (CallbackHandlers.callback_data q index)
               !! 1%nat))
           (JsString.parseInt_item
              (JsString.split "_" (CallbackHandlers.callback_data q index)
               !! 2%nat))
           sessions
         = (CallbackHandlers.Recorded result,
            <[userId := session']> sessions)
         ∧ Session.answers session'
           = (Session.answers session
              ++ [ {| AnswerRecord.questionId := Js.Int (Question.id q);
                      AnswerRecord.selectedOption := Js.Int (Z.of_nat index);
                      AnswerRecord.isCorrect :=
                        QuestionService.isCorrect result;
                      AnswerRecord.timestamp := now |} ])%list).
Proof.
  intros Hid Hindex Hlen.
  assert (JsString.parseInt_item
            (JsString.split "_" (CallbackHandlers.callback_data q index)
             !! 1%nat) = Js.Int (Question.id q)) as Hq.
  { rewrite split_callback_data. simpl. by apply parseInt_ofInteger. }
  assert (JsString.parseInt_item
            (JsString.split "_" (CallbackHandlers.callback_data q index)
             !! 2%nat) = Js.Int (Z.of_nat index)) as Hi.
  { rewrite split_callback_data. simpl. apply parseInt_ofInteger. lia. }
  split; [|split].
  - unfold CallbackHandlers.keyboard. rewrite list_lookup_imap.
    destruct (lookup_lt_is_Some_2 _ _ Hindex) as [o ->]. done.
  - unfold CallbackHandlers.handleCallback. rewrite Hq, Hi.
    rewrite !bool_decide_eq_false_2 by done.
    assert (JsString.startsWith "answer_"
              (CallbackHandlers.callback_data q index) = true) as ->.
    { unfold JsString.startsWith, CallbackHandlers.callback_data. simpl.
      by destruct (_ +:+ _). }
    by destruct (CallbackHandlers.handleAnswer _ _ _ _ _ _).
  - intros session Hsession Hstate Hcurrent Hknown. rewrite Hq, Hi.
    destruct (handleAnswer_record_current handlers now userId (Question.id q)
                (Js.Int (Z.of_nat index)) sessions session q
                Hsession Hstate Hcurrent eq_refl Hknown)
      as (result & session' & Hrun & _ & Hanswers & _).
    by exists result, session'.
Qed.

Lemma handleCallback_answer_button_witness :
  CallbackHandlers.keyboard unweighted_B2 !! 1%nat
  = Some (CallbackHandlers.callback_data unweighted_B2 1)
  ∧ CallbackHandlers.callback_data unweighted_B2 1 = "answer_7_1".
Proof.
  split; [|reflexivity].
  apply (handleCallback_answer_button scenario_handlers
           {| CallbackHandlers.test_totalQuestions := None;
              CallbackHandlers.test_questionsPerLevel := None |}
           0%nat "2024-05-01T10:02:00.000Z" 42 unweighted_B2 1 ∅ state20);
    simpl; lia.
Defined.

(** ** The sessions between two events *)

Lemma sessions_invariant_insert sessions userId session :
  sessions_invariant sessions →
  session_invariant userId session →
  sessions_invariant (<[userId := session]> sessions).
Proof.
  intros Hinv Hs uid s. destruct (decide (uid = userId)) as [->|Hne].
  - rewrite lookup_insert_eq. by intros [= <-].
  - rewrite lookup_insert_ne by done. apply Hinv.
Qed.

Lemma sessions_invariant_delete sessions userId :
  sessions_invariant sessions →
  sessions_invariant (delete userId sessions).
Proof.
  intros Hinv uid s Hs. apply lookup_delete_Some in Hs as [_ Hs].
  by apply Hinv.
Qed.

Lemma createSession_invariant now userId username sessions :
  sessions_invariant sessions →
  sessions_invariant
    (SessionService.createSession now userId username sessions).2.
Proof.
  intros Hinv. apply sessions_invariant_insert; [done|].
  unfold session_invariant, session_consistent. simpl.
  repeat split; auto; done.
Qed.

Lemma completeTest_invariant handlers now userId sessions :
  (∀ uid s, uid ≠ userId → sessions !! uid = Some s →
            session_invariant uid s) →
  sessions_invariant (CallbackHandlers.completeTest handlers now userId
                        sessions).2.
Proof.
  intros Hinv. unfold CallbackHandlers.completeTest,
    SessionService.getSession.
  destruct (sessions !! userId) as [session|] eqn:Hsession; simpl.
  - unfold SessionService.completeSession, SessionService.updateSession,
      SessionService.getSession. rewrite Hsession. simpl.
    apply createSession_invariant.
    intros uid s Hs. apply lookup_delete_Some in Hs as [Hne Hs].
    rewrite lookup_insert_ne in Hs by done. by apply Hinv.
  - intros uid s Hs. destruct (decide (uid = userId)) as [->|Hne].
    + by rewrite Hsession in Hs.
    + by apply Hinv.
Qed.

Lemma sendQuestion_invariant handlers now userId sessions :
  (∀ uid s, uid ≠ userId → sessions !! uid = Some s →
            session_invariant uid s) →
  (∀ s, sessions !! userId = Some s → session_consistent userId s) →
  sessions_invariant (CallbackHandlers.sendQuestion handlers now userId
                        sessions).2.
Proof.
  intros Hinv Hs. unfold CallbackHandlers.sendQuestion,
    SessionService.getSession.
  destruct (sessions !! userId) as [session|] eqn:Hsession.
  - destruct (Session.questions session !! Session.currentQuestion session)
      as [q|] eqn:Hq.
    + simpl. intros uid s Hlook. destruct (decide (uid = userId)) as [->|Hne].
      * rewrite Hsession in Hlook. injection Hlook as <-.
        split; [by apply Hs|]. intros _. by eapply lookup_lt_Some.
      * by apply Hinv.
    + by apply completeTest_invariant.
  - simpl. intros uid s Hlook. destruct (decide (uid = userId)) as [->|Hne].
    + by rewrite Hsession in Hlook.
    + by apply Hinv.
Qed.

Lemma handleAnswer_invariant handlers now userId questionId selected
    sessions :
  sessions_invariant sessions →
  sessions_invariant (CallbackHandlers.handleAnswer handlers now userId
                        questionId selected sessions).2.
Proof.
  intros Hinv. unfold CallbackHandlers.handleAnswer,
    CallbackHandlers.handleAnswer_record, SessionService.getSession.
  destruct (sessions !! userId) as [session|] eqn:Hsession; [|done].
  case_bool_decide as Hstate; simpl; [|done].
  destruct (Session.questions session !! Session.currentQuestion session)
    as [q|] eqn:Hq; [|done].
  destruct (Js.strict_eq (Question.id q) questionId); simpl; [|done].
  destruct (QuestionService.checkAnswer _ _ _) as [result|e]; [|done].
  destruct (Hinv userId session Hsession)
    as [(Huid & Hcursor & Hcomplete & Hend & Hst & Hready) Hbound].
  unfold SessionService.recordAnswer, SessionService.getSession.
  rewrite Hsession. cbn [snd].
  set (session' := {| Session.userId := _ |}).
  unfold CallbackHandlers.handleAnswer_continue.
  assert (∀ uid s, uid ≠ userId →
            <[userId := session']> sessions !! uid = Some s →
            session_invariant uid s) as Hothers.
  { intros uid s Hne. rewrite lookup_insert_ne by done. apply Hinv. }
  assert (∀ s, <[userId := session']> sessions !! userId = Some s →
               session_consistent userId s) as Hmine.
  { intros s. rewrite lookup_insert_eq. intros [= <-].
    unfold session_consistent, session'. simpl.
    split; [done|]. split; [rewrite length_app; simpl; lia|].
    split; [done|]. split; [done|]. split; [by right|].
    intros Hr. by rewrite Hstate in Hr. }
  destruct (SessionService.isTestComplete userId _).
  - pose proof (completeTest_invariant handlers now userId _ Hothers).
    by destruct (CallbackHandlers.completeTest _ _ _ _).
  - pose proof (sendQuestion_invariant handlers now userId _ Hothers Hmine).
    by destruct (CallbackHandlers.sendQuestion _ _ _ _).
Qed.

Lemma handleStartTest_invariant handlers test this_questions now userId
    sessions σ :
  sessions_invariant sessions →
  sessions_invariant
    (CallbackHandlers.handleStartTest handlers test this_questions now userId
       sessions σ).1.2.
Proof.
  intros Hinv. unfold CallbackHandlers.handleStartTest,
    SessionService.getSession.
  destruct (sessions !! userId) as [session|] eqn:Hsession; [|done].
  unfold mbind, Heap.M_bind.
  destruct (QuestionService.selectQuestionsForTest _ _ σ) as [r σ1].
  destruct (Heap.read r σ1) as [stored σ2].
  unfold SessionService.setQuestions, SessionService.updateSession,
    SessionService.getSession.
  rewrite Hsession. cbn [snd]. rewrite lookup_insert_eq. cbn [snd].
  rewrite insert_insert_eq.
  set (session' := Session.spread (Session.spread session _) _).
  destruct (Hinv userId session Hsession)
    as [(Huid & Hcursor & Hcomplete & Hend & Hst & Hready) Hbound].
  pose proof (sendQuestion_invariant handlers now userId
                (<[userId := session']> sessions)) as Hsend.
  destruct (CallbackHandlers.sendQuestion _ _ _ _) as [messages sessions3].
  simpl. apply Hsend.
  - intros uid s Hne. rewrite lookup_insert_ne by done. apply Hinv.
  - intros s. rewrite lookup_insert_eq. intros [= <-].
    unfold session_consistent, session'. simpl.
    repeat split; auto; done.
Qed.


Lemma handle_invariant handlers test this_questions event w :
  sessions_invariant (world_sessions w) →
  sessions_invariant
    (world_sessions (handle handlers test this_questions event w).2).
Proof.
  intros Hinv.
  destruct event as [now userId username|now userId username|userId| | |userId
                    |now userId data|userId]; simpl; try done.
  - unfold CommandHandlers.handleStart.
    destruct (if SessionService.hasSession _ _ then _ else _); [done|].
    by apply createSession_invariant.
  - unfold CommandHandlers.handleRestart, SessionService.resetSession.
    by apply createSession_invariant, sessions_invariant_delete.
  - by apply sessions_invariant_delete.
  - unfold CallbackHandlers.handleCallback.
    case_bool_decide.
    { pose proof (handleStartTest_invariant handlers test this_questions now
                    userId (world_sessions w) (world_heap w) Hinv).
      by destruct (CallbackHandlers.handleStartTest _ _ _ _ _ _ _)
        as [[? ?] ?]. }
    case_bool_decide; [done|].
    destruct (JsString.startsWith _ _); [|done].
    pose proof (handleAnswer_invariant handlers now userId
                  (JsString.parseInt_item (JsString.split "_" data !! 1%nat))
                  (JsString.parseInt_item (JsString.split "_" data !! 2%nat))
                  (world_sessions w) Hinv).
    by destruct (CallbackHandlers.handleAnswer _ _ _ _ _ _).
  - by apply sessions_invariant_delete.
Qed.

Lemma run_invariant handlers test this_questions events : ∀ w,
  sessions_invariant (world_sessions w) →
  sessions_invariant
    (world_sessions (run handlers test this_questions events w).2).
Proof.
  induction events as [|event events IH]; intros w Hinv; [done|].
  simpl.
  pose proof (handle_invariant handlers test this_questions event w Hinv)
    as Hstep.
  destruct (handle handlers test this_questions event w) as [replies w1].
  specialize (IH w1 Hstep).
  by destruct (run handlers test this_questions events w1).
Qed.

Lemma getStats_invariant sessions :
  sessions_invariant sessions →
  let stats := SessionService.getStats sessions in
  SessionService.completed stats = 0%nat
  ∧ SessionService.totalActive stats
    = (SessionService.inProgress stats + SessionService.ready stats)%nat
  ∧ SessionService.totalActive stats = size sessions
  ∧ SessionService.getActiveSessionCount sessions = size sessions.
Proof.
  intros Hinv. cbv zeta.
  unfold SessionService.getStats, SessionService.getActiveSessionCount,
    SessionService.getAllSessions. simpl.
  rewrite !length_fmap, length_map_to_list.
  assert (∀ s, s ∈ (map_to_list sessions).*2 →
               Session.state s = Session.ready
               ∨ Session.state s = Session.in_progress) as Hstates.
  { intros s Hs. apply list_elem_of_fmap in Hs as [[uid s'] [-> Hs]].
    apply elem_of_map_to_list in Hs.
    by destruct (Hinv uid s' Hs) as [(_ & _ & _ & _ & Hst & _) _]. }
  rewrite <- (length_map_to_list sessions), <- (length_fmap snd).
  induction ((map_to_list sessions).*2) as [|s l IH]; [done|].
  rewrite !filter_cons.
  destruct (Hstates s) as [Hs|Hs]; [constructor|..];
    destruct IH as (IH1 & IH2 & _);
    try (intros s' Hs'; apply Hstates; by constructor);
    rewrite Hs; repeat case_decide; try done; simpl; lia.
Qed.


(** ** A test from the first question to the results *)

(** The data of a button reach [handleAnswer] with the id and the index
    of the button. *)
Lemma handleCallback_callback_data handlers test this_questions now userId
    q index (sessions : gmap Z Session.t) σ :
  Z.abs (Question.id q) ≤ 2 ^ 53 →
  Z.of_nat index ≤ 2 ^ 53 →
  CallbackHandlers.handleCallback handlers test this_questions now userId
    (CallbackHandlers.callback_data q index) sessions σ
  = (let '(messages, sessions') :=
       CallbackHandlers.handleAnswer handlers now userId
         (Js.Int (Question.id q)) (Js.Int (Z.of_nat index)) sessions in
     (CallbackHandlers.Sent <$> messages, sessions'), σ).
Proof.
  intros Hid Hindex.
  unfold CallbackHandlers.handleCallback.
  rewrite !bool_decide_eq_false_2 by done.
  rewrite split_callback_data.
  cbn [lookup list_lookup JsString.parseInt_item].
  rewrite !parseInt_ofInteger by lia.
  assert (JsString.startsWith "answer_"
            (CallbackHandlers.callback_data q index) = true) as ->.
  { unfold JsString.startsWith, CallbackHandlers.callback_data. simpl.
    by destruct (_ +:+ _). }
  by destruct (CallbackHandlers.handleAnswer _ _ _ _ _ _).
Qed.

(** An answer to the current question of a session in progress is
    recorded. *)
Lemma handleAnswer_current handlers userId q (p : string * nat)
    (sessions : gmap Z Session.t) session :
  sessions !! userId = Some session →
  Session.state session = Session.in_progress →
  Session.questions session !! Session.currentQuestion session = Some q →
  QuestionService.getQuestionById (CallbackHandlers.questionService handlers)
    (Js.Int (Question.id q)) = Some q →
  ∃ result session',
    CallbackHandlers.handleAnswer handlers p.1 userId (Js.Int (Question.id q))
      (Js.Int (Z.of_nat p.2)) sessions
    = CallbackHandlers.handleAnswer_continue handlers p.1 userId result
        (<[userId := session']> sessions)
    ∧ CallbackHandlers.Feedback (QuestionService.isCorrect result)
        (QuestionService.correctOption result) = feedback_of q p
    ∧ Session.answers session'
      = (Session.answers session ++ [pressed q p])%list
    ∧ Session.currentQuestion session'
      = (Session.currentQuestion session + 1)%nat
    ∧ Session.questions session' = Session.questions session
    ∧ Session.state session' = Session.state session
    ∧ Session.username session' = Session.username session.
Proof.
  intros Hsession Hstate Hq Hknown.
  unfold CallbackHandlers.handleAnswer, CallbackHandlers.handleAnswer_record,
    SessionService.getSession.
  rewrite Hsession, Hstate, Hq. simpl.
  rewrite bool_decide_eq_true_2 by done. simpl.
  rewrite (checkAnswer_known _ _ _ q Hknown).
  match goal with
  | |- context [SessionService.recordAnswer p.1 userId ?a sessions] =>
      destruct (recordAnswer_session p.1 userId a sessions session Hsession)
        as (session' & Hrecord & Hanswers & Hcursor & _ & Hquestions & Hst
            & _ & Huser & _)
  end.
  rewrite Hrecord. simpl in *.
  eexists _, session'. split; [reflexivity|]. split; [reflexivity|].
  split; [exact Hanswers|]. split; [done|]. split; [done|].
  split; [congruence|done].
Qed.

(** The press of a button of the current question, handled. *)
Lemma handle_press handlers test this_questions userId q (p : string * nat)
    (sessions : gmap Z Session.t) σ session :
  sessions !! userId = Some session →
  Session.state session = Session.in_progress →
  Session.questions session !! Session.currentQuestion session = Some q →
  Z.abs (Question.id q) ≤ 2 ^ 53 →
  Z.of_nat p.2 ≤ 2 ^ 53 →
  QuestionService.getQuestionById (CallbackHandlers.questionService handlers)
    (Js.Int (Question.id q)) = Some q →
  ∃ result session',
    handle handlers test this_questions (press userId q p)
      {| world_sessions := sessions; world_heap := σ |}
    = (let '(messages, sessions') :=
         CallbackHandlers.handleAnswer_continue handlers p.1 userId result
           (<[userId := session']> sessions) in
       (OfCallback <$> (CallbackHandlers.Sent <$> messages),
        {| world_sessions := sessions'; world_heap := σ |}))
    ∧ CallbackHandlers.Feedback (QuestionService.isCorrect result)
        (QuestionService.correctOption result) = feedback_of q p
    ∧ Session.answers session'
      = (Session.answers session ++ [pressed q p])%list
    ∧ Session.currentQuestion session'
      = (Session.currentQuestion session + 1)%nat
    ∧ Session.questions session' = Session.questions session
    ∧ Session.state session' = Session.state session
    ∧ Session.username session' = Session.username session.
Proof.
  intros Hsession Hstate Hq Hid Hp Hknown.
  destruct (handleAnswer_current handlers userId q p sessions session
              Hsession Hstate Hq Hknown)
    as (result & session' & Hrun & Hrest).
  exists result, session'. split; [|exact Hrest].
  unfold handle, press. cbn [world_sessions world_heap].
  rewrite handleCallback_callback_data by done.
  rewrite Hrun.
  by destruct (CallbackHandlers.handleAnswer_continue _ _ _ _ _).
Qed.

Lemma completeTest_cache handlers now userId (sessions : gmap Z Session.t)
    session :
  sessions !! userId = Some session →
  CallbackHandlers.completeTest handlers now userId sessions
  = ([CallbackHandlers.Completion;
      CallbackHandlers.Results
        (AssessmentService.calculateAssessment
           (CallbackHandlers.assessmentConfig handlers) now session
           (Session.questions session));
      CallbackHandlers.RestartOffer],
     <[userId := (SessionService.createSession now userId
                    (Session.username session) ∅).1]> sessions).
Proof.
  intros Hsession. unfold CallbackHandlers.completeTest,
    SessionService.getSession. rewrite Hsession. f_equal.
  unfold SessionService.completeSession, SessionService.updateSession,
    SessionService.getSession. rewrite Hsession. simpl.
  apply map_eq. intros uid. destruct (decide (uid = userId)) as [->|Hne].
  - by rewrite !lookup_insert_eq.
  - rewrite !lookup_insert_ne by done.
    rewrite lookup_delete_ne by done. by rewrite lookup_insert_ne.
Qed.

Lemma run_presses handlers test this_questions userId σ :
  ∀ rest presses (sessions : gmap Z Session.t) session answered,
    sessions !! userId = Some session →
    Session.state session = Session.in_progress →
    Session.questions session = (answered ++ rest)%list →
    Session.currentQuestion session = length answered →
    rest ≠ [] →
    length presses = length rest →
    (∀ q, q ∈ rest →
          Z.abs (Question.id q) ≤ 2 ^ 53
          ∧ QuestionService.getQuestionById
              (CallbackHandlers.questionService handlers)
              (Js.Int (Question.id q)) = Some q) →
    (∀ p, p ∈ presses → Z.of_nat p.2 ≤ 2 ^ 53) →
    ∃ final final_press,
      last presses = Some final_press
      ∧ run handlers test this_questions (zip_with (press userId) rest presses)
          {| world_sessions := sessions; world_heap := σ |}
        = ((OfCallback ∘ CallbackHandlers.Sent)
             <$> (served (length answered + 1) (length (answered ++ rest))
                    rest presses
                  ++ [CallbackHandlers.Completion;
                      CallbackHandlers.Results
                        (AssessmentService.calculateAssessment
                           (CallbackHandlers.assessmentConfig handlers)
                           final_press.1 final (Session.questions session));
                      CallbackHandlers.RestartOffer])%list,
           {| world_sessions :=
                <[userId := (SessionService.createSession final_press.1 userId
                               (Session.username session) ∅).1]> sessions;
              world_heap := σ |})
      ∧ Session.answers final
        = (Session.answers session ++ zip_with pressed rest presses)%list.
Proof.
  induction rest as [|q rest IH];
    intros presses sessions session answered Hsession Hstate Hquestions
      Hcursor Hne Hlen Hqs Hps; [done|].
  destruct presses as [|p presses]; [done|].
  assert (Session.questions session !! Session.currentQuestion session
          = Some q) as Hq.
  { rewrite Hquestions, Hcursor. by rewrite list_lookup_middle. }
  destruct (Hqs q) as [Hid Hknown]; [constructor|].
  assert (Z.of_nat p.2 ≤ 2 ^ 53) as Hp by (apply Hps; constructor).
  destruct (handle_press handlers test this_questions userId q p sessions σ
              session Hsession Hstate Hq Hid Hp Hknown)
    as (result & session' & Hhandle & Hfeedback & Hanswers & Hcursor'
        & Hquestions' & Hstate' & Huser').
  assert (<[userId := session']> sessions !! userId = Some session')
    as Hsession' by apply lookup_insert_eq.
  cbn [zip_with run]. rewrite Hhandle. clear Hhandle.
  unfold CallbackHandlers.handleAnswer_continue,
    SessionService.isTestComplete, SessionService.getSession.
  rewrite Hsession', Hquestions', Hcursor', Hquestions, Hcursor.
  destruct rest as [|q2 rest].
  - (* the last question *)
    destruct presses as [|? ?]; [|done].
    rewrite bool_decide_eq_true_2 by (rewrite length_app; simpl; lia).
    rewrite (completeTest_cache _ _ _ _ session' Hsession').
    rewrite insert_insert_eq, Huser', Hquestions', Hquestions.
    cbn [zip_with run served].
    exists session', p. split; [done|].
    split; [|exact Hanswers]. rewrite app_nil_r. simpl.
    by rewrite Hfeedback.
  - rewrite bool_decide_eq_false_2 by (rewrite length_app; simpl; lia).
    unfold CallbackHandlers.sendQuestion, SessionService.getSession.
    rewrite Hsession', Hquestions', Hcursor', Hquestions, Hcursor.
    assert ((answered ++ q :: q2 :: rest)%list !! (length answered + 1)%nat
            = Some q2) as ->.
    { rewrite (cons_middle q), (assoc_L (++)).
      replace (length answered + 1)%nat with (length (answered ++ [q])%list)
        by (rewrite length_app; simpl; lia).
      by rewrite list_lookup_middle. }
    destruct (IH presses (<[userId := session']> sessions) session'
                (answered ++ [q])%list)
      as (final & final_press & Hlast & Hrun & Hfinal).
    + exact Hsession'.
    + congruence.
    + rewrite Hquestions', Hquestions, <- (assoc_L (++)). done.
    + rewrite Hcursor', Hcursor, length_app. done.
    + done.
    + simpl in Hlen |- *. lia.
    + intros q' Hq'. apply Hqs. by constructor.
    + intros p' Hp'. apply Hps. by constructor.
    + rewrite Hrun. rewrite insert_insert_eq, Huser', Hquestions'.
      exists final, final_press.
      split; [by destruct presses|].
      split; [|rewrite Hfinal, Hanswers, <- (assoc_L (++)); done].
      rewrite ?Hquestions, <- !(assoc_L (++)). simpl.
      rewrite Hfeedback, ?length_app. simpl.
      repeat f_equal; lia.
Qed.

(** X13. A test taken to its end. A session in progress on its first
    question, with no answer yet, whose user presses one button under
    each question as it is served (the ids of the questions are integers
    up to 2^53 and the repository finds each question under its id): each
    press is answered with its feedback and, but for the last, with the
    next question and its number; the last press is answered with the
    completion notice, the results and the offer to restart. The
    results are the assessment, against the questions of the session, of
    one answer for each question, in their order, with the option of the
    button pressed, flagged correct when that option is the [correct] of
    the question. After it the user has a new session, ready, and no
    other session and no array has changed. *)
Theorem test_run_completes handlers test this_questions σ
    (sessions : gmap Z Session.t) userId session presses :
  let questions := Session.questions session in
  sessions !! userId = Some session →
  Session.state session = Session.in_progress →
  Session.answers session = [] →
  Session.currentQuestion session = 0%nat →
  questions ≠ [] →
  length presses = length questions →
  (∀ q, q ∈ questions →
        Z.abs (Question.id q) ≤ 2 ^ 53
        ∧ QuestionService.getQuestionById
            (CallbackHandlers.questionService handlers)
            (Js.Int (Question.id q)) = Some q) →
  (∀ p, p ∈ presses → Z.of_nat p.2 ≤ 2 ^ 53) →
  ∃ final final_press,
    let assessment :=
      AssessmentService.calculateAssessment
        (CallbackHandlers.assessmentConfig handlers) final_press.1 final
        questions in
    last presses = Some final_press
    ∧ run handlers test this_questions
        (zip_with (press userId) questions presses)
        {| world_sessions := sessions; world_heap := σ |}
      = ((OfCallback ∘ CallbackHandlers.Sent)
           <$> (served 1 (length questions) questions presses
                ++ [CallbackHandlers.Completion;
                    CallbackHandlers.Results assessment;
                    CallbackHandlers.RestartOffer])%list,
         {| world_sessions :=
              <[userId := (SessionService.createSession final_press.1 userId
                             (Session.username session) ∅).1]> sessions;
            world_heap := σ |})
    ∧ Session.answers final = zip_with pressed questions presses
    ∧ AssessmentService.totalQuestions assessment = length questions.
Proof.
  intros questions Hsession Hstate Hanswers Hcursor Hne Hlen Hqs Hps.
  destruct (run_presses handlers test this_questions userId σ questions
              presses sessions session [] Hsession Hstate eq_refl Hcursor Hne
              Hlen Hqs Hps)
    as (final & final_press & Hlast & Hrun & Hfinal).
  rewrite Hanswers in Hfinal. simpl in Hfinal.
  exists final, final_press. cbv zeta.
  split; [exact Hlast|]. split; [exact Hrun|].
  split; [exact Hfinal|].
  simpl. rewrite Hfinal, length_zip_with. unfold questions in *. lia.
Qed.

Lemma test_run_completes_witness :
  ∃ final final_press,
    let assessment :=
      AssessmentService.calculateAssessment
        (CallbackHandlers.assessmentConfig scenario_handlers) final_press.1
        final scenario_questions in
    last scenario_presses = Some final_press
    ∧ run scenario_handlers no_test_config 0%nat
        (zip_with (press 42) scenario_questions scenario_presses)
        {| world_sessions := scenario_started; world_heap := state20 |}
      = ((OfCallback ∘ CallbackHandlers.Sent)
           <$> (served 1 (length scenario_questions) scenario_questions
                  scenario_presses
                ++ [CallbackHandlers.Completion;
                    CallbackHandlers.Results assessment;
                    CallbackHandlers.RestartOffer])%list,
         {| world_sessions :=
              <[42 := (SessionService.createSession final_press.1 42
                         (Some "learner") ∅).1]> scenario_started;
            world_heap := state20 |})
    ∧ Session.answers final = zip_with pressed scenario_questions scenario_presses
    ∧ AssessmentService.totalQuestions assessment = length scenario_questions.
Proof.
  apply (test_run_completes scenario_handlers no_test_config 0%nat state20
           scenario_started 42 (session_on scenario_questions [] 0)
           scenario_presses); try reflexivity; try done.
  - intros q Hq. unfold scenario_questions in Hq. simpl in Hq.
    repeat (apply elem_of_cons in Hq as [->|Hq]);
      [..|by apply elem_of_nil in Hq]; (split; [simpl; lia|reflexivity]).
  - intros p Hp. unfold scenario_presses in Hp.
    repeat (apply elem_of_cons in Hp as [->|Hp]);
      [..|by apply elem_of_nil in Hp]; simpl; lia.
Defined.

(** ** Starting a test *)

(** X14. The Start Test button. Without a session it is answered with
    the session-expired notice: no session is created, no question is
    selected and no random number is drawn. With a session, of any state,
    the questions of the session are replaced by a new selection from the
    bank and its state becomes in progress, while its answers, its
    cursor and its score are kept as they are: the progress of a test
    that was under way is not reset. The question under the cursor in
    the new selection is then sent, numbered by the cursor; when the
    selection has none there, the test is completed at once. *)
Theorem handleStartTest_keeps_progress handlers test this_questions now
    userId (sessions : gmap Z Session.t) σ bank :
  Heap.arrays σ !! this_questions = Some bank →
  valid_draws σ →
  (sessions !! userId = None →
   CallbackHandlers.handleStartTest handlers test this_questions now userId
     sessions σ
   = (([CallbackHandlers.Sent CallbackHandlers.SessionExpired], sessions), σ))
  ∧ (∀ session,
       sessions !! userId = Some session →
       ∃ r σ' selected started,
         QuestionService.selectQuestionsForTest this_questions
           (CallbackHandlers.selectConfig test) σ = (r, σ')
         ∧ Heap.arrays σ' !! r = Some selected
         ∧ (∀ q, q ∈ selected → q ∈ bank)
         ∧ Session.questions started = selected
         ∧ Session.state started = Session.in_progress
         ∧ Session.answers started = Session.answers session
         ∧ Session.currentQuestion started = Session.currentQuestion session
         ∧ Session.score started = Session.score session
         ∧ Session.userId started = Session.userId session
         ∧ Session.username started = Session.username session
         ∧ Session.startTime started = Session.startTime session
         ∧ CallbackHandlers.handleStartTest handlers test this_questions now
             userId sessions σ
           = (let '(messages, sessions') :=
                CallbackHandlers.sendQuestion handlers now userId
                  (<[userId := started]> sessions) in
              (CallbackHandlers.Instructions
               :: (CallbackHandlers.Sent <$> messages), sessions'), σ')
         ∧ (∀ q, selected !! Session.currentQuestion session = Some q →
              CallbackHandlers.handleStartTest handlers test this_questions
                now userId sessions σ
              = (([CallbackHandlers.Instructions;
                   CallbackHandlers.Sent
                     (CallbackHandlers.QuestionSent q
                        (Session.currentQuestion session + 1)
                        (length selected))],
                  <[userId := started]> sessions), σ'))
         ∧ (selected !! Session.currentQuestion session = None →
              ∃ messages fresh,
                CallbackHandlers.handleStartTest handlers test this_questions
                  now userId sessions σ
                = ((CallbackHandlers.Instructions
                    :: (CallbackHandlers.Sent <$> messages),
                    <[userId := fresh]> sessions), σ')
                ∧ Session.state fresh = Session.ready
                ∧ Session.answers fresh = [])).
Proof.
  intros Hbank Hvalid. split.
  { intros Hnone. unfold CallbackHandlers.handleStartTest,
      SessionService.getSession. by rewrite Hnone. }
  intros session Hsession.
  destruct (selectQuestionsForTest_spec this_questions
              (CallbackHandlers.selectConfig test) σ bank Hbank Hvalid)
    as (r & σ' & chosen & selected & Hselect & Hr & Hperm & Hdrawn & _).
  set (started :=
         Session.spread
           (Session.spread session
              {| Session.set_questions := Some selected;
                 Session.set_state := None;
                 Session.set_isComplete := None;
                 Session.set_endTime := None |})
           {| Session.set_questions := None;
              Session.set_state := Some Session.in_progress;
              Session.set_isComplete := None;
              Session.set_endTime := None |}).
  assert (CallbackHandlers.handleStartTest handlers test this_questions now
            userId sessions σ
          = (let '(messages, sessions') :=
               CallbackHandlers.sendQuestion handlers now userId
                 (<[userId := started]> sessions) in
             (CallbackHandlers.Instructions
              :: (CallbackHandlers.Sent <$> messages), sessions'), σ'))
    as Hrun.
  { unfold CallbackHandlers.handleStartTest, SessionService.getSession.
    rewrite Hsession.
    erewrite bind_run_eq; [|exact Hselect].
    erewrite bind_run_eq; [|unfold Heap.read; by rewrite Hr].
    unfold SessionService.setQuestions, SessionService.updateSession,
      SessionService.getSession.
    rewrite Hsession. cbn [snd]. rewrite lookup_insert_eq. cbn [snd].
    rewrite insert_insert_eq. fold started.
    by destruct (CallbackHandlers.sendQuestion _ _ _ _). }
  exists r, σ', selected, started.
  split; [exact Hselect|]. split; [exact Hr|].
  split.
  { intros q Hq. eapply (drawn_elem_of bank _ chosen); [exact Hdrawn|].
    by rewrite <- Hperm. }
  do 8 (split; [reflexivity|]).
  split; [exact Hrun|]. split.
  - intros q Hq. rewrite Hrun.
    unfold CallbackHandlers.sendQuestion, SessionService.getSession.
    rewrite lookup_insert_eq. simpl. by rewrite Hq.
  - intros Hq. rewrite Hrun.
    unfold CallbackHandlers.sendQuestion, SessionService.getSession.
    rewrite lookup_insert_eq. simpl. rewrite Hq.
    rewrite (completeTest_cache handlers now userId _ started)
      by apply lookup_insert_eq.
    rewrite insert_insert_eq.
    eexists _, _. split; [reflexivity|]. done.
Qed.

Lemma handleStartTest_keeps_progress_witness :
  CallbackHandlers.handleStartTest scenario_handlers no_test_config 0%nat
    "2024-05-01T10:00:30.000Z" 7 scenario_started state20
  = (([CallbackHandlers.Sent CallbackHandlers.SessionExpired],
      scenario_started), state20).
Proof.
  apply (handleStartTest_keeps_progress scenario_handlers no_test_config
           0%nat "2024-05-01T10:00:30.000Z" 7 scenario_started state20
           bank20).
  - reflexivity.
  - intros n. unfold Random.in_unit_interval. simpl. lia.
  - reflexivity.
Defined.

(** ** The commands *)

(** X15. The commands and the session of the user. /start leaves a test
    in progress as it is, with a warning, and replaces any other session,
    or none, by a new one; /restart replaces the session by a new one
    whatever its state; /cancel removes it. After /cancel the Start Test
    button and every answer button are answered with the session-expired
    notice and create no session, and a text that is no command is
    answered with the greeting. No command touches the session of
    another user. *)
Theorem commands_and_the_session now userId username
    (sessions : gmap Z Session.t) :
  let fresh :=
    (SessionService.createSession now userId username ∅).1 in
  (∀ session,
     sessions !! userId = Some session →
     Session.state session = Session.in_progress →
     CommandHandlers.handleStart now userId username sessions
     = ([CommandHandlers.ActiveTest], sessions)
     ∧ QuickEnglishLevelBot.handleUnrecognizedMessage userId sessions
       = [QuickEnglishLevelBot.SelectAnAnswer])
  ∧ ((∀ session, sessions !! userId = Some session →
                 Session.state session ≠ Session.in_progress) →
     CommandHandlers.handleStart now userId username sessions
     = ([CommandHandlers.Welcome], <[userId := fresh]> sessions))
  ∧ CommandHandlers.handleRestart now userId username sessions
    = ([CommandHandlers.Restarted], <[userId := fresh]> sessions)
  ∧ CommandHandlers.handleCancel userId sessions
    = ([CommandHandlers.Cancelled], delete userId sessions)
  ∧ (∀ handlers test this_questions now' data σ,
       data = "start_test" ∨ JsString.startsWith "answer_" data = true →
       CallbackHandlers.handleCallback handlers test this_questions now'
         userId data (CommandHandlers.handleCancel userId sessions).2 σ
       = (([CallbackHandlers.Sent CallbackHandlers.SessionExpired],
           delete userId sessions), σ))
  ∧ QuickEnglishLevelBot.handleUnrecognizedMessage userId
      (CommandHandlers.handleCancel userId sessions).2
    = [QuickEnglishLevelBot.Greeting].
Proof.
  cbv zeta. split; [|split; [|split; [|split; [|split]]]].
  - intros session Hsession Hstate.
    unfold CommandHandlers.handleStart, SessionService.hasSession,
      QuickEnglishLevelBot.handleUnrecognizedMessage,
      SessionService.getSession.
    rewrite Hsession, Hstate.
    by rewrite !bool_decide_eq_true_2.
  - intros Hstate.
    unfold CommandHandlers.handleStart, SessionService.hasSession,
      SessionService.getSession.
    destruct (sessions !! userId) as [session|] eqn:Hsession.
    + rewrite bool_decide_eq_true_2 by done.
      by rewrite bool_decide_eq_false_2 by (by apply Hstate).
    + by rewrite bool_decide_eq_false_2 by (by intros [? ?]).
  - unfold CommandHandlers.handleRestart, SessionService.resetSession. simpl.
    f_equal. apply insert_delete_eq.
  - done.
  - intros handlers test this_questions now' data σ Hdata. simpl.
    unfold CallbackHandlers.handleCallback.
    destruct Hdata as [->|Hdata].
    + rewrite bool_decide_eq_true_2 by done.
      unfold CallbackHandlers.handleStartTest, SessionService.getSession.
      by rewrite lookup_delete_eq.
    + rewrite Hdata.
      assert (data ≠ "start_test") as H1 by (by intros ->).
      assert (data ≠ "show_instructions") as H2 by (by intros ->).
      rewrite !bool_decide_eq_false_2 by done.
      unfold CallbackHandlers.handleAnswer,
        CallbackHandlers.handleAnswer_record, SessionService.getSession.
      by rewrite lookup_delete_eq.
  - unfold QuickEnglishLevelBot.handleUnrecognizedMessage,
      SessionService.getSession. simpl. by rewrite lookup_delete_eq.
Qed.

(** ** Helpers *)

Lemma escapeEach_head s c rest :
  Helpers.escapeEach s = String c rest → Helpers.markdownSpecial c = false.
Proof.
  destruct s as [|d s]; [done|]. simpl.
  destruct (Helpers.markdownSpecial d) eqn:Hd; intros [= <- _];
    [by vm_compute|done].
Qed.

Lemma escapeEach_inj s : ∀ t,
  Helpers.escapeEach s = Helpers.escapeEach t → s = t.
Proof.
  induction s as [|c s IH]; intros [|d t]; simpl.
  - done.
  - by destruct (Helpers.markdownSpecial d).
  - by destruct (Helpers.markdownSpecial c).
  - destruct (Helpers.markdownSpecial c) eqn:Hc,
      (Helpers.markdownSpecial d) eqn:Hd.
    + intros [= -> H]. f_equal. by apply IH.
    + intros [= <- H]. symmetry in H. apply escapeEach_head in H. congruence.
    + intros [= -> H]. apply escapeEach_head in H. congruence.
    + intros [= -> H]. f_equal. by apply IH.
Qed.

Lemma escapeEach_guarded s : ∀ escaped,
  guarded escaped (Helpers.escapeEach s) = true.
Proof.
  induction s as [|c s IH]; intros escaped; [done|]. simpl.
  destruct (Helpers.markdownSpecial c) eqn:Hc; simpl.
  - rewrite orb_true_r. simpl. apply IH.
  - rewrite Hc, orb_true_r. simpl. apply IH.
Qed.

Lemma escapeEach_length s :
  String.length (Helpers.escapeEach s) = (String.length s + specials s)%nat.
Proof.
  induction s as [|c s IH]; [done|]. simpl.
  destruct (Helpers.markdownSpecial c); simpl; rewrite IH; lia.
Qed.

Lemma escapeEach_id s :
  Helpers.escapeEach s = s ↔ specials s = 0%nat.
Proof.
  split.
  - intros Heq. pose proof (escapeEach_length s) as Hlen.
    rewrite Heq in Hlen. lia.
  - induction s as [|c s IH]; [done|]. simpl.
    destruct (Helpers.markdownSpecial c); [done|].
    intros Hs. by rewrite IH.
Qed.

(** X16. [escapeMarkdown] puts one backslash before each of the eighteen
    characters of its class and changes nothing else. In its result
    every character of the class is preceded by a backslash; the result
    is longer than the text by the number of those characters, and equal
    to the text just when it has none; two different texts have different
    results, so the text can be recovered; and a missing text, like the
    empty one, gives the empty string. Escaping twice is not escaping
    once: the characters escaped the first time are escaped again. *)
Theorem escapeMarkdown_escapes text :
  guarded false (Helpers.escapeMarkdown (Some text)) = true
  ∧ String.length (Helpers.escapeMarkdown (Some text))
    = (String.length text + specials text)%nat
  ∧ (Helpers.escapeMarkdown (Some text) = text ↔ specials text = 0%nat)
  ∧ (∀ text', Helpers.escapeMarkdown (Some text)
              = Helpers.escapeMarkdown (Some text') → text = text')
  ∧ Helpers.escapeMarkdown None = EmptyString
  ∧ Helpers.escapeMarkdown (Some EmptyString) = EmptyString
  ∧ specials (Helpers.escapeMarkdown (Some text)) = specials text.
Proof.
  simpl. split; [apply escapeEach_guarded|].
  split; [apply escapeEach_length|]. split; [apply escapeEach_id|].
  split; [apply escapeEach_inj|]. split; [done|]. split; [done|].
  induction text as [|c s IH]; [done|]. simpl.
  destruct (Helpers.markdownSpecial c) eqn:Hc; simpl; rewrite ?Hc, IH; done.
Qed.

Lemma string_length_app s t :
  String.length (s +:+ t) = (String.length s + String.length t)%nat.
Proof. induction s as [|c s IH]; simpl; [done|by rewrite IH]. Qed.

Lemma string_length_substring0 n s :
  String.length (String.substring 0 n s) = (n `min` String.length s)%nat.
Proof.
  revert n. induction s as [|c s IH]; intros [|n]; simpl; try done.
  by rewrite IH.
Qed.

Lemma substring0_prefix n s :
  String.prefix (String.substring 0 n s) s = true.
Proof.
  revert n. induction s as [|c s IH]; intros [|n]; simpl; try done.
  destruct (ascii_dec c c); [apply IH|done].
Qed.

(** X17. [truncateText] with an integer [maxLength]. A text that fits is
    returned as it is. A longer text is cut to [maxLength - suffix.length]
    characters, to which the suffix is added: when the suffix fits the
    result has exactly [maxLength] characters; when [maxLength] is less
    than the length of the suffix, or negative, the result is the suffix
    alone, which is longer than [maxLength]. So the result is longer than
    [maxLength] only in that case, and never longer than the longer of
    the text and the suffix. *)
Theorem truncateText_length text maxLength suffix :
  let result := Helpers.truncateText text maxLength suffix in
  let len s := Z.of_nat (String.length s) in
  (len text ≤ maxLength → result = text)
  ∧ (maxLength < len text → len suffix ≤ maxLength →
     len result = maxLength
     ∧ result
       = String.substring 0 (Z.to_nat (maxLength - len suffix)) text
         +:+ suffix)
  ∧ (text ≠ EmptyString → maxLength < len text → maxLength < len suffix →
     result = suffix)
  ∧ (text = EmptyString → result = EmptyString)
  ∧ len result ≤ Z.max (len text) (len suffix).
Proof.
  cbv zeta. unfold Helpers.truncateText.
  split; [|split; [|split; [|split]]].
  - intros Hfit. rewrite (bool_decide_eq_true_2 (_ ≤ _)) by done.
    by rewrite orb_true_r.
  - intros Hlong Hsuffix.
    assert (text ≠ EmptyString) as Hne by (intros ->; simpl in *; lia).
    rewrite !bool_decide_eq_false_2 by (done || lia). simpl.
    split; [|done].
    rewrite string_length_app, string_length_substring0. lia.
  - intros Hne Hlong Hsuffix.
    rewrite !bool_decide_eq_false_2 by (done || lia). simpl.
    replace (Z.to_nat _) with 0%nat by lia.
    by destruct text.
  - by intros ->.
  - destruct (bool_decide (text = EmptyString)
              || bool_decide (Z.of_nat (String.length text) ≤ maxLength))
      eqn:Hfit; [lia|].
    apply orb_false_elim in Hfit as [_ Hfit].
    apply bool_decide_eq_false in Hfit.
    rewrite string_length_app, string_length_substring0. lia.
Qed.

Section HelperRuns.
Import Heap.

(** The loop of [shuffleArray] draws one random number for each of its
    rounds. *)
Lemma shuffle_loop_calls (shuffled : ref) i : ∀ σ xs,
  arrays σ !! shuffled = Some xs →
  (i ≤ length xs - 1)%nat →
  valid_draws σ →
  calls (for_down i (λ i, r ← random;
                          swap shuffled i (Random.floor_mul r (i + 1))) σ).2
  = (calls σ + i)%nat.
Proof.
  induction i as [|i IH]; intros σ xs Hxs Hi Hvalid.
  - simpl. lia.
  - rewrite for_down_S, bind_run. unfold random at 1 2. cbn [fst snd].
    set (j := Random.floor_mul (draws σ (calls σ)) (S i + 1)).
    assert (j < S i + 1)%nat as Hj by (apply floor_mul_lt; [done|lia]).
    destruct (lookup_lt_is_Some_2 xs j) as [xj Hxj]; [lia|].
    destruct (lookup_lt_is_Some_2 xs (S i)) as [xi Hxi]; [lia|].
    rewrite (swap_run shuffled (S i) j _ xs xi xj); [|done..].
    cbn [fst snd arrays draws calls].
    erewrite IH.
    + simpl. lia.
    + simpl. apply list_lookup_insert_eq. by eapply lookup_lt_Some.
    + rewrite !length_insert. lia.
    + done.
Qed.

(** X18. [shuffleArray], in the question service and in the helpers:
    for random numbers of [0, 1) the result is a new array that holds the
    elements of the argument in some order, none lost and none repeated;
    the argument and every other array are left as they were; and one
    random number is drawn for each element but the first. An array of
    at most one element is copied as it is. *)
Theorem shuffleArray_rearranges (array : ref) σ xs :
  arrays σ !! array = Some xs →
  valid_draws σ →
  ∃ σ' xs',
    QuestionService.shuffleArray array σ = (length (arrays σ), σ')
    ∧ Helpers.shuffleArray array σ = (length (arrays σ), σ')
    ∧ arrays σ' = (arrays σ ++ [xs'])%list
    ∧ xs' ≡ₚ xs
    ∧ calls σ' = (calls σ + (length xs - 1))%nat
    ∧ ((length xs ≤ 1)%nat → xs' = xs).
Proof.
  intros Hxs Hvalid.
  destruct (shuffleArray_spec array σ xs Hxs Hvalid)
    as (σ' & xs' & Hrun & Harrays & Hperm & _).
  exists σ', xs'. split; [exact Hrun|]. split; [exact Hrun|].
  split; [exact Harrays|]. split; [exact Hperm|]. split.
  - assert (σ' = (QuestionService.shuffleArray array σ).2) as ->
      by (by rewrite Hrun).
    unfold QuestionService.shuffleArray.
    rewrite !bind_run. simpl. rewrite Hxs. simpl.
    erewrite (shuffle_loop_calls _ _ _ xs); [done| |done|done].
    simpl. by rewrite list_lookup_middle.
  - intros Hlen. destruct xs as [|x [|y xs]]; simpl in Hlen; try lia.
    + by apply Permutation_nil_r in Hperm.
    + by apply Permutation_singleton_r in Hperm.
Qed.

Lemma shuffleArray_rearranges_witness :
  ∃ σ' xs',
    QuestionService.shuffleArray 0%nat state20 = (1%nat, σ')
    ∧ Helpers.shuffleArray 0%nat state20 = (1%nat, σ')
    ∧ arrays σ' = (arrays state20 ++ [xs'])%list
    ∧ xs' ≡ₚ bank20
    ∧ calls σ' = (calls state20 + (length bank20 - 1))%nat
    ∧ ((length bank20 ≤ 1)%nat → xs' = bank20).
Proof.
  apply (shuffleArray_rearranges 0%nat state20 bank20); [reflexivity|].
  intros n. unfold Random.in_unit_interval. simpl. lia.
Defined.

Lemma string_get_lt s i :
  (i < String.length s)%nat → ∃ c, String.get i s = Some c
                                   ∧ c ∈ String.list_ascii_of_string s.
Proof.
  revert i. induction s as [|c s IH]; intros i Hi; simpl in Hi; [lia|].
  destruct i as [|i]; simpl.
  - exists c. split; [done|constructor].
  - destruct (IH i) as (d & Hd & Hin); [lia|].
    exists d. split; [done|by constructor].
Qed.

Lemma chars_in_app alphabet s t :
  chars_in alphabet (s +:+ t)
  = chars_in alphabet s && chars_in alphabet t.
Proof.
  induction s as [|c s IH]; [done|]. simpl. by rewrite IH, andb_assoc.
Qed.

Lemma string_app_nil_r s : s +:+ EmptyString = s.
Proof.
  induction s as [|c s IH]; [done|].
  change (String c (s +:+ EmptyString) = String c s). by rewrite IH.
Qed.

Lemma string_app_snoc r c t :
  (r +:+ String c EmptyString) +:+ t = r +:+ String c t.
Proof.
  induction r as [|d r IH]; [done|].
  change (String d ((r +:+ String c EmptyString) +:+ t)
          = String d (r +:+ String c t)).
  by rewrite IH.
Qed.

Lemma generateId_loop_run n : ∀ result σ,
  valid_draws σ →
  ∃ added,
    Helpers.generateId_loop n result σ
    = (result +:+ added,
       {| arrays := arrays σ; draws := draws σ;
          calls := (calls σ + n)%nat |})
    ∧ String.length added = n
    ∧ chars_in Helpers.idChars added = true.
Proof.
  induction n as [|n IH]; intros result σ Hvalid.
  - exists EmptyString. simpl. destruct σ. simpl.
    rewrite Nat.add_0_r, string_app_nil_r. done.
  - cbn [Helpers.generateId_loop]. rewrite bind_run.
    unfold random at 1 2. cbn [fst snd draws calls].
    set (i := Random.floor_mul (draws σ (calls σ))
                (String.length Helpers.idChars)).
    assert (i < String.length Helpers.idChars)%nat as Hi.
    { apply floor_mul_lt; [done|]. simpl. lia. }
    destruct (string_get_lt _ _ Hi) as (c & Hc & Hin).
    unfold Helpers.charAt. rewrite Hc.
    destruct (IH (result +:+ String c EmptyString)
                {| arrays := arrays σ; draws := draws σ;
                   calls := S (calls σ) |}) as (added & Hrun & Hlen & Hchars).
    { done. }
    rewrite Hrun. exists (String c added). simpl.
    split; [|split; [by rewrite Hlen|]].
    + rewrite string_app_snoc. do 2 f_equal. lia.
    + by rewrite bool_decide_eq_true_2, Hchars.
Qed.

(** X19. [generateId(length)] for random numbers of [0, 1): an id of
    exactly [length] characters, each a letter or a digit of the 62 of
    its alphabet; it draws [length] random numbers and changes no
    array. *)
Theorem generateId_alphanumeric n σ :
  valid_draws σ →
  ∃ id,
    Helpers.generateId n σ
    = (id, {| arrays := arrays σ; draws := draws σ;
              calls := (calls σ + n)%nat |})
    ∧ String.length id = n
    ∧ chars_in Helpers.idChars id = true
    ∧ String.length Helpers.idChars = 62%nat.
Proof.
  intros Hvalid.
  destruct (generateId_loop_run n EmptyString σ Hvalid)
    as (id & Hrun & Hlen & Hchars).
  exists id. by repeat split.
Qed.

Lemma generateId_alphanumeric_witness :
  ∃ id,
    Helpers.generateId 8 state20
    = (id, {| arrays := arrays state20; draws := draws state20;
              calls := (calls state20 + 8)%nat |})
    ∧ String.length id = 8%nat
    ∧ chars_in Helpers.idChars id = true
    ∧ String.length Helpers.idChars = 62%nat.
Proof.
  apply generateId_alphanumeric.
  intros n. unfold Random.in_unit_interval. simpl. lia.
Defined.

End HelperRuns.

(** ** The patterns of the monitor *)

Section RegExpProofs.
Import JsRegExp.

Lemma string_app_cons c s t : String c s +:+ t = String c (s +:+ t).
Proof. reflexivity. Qed.

Lemma string_app_nil_l s : EmptyString +:+ s = s.
Proof. reflexivity. Qed.

Lemma string_app_assoc s t u : (s +:+ t) +:+ u = s +:+ (t +:+ u).
Proof.
  induction s as [|c s IH]; [done|].
  rewrite !string_app_cons. by rewrite IH.
Qed.

Lemma exec_cons nodes c s :
  exec nodes (String c s)
  = match matchHere nodes (String c s) None with
    | Some r => Some r
    | None => exec nodes s
    end.
Proof. reflexivity. Qed.

Lemma exec_here nodes s r :
  matchHere nodes s None = Some r → exec nodes s = Some r.
Proof. intros H. destruct s; simpl; by rewrite H. Qed.

Lemma matchHere_chars label tail x cap :
  matchHere (chars label ++ tail) (label +:+ x) cap = matchHere tail x cap.
Proof.
  induction label as [|c l IH]; [done|].
  rewrite string_app_cons. cbn [chars app matchHere].
  by rewrite bool_decide_eq_true_2.
Qed.

Lemma matchHere_mismatch label tail : ∀ s rest cap,
  mismatch label s = true →
  matchHere (chars label ++ tail) (s +:+ rest) cap = None.
Proof.
  induction label as [|c l IH]; intros [|d s] rest cap; try done.
  cbn [mismatch]. rewrite string_app_cons. cbn [chars app matchHere].
  case_bool_decide; [apply IH|done].
Qed.

Lemma exec_skip_clear label tail seg rest :
  clear_of label seg = true →
  exec (chars label ++ tail) (seg +:+ rest) = exec (chars label ++ tail) rest.
Proof.
  induction seg as [|d seg IH]; [done|].
  cbn [clear_of]. intros [Hd Hseg]%andb_prop.
  rewrite string_app_cons, exec_cons, <- string_app_cons.
  rewrite matchHere_mismatch by done. by apply IH.
Qed.

Lemma clear_of_free c label seg :
  free_of c seg = true → clear_of (String c label) seg = true.
Proof.
  induction seg as [|d seg IH]; [done|].
  cbn [free_of clear_of mismatch]. intros [Hd Hseg]%andb_prop.
  apply negb_true_iff, bool_decide_eq_false in Hd.
  rewrite bool_decide_eq_false_2 by congruence. simpl. by apply IH.
Qed.

Lemma matchHere_word_run label tail sep rest cap : ∀ w,
  stops label sep = true →
  inClass Word sep = false →
  allIn Word w = true →
  matchHere (chars label ++ tail) (w +:+ String sep rest) cap = None.
Proof.
  induction label as [|c l IH]; intros w Hstops Hsep Hw; [done|].
  cbn [stops] in Hstops.
  destruct w as [|x w].
  - rewrite string_app_nil_l. cbn [chars app matchHere].
    destruct (decide (c = sep)) as [Hc|Hc].
    + rewrite Hc, Hsep in Hstops.
      by rewrite bool_decide_eq_true_2 in Hstops.
    + by rewrite bool_decide_eq_false_2.
  - rewrite string_app_cons. cbn [chars app matchHere].
    cbn [allIn] in Hw. apply andb_prop in Hw as [Hx Hw].
    destruct (decide (c = x)) as [Hc|Hc].
    + rewrite bool_decide_eq_true_2 by done.
      rewrite Hc, Hx in Hstops. by apply IH.
    + by rewrite bool_decide_eq_false_2.
Qed.

Lemma exec_skip_word label tail sep rest : ∀ w,
  stops label sep = true →
  inClass Word sep = false →
  allIn Word w = true →
  exec (chars label ++ tail) (w +:+ String sep rest)
  = exec (chars label ++ tail) (String sep rest).
Proof.
  induction w as [|x w IH]; intros Hstops Hsep Hw; [done|].
  rewrite string_app_cons, exec_cons, <- string_app_cons.
  rewrite matchHere_word_run by done.
  cbn [allIn] in Hw. apply andb_prop in Hw as [_ Hw]. by apply IH.
Qed.

Lemma plus_run {R} cls (continue : string → string → option R) sep rest r :
  ∀ chunk taken,
    chunk ≠ EmptyString →
    allIn cls chunk = true →
    inClass cls sep = false →
    continue (String sep rest) (taken +:+ chunk) = Some r →
    plus cls continue (chunk +:+ String sep rest) taken = Some r.
Proof.
  induction chunk as [|c chunk IH]; intros taken Hne Hrun Hsep Hk; [done|].
  cbn [allIn] in Hrun. apply andb_prop in Hrun as [Hc Hrun].
  rewrite string_app_cons. cbn [plus]. rewrite Hc.
  destruct chunk as [|d chunk].
  - rewrite string_app_nil_l. cbn [plus]. by rewrite Hsep.
  - rewrite (IH (taken +:+ String c EmptyString)); try done.
    by rewrite string_app_snoc.
Qed.

Lemma matchHere_group cls tail run sep rest cap r :
  run ≠ EmptyString →
  allIn cls run = true →
  inClass cls sep = false →
  matchHere tail (String sep rest) (Some run) = Some r →
  matchHere (Group cls :: tail) (run +:+ String sep rest) cap = Some r.
Proof.
  intros Hne Hrun Hsep Hk. cbn [matchHere].
  by apply plus_run.
Qed.

Lemma matchHere_group_fail cls tail c rest cap :
  inClass cls c = false →
  matchHere (Group cls :: tail) (String c rest) cap = None.
Proof. intros Hc. cbn [matchHere plus]. by rewrite Hc. Qed.

Lemma matchHere_opt_take c tail rest cap r :
  matchHere tail rest cap = Some r →
  matchHere (Opt c :: tail) (String c rest) cap = Some r.
Proof.
  intros H. cbn [matchHere]. rewrite bool_decide_eq_true_2 by done.
  by rewrite H.
Qed.

Lemma matchHere_chr c tail rest cap :
  matchHere (Chr c :: tail) (String c rest) cap = matchHere tail rest cap.
Proof. cbn [matchHere]. by rewrite bool_decide_eq_true_2. Qed.

End RegExpProofs.

Section MonitorProofs.
Import JsRegExp.

Lemma exec_skip_word_str label tail sep more rest w :
  stops label sep = true →
  inClass Word sep = false →
  allIn Word w = true →
  exec (chars label ++ tail) (w +:+ (String sep more +:+ rest))
  = exec (chars label ++ tail) (String sep more +:+ rest).
Proof. rewrite string_app_cons. apply exec_skip_word. Qed.

Lemma matchHere_group_str cls tail run sep more rest cap r :
  run ≠ EmptyString →
  allIn cls run = true →
  inClass cls sep = false →
  matchHere tail (String sep more +:+ rest) (Some run) = Some r →
  matchHere (Group cls :: tail) (run +:+ (String sep more +:+ rest)) cap
  = Some r.
Proof. rewrite string_app_cons. apply matchHere_group. Qed.

Lemma matchHere_opt_str c tail more rest cap r :
  matchHere tail (more +:+ rest) cap = Some r →
  matchHere (Opt c :: tail) (String c more +:+ rest) cap = Some r.
Proof. rewrite string_app_cons. apply matchHere_opt_take. Qed.

Lemma matchHere_chr_str c tail more rest cap :
  matchHere (Chr c :: tail) (String c more +:+ rest) cap
  = matchHere tail (more +:+ rest) cap.
Proof. rewrite string_app_cons. apply matchHere_chr. Qed.

(** The pattern is found in a segment that holds its label, none of
    which begins before. *)
Lemma exec_found label tail pre post seg rest r :
  seg = pre +:+ (label +:+ post) →
  clear_of label pre = true →
  matchHere tail (post +:+ rest) None = Some r →
  exec (chars label ++ tail) (seg +:+ rest) = Some r.
Proof.
  intros -> Hpre Hmatch. rewrite !string_app_assoc.
  rewrite exec_skip_clear by done.
  apply exec_here. by rewrite matchHere_chars.
Qed.

Lemma exec_clear_end label tail seg :
  label ≠ EmptyString →
  clear_of label seg = true →
  exec (chars label ++ tail) seg = None.
Proof.
  intros Hne Hclear. rewrite <- (string_app_nil_r seg).
  rewrite exec_skip_clear by done.
  by destruct label.
Qed.

Lemma free_of_app c s t :
  free_of c (s +:+ t) = free_of c s && free_of c t.
Proof.
  induction s as [|d s IH]; [done|].
  rewrite string_app_cons. cbn [free_of]. by rewrite IH, andb_assoc.
Qed.

Lemma allIn_string_of_uint d :
  allIn Digit (NilEmpty.string_of_uint d) = true.
Proof. induction d; simpl; done. Qed.

Lemma ofInteger_digits z :
  0 ≤ z →
  allIn Digit (JsString.ofInteger z) = true
  ∧ JsString.ofInteger z ≠ EmptyString.
Proof.
  intros Hz. unfold JsString.ofInteger.
  destruct z as [|p|p]; [done| |lia]. simpl.
  pose proof (DecimalPos.Unsigned.to_uint_nonnil p) as Hnil.
  destruct (Pos.to_uint p) eqn:Hp; try done;
    (split; [apply (allIn_string_of_uint (_ _))|done]).
Qed.

Lemma free_of_uint c d :
  inClass Digit c = false → free_of c (NilEmpty.string_of_uint d) = true.
Proof.
  intros Hc. induction d; simpl; rewrite ?IHd, ?andb_true_r; try done;
    apply negb_true_iff, bool_decide_eq_false; intros <-; done.
Qed.

Lemma free_of_ofInteger_letter c z :
  inClass Digit c = false → c ≠ "-"%char →
  free_of c (JsString.ofInteger z) = true.
Proof.
  intros Hc Hminus. unfold JsString.ofInteger.
  assert (∀ d, free_of c (NilZero.string_of_uint d) = true) as Hd.
  { intros d. destruct d; try apply (free_of_uint c (_ _)); try done.
    simpl. rewrite andb_true_r.
    apply negb_true_iff, bool_decide_eq_false. by intros <-. }
  destruct z as [|p|p]; simpl.
  - rewrite andb_true_r.
    apply negb_true_iff, bool_decide_eq_false. by intros <-.
  - apply Hd.
  - rewrite Hd, andb_true_r.
    apply negb_true_iff, bool_decide_eq_false. congruence.
Qed.

End MonitorProofs.

Section MonitorRoundTrip.
Import JsRegExp.

Lemma formatMonitoringMessage_text localeNow durationMs session assessment :
  AssessmentService.formatMonitoringMessage localeNow durationMs session
    assessment
  = monitoring_text (JsString.ofInteger (Session.userId session))
      (username_line (Session.username session)) localeNow
      (AssessmentService.level assessment)
      (JsString.ofNumber (AssessmentService.percentageScore assessment))
      (JsString.ofInteger
         (Z.of_nat (AssessmentService.correctAnswers assessment)))
      (JsString.ofInteger
         (Z.of_nat (AssessmentService.totalQuestions assessment)))
      (JsString.ofProperty
         (AssessmentService.categoryPercentages assessment !! "vocabulary"))
      (JsString.ofProperty
         (AssessmentService.categoryPercentages assessment !! "grammar"))
      (AssessmentService.calculateDuration durationMs).
Proof.
  unfold AssessmentService.formatMonitoringMessage, monitoring_text,
    username_line, Js.or_null.
  cbv zeta.
  destruct (Session.username session) as [u|]; [|done].
  by destruct (bool_decide (u = EmptyString)).
Qed.

Lemma allIn_Digit_free c d :
  inClass Digit c = false → allIn Digit d = true → free_of c d = true.
Proof.
  intros Hc. induction d as [|x d IH]; [done|].
  cbn [allIn free_of]. intros [Hx Hd]%andb_prop.
  rewrite IH, andb_true_r by done.
  apply negb_true_iff, bool_decide_eq_false. intros ->. congruence.
Qed.

Lemma allIn_Digit_Word d : allIn Digit d = true → allIn Word d = true.
Proof.
  induction d as [|x d IH]; [done|].
  cbn [allIn]. intros [Hx Hd]%andb_prop. rewrite IH by done.
  unfold inClass in *. by rewrite Hx.
Qed.

Lemma or_null_Some username u :
  Js.or_null username = Some u → username = Some u ∧ u ≠ EmptyString.
Proof.
  unfold Js.or_null. destruct username as [v|]; [|done].
  case_bool_decide; [done|]. by intros [= ->].
Qed.

(** The line of the user name holds the beginning of no label but its
    own. *)
Lemma exec_skip_username_line label tail username rest :
  clear_of label "👤 Username: @" = true →
  stops label "010" = true →
  clear_of label JsString.LF = true →
  (∀ u, username = Some u → allIn Word u = true) →
  exec (chars label ++ tail) (username_line username +:+ rest)
  = exec (chars label ++ tail) rest.
Proof.
  intros Hclear Hstops HLF Hword. unfold username_line.
  destruct (Js.or_null username) as [u|] eqn:Hu; [|done].
  apply or_null_Some in Hu as [-> _].
  rewrite !string_app_assoc.
  rewrite exec_skip_clear by done.
  unfold JsString.LF in *.
  rewrite exec_skip_word_str by (done || by apply Hword).
  by rewrite exec_skip_clear.
Qed.

(** One step over a segment in which the label does not begin. *)
Ltac skip :=
  first
    [ rewrite exec_skip_clear by reflexivity
    | rewrite exec_skip_clear
        by (apply clear_of_free, allIn_Digit_free; [reflexivity|assumption])
    | rewrite exec_skip_clear by (apply clear_of_free; assumption)
    | rewrite exec_skip_word_str by first [reflexivity | assumption]
    | rewrite exec_skip_username_line by first [reflexivity | assumption] ].

Lemma exec_userId uid line date lvl score correct total vocabulary grammar
    duration :
  allIn Digit uid = true → uid ≠ EmptyString →
  exec MonitorBot.userIdPattern
    (monitoring_text uid line date lvl score correct total vocabulary grammar
       duration)
  = Some (Some uid).
Proof.
  intros Huid Hne. unfold MonitorBot.userIdPattern, monitoring_text.
  cbv zeta. unfold JsString.LF.
  do 3 skip.
  apply (exec_found "User ID: " _ "👤 " "`"); [reflexivity..|].
  apply matchHere_opt_str. rewrite string_app_nil_l.
  apply matchHere_group_str; [done..|].
  apply matchHere_opt_str. reflexivity.
Qed.

Lemma exec_username uid u date lvl score correct total vocabulary grammar
    duration :
  allIn Digit uid = true →
  allIn Word u = true → u ≠ EmptyString →
  exec MonitorBot.usernamePattern
    (monitoring_text uid (username_line (Some u)) date lvl score correct total
       vocabulary grammar duration)
  = Some (Some u).
Proof.
  intros Huid Hu Hne.
  unfold MonitorBot.usernamePattern, monitoring_text, username_line,
    Js.or_null.
  rewrite bool_decide_eq_false_2 by done.
  cbv zeta. unfold JsString.LF. rewrite !string_app_assoc.
  do 7 skip.
  apply (exec_found "Username: @" _ "👤 " EmptyString); [reflexivity..|].
  rewrite string_app_nil_l.
  apply matchHere_group_str; [done..|]. reflexivity.
Qed.

Lemma exec_level uid username date lvl score correct total vocabulary
    grammar duration :
  allIn Digit uid = true →
  (∀ u, username = Some u → allIn Word u = true) →
  free_of "L" date = true →
  allIn Word lvl = true → lvl ≠ EmptyString →
  exec MonitorBot.levelPattern
    (monitoring_text uid (username_line username) date lvl score correct total
       vocabulary grammar duration)
  = Some (Some lvl).
Proof.
  intros Huid Hu Hdate Hlvl Hne.
  unfold MonitorBot.levelPattern, monitoring_text.
  cbv zeta. unfold JsString.LF.
  do 7 skip. skip. do 6 skip.
  apply (exec_found "Level: " _ "• " "*"); [reflexivity..|].
  apply matchHere_opt_str. rewrite string_app_nil_l.
  apply matchHere_group_str; [done..|].
  apply matchHere_opt_str. reflexivity.
Qed.

Lemma exec_score uid username date lvl score correct total vocabulary
    grammar duration :
  allIn Digit uid = true →
  (∀ u, username = Some u → allIn Word u = true) →
  free_of "S" date = true →
  allIn Word lvl = true →
  allIn Digit score = true → score ≠ EmptyString →
  exec MonitorBot.scorePattern
    (monitoring_text uid (username_line username) date lvl score correct total
       vocabulary grammar duration)
  = Some (Some score).
Proof.
  intros Huid Hu Hdate Hlvl Hscore Hne.
  unfold MonitorBot.scorePattern, monitoring_text.
  cbv zeta. unfold JsString.LF.
  do 7 skip. skip. do 6 skip. do 4 skip.
  apply (exec_found "Score: " _ "• " "*"); [reflexivity..|].
  apply matchHere_opt_str. rewrite string_app_nil_l.
  apply matchHere_group_str; [done..|].
  rewrite matchHere_chr_str.
  apply matchHere_opt_str. reflexivity.
Qed.

Lemma exec_vocabulary uid username date lvl score correct total vocabulary
    grammar duration :
  allIn Digit uid = true →
  (∀ u, username = Some u → allIn Word u = true) →
  free_of "V" date = true →
  allIn Word lvl = true →
  allIn Digit score = true →
  allIn Digit correct = true → allIn Digit total = true →
  allIn Digit vocabulary = true → vocabulary ≠ EmptyString →
  exec MonitorBot.vocabPattern
    (monitoring_text uid (username_line username) date lvl score correct total
       vocabulary grammar duration)
  = Some (Some vocabulary).
Proof.
  intros Huid Hu Hdate Hlvl Hscore Hcorrect Htotal Hvocabulary Hne.
  unfold MonitorBot.vocabPattern, monitoring_text.
  cbv zeta. unfold JsString.LF.
  do 7 skip. skip. do 6 skip. do 4 skip. do 4 skip. do 5 skip.
  apply (exec_found "Vocabulary: " _ "• " EmptyString); [reflexivity..|].
  rewrite string_app_nil_l.
  apply matchHere_group_str; [done..|].
  rewrite matchHere_chr_str. reflexivity.
Qed.

Lemma exec_grammar uid username date lvl score correct total vocabulary
    grammar duration :
  allIn Digit uid = true →
  (∀ u, username = Some u → allIn Word u = true) →
  free_of "G" date = true →
  allIn Word lvl = true →
  allIn Digit score = true →
  allIn Digit correct = true → allIn Digit total = true →
  allIn Digit vocabulary = true →
  allIn Digit grammar = true → grammar ≠ EmptyString →
  exec MonitorBot.grammarPattern
    (monitoring_text uid (username_line username) date lvl score correct total
       vocabulary grammar duration)
  = Some (Some grammar).
Proof.
  intros Huid Hu Hdate Hlvl Hscore Hcorrect Htotal Hvocabulary Hgrammar Hne.
  unfold MonitorBot.grammarPattern, monitoring_text.
  cbv zeta. unfold JsString.LF.
  do 7 skip. skip. do 6 skip. do 4 skip. do 4 skip. do 5 skip. do 4 skip.
  apply (exec_found "Grammar: " _ "• " EmptyString); [reflexivity..|].
  rewrite string_app_nil_l.
  apply matchHere_group_str; [done..|].
  rewrite matchHere_chr_str. reflexivity.
Qed.

(** Without the line of the user name, no user name is found. *)
Lemma exec_no_username uid date lvl score correct total vocabulary grammar
    duration :
  allIn Digit uid = true →
  free_of "U" date = true →
  allIn Word lvl = true →
  allIn Digit score = true →
  allIn Digit correct = true → allIn Digit total = true →
  allIn Digit vocabulary = true → allIn Digit grammar = true →
  free_of "U" duration = true →
  exec MonitorBot.usernamePattern
    (monitoring_text uid EmptyString date lvl score correct total vocabulary
       grammar duration)
  = None.
Proof.
  intros Huid Hdate Hlvl Hscore Hcorrect Htotal Hvocabulary Hgrammar
    Hduration.
  unfold MonitorBot.usernamePattern, monitoring_text.
  cbv zeta. unfold JsString.LF. rewrite string_app_nil_l.
  do 7 skip. do 6 skip. do 4 skip. do 4 skip. do 5 skip. do 4 skip.
  do 5 skip.
  apply exec_clear_end; [done|]. by apply clear_of_free.
Qed.

Lemma toNumber_safe z : 0 ≤ z ≤ 2 ^ 53 → JsString.toNumber z = Js.Int z.
Proof.
  intros Hz. unfold JsString.toNumber.
  by rewrite bool_decide_eq_true_2 by lia.
Qed.

Lemma string_prefix_app part rest : String.prefix part (part +:+ rest) = true.
Proof.
  induction part as [|c part IH]; [by destruct rest|].
  rewrite string_app_cons. simpl. by destruct (ascii_dec c c).
Qed.

Lemma includes_app part pre rest :
  JsString.includes part (pre +:+ (part +:+ rest)) = true.
Proof.
  induction pre as [|c pre IH].
  - rewrite string_app_nil_l. destruct part as [|d part]; [by destruct rest|].
    rewrite string_app_cons. cbn [JsString.includes].
    rewrite <- string_app_cons. by rewrite string_prefix_app.
  - rewrite string_app_cons. cbn [JsString.includes].
    by rewrite IH, orb_true_r.
Qed.

Lemma free_of_U_ofNumber p : free_of "U" (JsString.ofNumber p) = true.
Proof.
  destruct p as [|[]|z]; try reflexivity.
  by apply free_of_ofInteger_letter.
Qed.

Lemma free_of_U_calculateDuration durationMs :
  free_of "U" (AssessmentService.calculateDuration durationMs) = true.
Proof.
  unfold AssessmentService.calculateDuration.
  destruct (Js.positive _); rewrite !free_of_app, !free_of_U_ofNumber; done.
Qed.

(** What the monitor reads in a message of the bot. *)
Lemma parseResult_formatMonitoringMessage localeNow durationMs session
    assessment now p v g :
  0 ≤ Session.userId session →
  (∀ u, Session.username session = Some u → allIn Word u = true) →
  allIn Word (AssessmentService.level assessment) = true →
  AssessmentService.level assessment ≠ EmptyString →
  AssessmentService.percentageScore assessment = Js.Int p → 0 ≤ p ≤ 2 ^ 53 →
  AssessmentService.categoryPercentages assessment !! "vocabulary"
  = Some (Js.Int v) → 0 ≤ v ≤ 2 ^ 53 →
  AssessmentService.categoryPercentages assessment !! "grammar"
  = Some (Js.Int g) → 0 ≤ g ≤ 2 ^ 53 →
  no_label_initial localeNow = true →
  MonitorBot.parseResult now
    (AssessmentService.formatMonitoringMessage localeNow durationMs session
       assessment)
  = Some {| MonitorBot.userId := JsString.ofInteger (Session.userId session);
            MonitorBot.username := Js.or_null (Session.username session);
            MonitorBot.level := AssessmentService.level assessment;
            MonitorBot.score := MonitorBot.Number (Js.Int p);
            MonitorBot.vocabulary := MonitorBot.Number (Js.Int v);
            MonitorBot.grammar := MonitorBot.Number (Js.Int g);
            MonitorBot.timestamp := now |}.
Proof.
  intros Huid Hu Hlvl Hlvl' Hp Hp' Hv Hv' Hg Hg' Hdate.
  rewrite formatMonitoringMessage_text, Hp, Hv, Hg.
  unfold no_label_initial in Hdate.
  apply andb_prop in Hdate as [Hdate HG].
  apply andb_prop in Hdate as [Hdate HV].
  apply andb_prop in Hdate as [Hdate HS].
  apply andb_prop in Hdate as [HU HL].
  cbn [JsString.ofProperty JsString.ofNumber].
  destruct (ofInteger_digits _ Huid) as [Huid1 Huid2].
  destruct (ofInteger_digits p) as [Hp1 Hp2]; [lia|].
  destruct (ofInteger_digits v) as [Hv1 Hv2]; [lia|].
  destruct (ofInteger_digits g) as [Hg1 Hg2]; [lia|].
  destruct (ofInteger_digits
              (Z.of_nat (AssessmentService.correctAnswers assessment)))
    as [Hc1 _]; [lia|].
  destruct (ofInteger_digits
              (Z.of_nat (AssessmentService.totalQuestions assessment)))
    as [Ht1 _]; [lia|].
  unfold MonitorBot.parseResult.
  rewrite exec_userId, exec_level, exec_score, exec_vocabulary, exec_grammar
    by done.
  cbn [JsRegExp.group1 default MonitorBot.parsedOrNull].
  unfold id. rewrite !parseInt_ofInteger by lia.
  f_equal. f_equal.
  destruct (Js.or_null (Session.username session)) as [u|] eqn:Hnull.
  - apply or_null_Some in Hnull as [Hsome Hne].
    rewrite Hsome. rewrite exec_username; [done..| |done].
    by apply Hu.
  - assert (username_line (Session.username session) = EmptyString) as ->.
    { unfold username_line. by rewrite Hnull. }
    rewrite exec_no_username; try done.
    apply free_of_U_calculateDuration.
Qed.

Lemma matchHere_opt_fail c tail more rest cap :
  matchHere tail (more +:+ rest) cap = None →
  matchHere tail (String c more +:+ rest) cap = None →
  matchHere (Opt c :: tail) (String c more +:+ rest) cap = None.
Proof.
  rewrite string_app_cons. intros H1 H2. cbn [matchHere].
  rewrite bool_decide_eq_true_2 by done. by rewrite H1, H2.
Qed.

Lemma exec_not_here nodes c s :
  matchHere nodes (String c s) None = None →
  exec nodes (String c s) = exec nodes s.
Proof. intros H. by rewrite exec_cons, H. Qed.

Lemma free_of_letter_ofNumber c p :
  c ∈ ["L"; "S"; "V"; "G"]%char → free_of c (JsString.ofNumber p) = true.
Proof.
  intros Hc.
  repeat (apply elem_of_cons in Hc as [->|Hc]); [..|by apply elem_of_nil in Hc];
    (destruct p as [|[]|z]; try reflexivity;
     by apply free_of_ofInteger_letter).
Qed.

Lemma free_of_letter_ofProperty c v :
  c ∈ ["L"; "S"; "V"; "G"]%char → free_of c (JsString.ofProperty v) = true.
Proof.
  intros Hc. destruct v as [p|]; [by apply free_of_letter_ofNumber|].
  repeat (apply elem_of_cons in Hc as [->|Hc]); [..|by apply elem_of_nil in Hc];
    reflexivity.
Qed.

Lemma free_of_letter_calculateDuration c durationMs :
  c ∈ ["L"; "S"; "V"; "G"]%char →
  free_of c (AssessmentService.calculateDuration durationMs) = true.
Proof.
  intros Hc. unfold AssessmentService.calculateDuration.
  destruct (Js.positive _);
    rewrite !free_of_app, !free_of_letter_ofNumber by done;
    repeat (apply elem_of_cons in Hc as [->|Hc]);
    by (reflexivity || apply elem_of_nil in Hc).
Qed.

(** A negative score is not read. *)
Lemma exec_score_negative uid username date lvl p correct total vocabulary
    grammar duration :
  allIn Digit uid = true →
  (∀ u, username = Some u → allIn Word u = true) →
  free_of "S" date = true →
  allIn Word lvl = true →
  p < 0 →
  allIn Digit correct = true → allIn Digit total = true →
  free_of "S" vocabulary = true → free_of "S" grammar = true →
  free_of "S" duration = true →
  exec MonitorBot.scorePattern
    (monitoring_text uid (username_line username) date lvl
       (JsString.ofInteger p) correct total vocabulary grammar duration)
  = None.
Proof.
  intros Huid Hu Hdate Hlvl Hp Hcorrect Htotal Hvocabulary Hgrammar
    Hduration.
  assert (free_of "S" (JsString.ofInteger p) = true) as Hscore
    by (by apply free_of_ofInteger_letter).
  unfold MonitorBot.scorePattern, monitoring_text.
  cbv zeta. unfold JsString.LF.
  do 7 skip. skip. do 6 skip. do 4 skip.
  change ("• Score: *" +:+ ?x) with ("• " +:+ ("Score: *" +:+ x)).
  skip.
  match goal with
  | |- exec ?nodes ("Score: *" +:+ ?x) = None =>
      change (exec nodes (String "S" ("core: *" +:+ x)) = None);
      rewrite exec_not_here
  end.
  - do 2 skip. do 2 skip. do 5 skip. do 4 skip. do 4 skip. do 2 skip.
    apply exec_clear_end; [done|]. by apply clear_of_free.
  - match goal with
    | |- matchHere ?nodes (String "S" ("core: *" +:+ ?x)) None = None =>
        change (matchHere nodes ("Score: " +:+ ("*" +:+ x)) None = None)
    end.
    rewrite matchHere_chars.
    destruct p as [|q|q]; try lia.
    unfold JsString.ofInteger. cbn [Z.to_int NilZero.string_of_int].
    apply matchHere_opt_fail.
    + rewrite string_app_nil_l, string_app_cons.
      by apply matchHere_group_fail.
    + rewrite string_app_cons. by apply matchHere_group_fail.
Qed.

Lemma onMessage_formatMonitoringMessage localeNow durationMs session
    assessment now saved file :
  MonitorBot.onMessage now
    (Some (AssessmentService.formatMonitoringMessage localeNow durationMs
             session assessment))
    saved file
  = MonitorBot.processResultMessage now
      (AssessmentService.formatMonitoringMessage localeNow durationMs session
         assessment)
      saved file.
Proof.
  rewrite formatMonitoringMessage_text.
  unfold monitoring_text. cbv zeta.
  change ("📝 *New Test Completed*" +:+ ?x)
    with ("📝 *" +:+ ("New Test Completed" +:+ ("*" +:+ x))).
  unfold MonitorBot.onMessage.
  rewrite includes_app. reflexivity.
Qed.

Lemma head_recent_snoc data previous result :
  MonitorBot.results data = (previous ++ [result])%list →
  head (MonitorBot.recent data) = Some result.
Proof.
  intros Hresults. unfold MonitorBot.recent. rewrite Hresults.
  rewrite length_app. cbn [length].
  rewrite drop_app_le by lia.
  by rewrite reverse_app.
Qed.

(** X20. The monitor reads what the bot forwards. Let the message be the
    one that [formatMonitoringMessage] makes of a session and an
    assessment, the user id being non-negative, the user name (if any)
    and the level being made of letters, digits and underscores, the
    level not empty, the score and the two category percentages integers
    of 0..2^53, and the date having none of the capitals U, L, S, V, G.
    Then [processResultMessage] reads in it the user id, the user name
    (none for a session without one), the level, the score and the two
    percentages of the assessment; and on a results file that has a
    level distribution, the handler of the messages appends this result
    after the results of the file, confirms with the level and the
    score, and /recent shows the result first. *)
Theorem monitor_reads_forwarded_result localeNow durationMs session
    assessment now p v g :
  0 ≤ Session.userId session →
  (∀ u, Session.username session = Some u → allIn JsRegExp.Word u = true) →
  allIn JsRegExp.Word (AssessmentService.level assessment) = true →
  AssessmentService.level assessment ≠ EmptyString →
  AssessmentService.percentageScore assessment = Js.Int p → 0 ≤ p ≤ 2 ^ 53 →
  AssessmentService.categoryPercentages assessment !! "vocabulary"
  = Some (Js.Int v) → 0 ≤ v ≤ 2 ^ 53 →
  AssessmentService.categoryPercentages assessment !! "grammar"
  = Some (Js.Int g) → 0 ≤ g ≤ 2 ^ 53 →
  no_label_initial localeNow = true →
  let text :=
    AssessmentService.formatMonitoringMessage localeNow durationMs session
      assessment in
  let result :=
    {| MonitorBot.userId := JsString.ofInteger (Session.userId session);
       MonitorBot.username := Js.or_null (Session.username session);
       MonitorBot.level := AssessmentService.level assessment;
       MonitorBot.score := MonitorBot.Number (Js.Int p);
       MonitorBot.vocabulary := MonitorBot.Number (Js.Int v);
       MonitorBot.grammar := MonitorBot.Number (Js.Int g);
       MonitorBot.timestamp := now |} in
  MonitorBot.parseResult now text = Some result
  ∧ ∀ file distribution,
      MonitorBot.levelDistribution (MonitorBot.statistics file)
      = Some distribution →
      ∃ file',
        MonitorBot.onMessage now (Some text) true (Some file)
        = (Some file',
           [MonitorBot.ResultRecorded (AssessmentService.level assessment)
              (MonitorBot.Number (Js.Int p))])
        ∧ MonitorBot.results file'
          = (MonitorBot.results (MonitorBot.stringify file) ++ [result])%list
        ∧ head (MonitorBot.recent file') = Some result.
Proof.
  intros Huid Hu Hlvl Hlvl' Hp Hp' Hv Hv' Hg Hg' Hdate text result.
  assert (MonitorBot.parseResult now text = Some result) as Hparse
    by (by apply parseResult_formatMonitoringMessage).
  split; [exact Hparse|].
  intros file distribution Hdist.
  unfold text. rewrite onMessage_formatMonitoringMessage.
  fold text. unfold MonitorBot.processResultMessage. rewrite Hparse.
  unfold MonitorBot.addResult. cbn [MonitorBot.loadResults].
  rewrite Hdist. unfold MonitorBot.saveResults.
  eexists. split; [reflexivity|].
  match goal with
  | |- ?A ∧ _ => assert A as Hresults
  end.
  { unfold MonitorBot.stringify.
    cbn [MonitorBot.results MonitorBot.statistics].
    by rewrite fmap_app. }
  split; [exact Hresults|].
  eapply head_recent_snoc, Hresults.
Qed.

Lemma monitor_reads_forwarded_result_witness :
  MonitorBot.parseResult "2024-05-01T10:04:01.000Z"
    (AssessmentService.formatMonitoringMessage "5/1/2024, 10:04:00 AM"
       (Js.Int 185000) scenario_session
       (AssessmentService.calculateAssessment
          AssessmentService.getDefaultConfig "2024-05-01T10:04:00.000Z"
          scenario_session scenario_questions))
  = Some {| MonitorBot.userId := "42";
            MonitorBot.username := Some "learner";
            MonitorBot.level := "B2";
            MonitorBot.score := MonitorBot.Number (Js.Int 80);
            MonitorBot.vocabulary := MonitorBot.Number (Js.Int 100);
            MonitorBot.grammar := MonitorBot.Number (Js.Int 50);
            MonitorBot.timestamp := "2024-05-01T10:04:01.000Z" |}.
Proof.
  refine (proj1 (monitor_reads_forwarded_result "5/1/2024, 10:04:00 AM"
                   (Js.Int 185000) scenario_session
                   (AssessmentService.calculateAssessment
                      AssessmentService.getDefaultConfig
                      "2024-05-01T10:04:00.000Z" scenario_session
                      scenario_questions)
                   "2024-05-01T10:04:01.000Z" 80 100 50
                   _ _ _ _ _ _ _ _ _ _ _)).
  - vm_compute. discriminate.
  - intros u [= <-]. reflexivity.
  - reflexivity.
  - discriminate.
  - reflexivity.
  - lia.
  - reflexivity.
  - lia.
  - reflexivity.
  - lia.
  - reflexivity.
Defined.

(** X21. A negative score is not recorded. When the score of the
    assessment is a negative integer, as weights below zero make it, the
    monitor reads no result in the message that [formatMonitoringMessage]
    makes: its handler leaves the results file as it is and sends no
    confirmation. The user id is non-negative, the user name (if any) and
    the level are made of letters, digits and underscores, and the date
    has no capital S. *)
Theorem monitor_drops_negative_score localeNow durationMs session assessment
    now p saved file :
  0 ≤ Session.userId session →
  (∀ u, Session.username session = Some u → allIn JsRegExp.Word u = true) →
  allIn JsRegExp.Word (AssessmentService.level assessment) = true →
  AssessmentService.percentageScore assessment = Js.Int p → p < 0 →
  free_of "S" localeNow = true →
  MonitorBot.onMessage now
    (Some (AssessmentService.formatMonitoringMessage localeNow durationMs
             session assessment))
    saved file
  = (file, []).
Proof.
  intros Huid Hu Hlvl Hp Hneg Hdate.
  rewrite onMessage_formatMonitoringMessage.
  unfold MonitorBot.processResultMessage, MonitorBot.parseResult.
  rewrite formatMonitoringMessage_text, Hp.
  cbn [JsString.ofNumber].
  destruct (ofInteger_digits _ Huid) as [Huid1 _].
  destruct (ofInteger_digits
              (Z.of_nat (AssessmentService.correctAnswers assessment)))
    as [Hc1 _]; [lia|].
  destruct (ofInteger_digits
              (Z.of_nat (AssessmentService.totalQuestions assessment)))
    as [Ht1 _]; [lia|].
  rewrite exec_score_negative; try done.
  - cbv zeta. by repeat case_match.
  - apply free_of_letter_ofProperty. set_solver.
  - apply free_of_letter_ofProperty. set_solver.
  - apply free_of_letter_calculateDuration. set_solver.
Qed.

Lemma monitor_drops_negative_score_witness :
  MonitorBot.onMessage "2024-05-01T10:04:01.000Z"
    (Some (AssessmentService.formatMonitoringMessage "5/1/2024, 10:04:00 AM"
             (Js.Int 185000) penalty_session
             (AssessmentService.calculateAssessment
                AssessmentService.getDefaultConfig "2024-05-01T10:04:00.000Z"
                penalty_session penalty_questions)))
    true (Some MonitorBot.initialData)
  = (Some MonitorBot.initialData, []).
Proof.
  apply (monitor_drops_negative_score _ _ _ _ _ (-50)).
  - vm_compute. discriminate.
  - intros u [= <-]. reflexivity.
  - reflexivity.
  - reflexivity.
  - lia.
  - reflexivity.
Defined.

End MonitorRoundTrip.

(** ** The results file of the monitor *)

Section MonitorFile.

Lemma levelCount_fmap lvl (f : MonitorBot.Result → MonitorBot.Result)
    results :
  (∀ r, MonitorBot.level (f r) = MonitorBot.level r) →
  levelCount lvl (f <$> results) = levelCount lvl results.
Proof.
  intros Hf. unfold levelCount.
  induction results as [|r results IH]; [done|].
  rewrite fmap_cons, !filter_cons, Hf.
  destruct (decide (MonitorBot.level r = lvl)); simpl; by rewrite IH.
Qed.

Lemma levelCount_snoc lvl results r :
  levelCount lvl (results ++ [r])
  = (levelCount lvl results
     + if decide (MonitorBot.level r = lvl) then 1 else 0)%nat.
Proof.
  unfold levelCount. rewrite filter_app, length_app.
  rewrite filter_cons, filter_nil.
  by destruct (decide (MonitorBot.level r = lvl)).
Qed.

Lemma levelCount_le lvl results :
  (levelCount lvl results ≤ length results)%nat.
Proof. apply length_filter. Qed.

Lemma toNumber_succ n :
  Z.of_nat n < 2 ^ 53 →
  JsString.toNumber (Z.of_nat n + 1) = Js.Int (Z.of_nat (S n)).
Proof.
  intros Hn. unfold JsString.toNumber.
  rewrite bool_decide_eq_true_2 by lia.
  f_equal. lia.
Qed.

Lemma initialData_agree : statistics_agree MonitorBot.initialData.
Proof.
  split; [reflexivity|].
  eexists. split; [reflexivity|].
  intros lvl Hlvl. unfold listedLevels in Hlvl.
  repeat (apply elem_of_cons in Hlvl as [->|Hlvl]);
    [..|by apply elem_of_nil in Hlvl]; reflexivity.
Qed.

(** A result added to a file whose statistics agree. *)
Lemma addResult_agree result data :
  statistics_agree data →
  Z.of_nat (length (MonitorBot.results data)) < 2 ^ 53 →
  ∃ data',
    MonitorBot.addResult result data = Some data'
    ∧ statistics_agree (MonitorBot.stringify data')
    ∧ length (MonitorBot.results (MonitorBot.stringify data'))
      = S (length (MonitorBot.results data)).
Proof.
  intros [Htotal (distribution & Hdist & Hcount)] Hlen.
  unfold MonitorBot.addResult. rewrite Hdist.
  eexists. split; [reflexivity|].
  unfold MonitorBot.stringify.
  cbn [MonitorBot.results MonitorBot.statistics MonitorBot.totalTests
       MonitorBot.levelDistribution MonitorBot.averageScore].
  assert (∀ A (f : MonitorBot.Result → A),
            length (f <$> (MonitorBot.results data ++ [result])%list)
            = S (length (MonitorBot.results data))) as Hlength.
  { intros A f. rewrite length_fmap, length_app. simpl. lia. }
  split; [|apply Hlength].
  split.
  - cbn [MonitorBot.results MonitorBot.statistics MonitorBot.totalTests].
    rewrite Hlength, Htotal. cbn [MonitorBot.increment fmap option_fmap
      option_map].
    by rewrite toNumber_succ.
  - eexists. split; [reflexivity|].
    intros lvl Hlvl.
    cbn [MonitorBot.results].
    rewrite levelCount_fmap by done.
    rewrite levelCount_snoc, lookup_fmap.
    pose proof (Hcount lvl Hlvl) as Hhere.
    pose proof (levelCount_le lvl (MonitorBot.results data)) as Hle.
    unfold MonitorBot.incrementLevel.
    case_bool_decide as Hproto.
    + rewrite Hhere.
      destruct (decide (MonitorBot.level result = lvl)) as [<-|_].
      * exfalso. rewrite Hproto in Hlvl. unfold listedLevels in Hlvl.
        repeat (apply elem_of_cons in Hlvl as [Hlvl|Hlvl]);
          [..|by apply elem_of_nil in Hlvl]; discriminate.
      * simpl. by rewrite Nat.add_0_r.
    + destruct (decide (MonitorBot.level result = lvl)) as [->|Hne].
      * rewrite lookup_insert_eq, Hhere.
        cbn [MonitorBot.increment fmap option_fmap option_map].
        rewrite toNumber_succ by lia.
        simpl. do 4 f_equal. lia.
      * rewrite lookup_insert_ne by done.
        rewrite Hhere. simpl. by rewrite Nat.add_0_r.
Qed.

(** An event on a file whose statistics agree. *)
Lemma monitor_step_agree event data :
  statistics_agree data →
  Z.of_nat (length (MonitorBot.results data)) < 2 ^ 53 →
  ∃ data',
    monitor_step (Some data) event = Some data'
    ∧ statistics_agree data'
    ∧ (length (MonitorBot.results data')
       ≤ S (length (MonitorBot.results data)))%nat.
Proof.
  intros Hagree Hlen.
  assert (∃ data',
            Some data = Some data' ∧ statistics_agree data'
            ∧ (length (MonitorBot.results data')
               ≤ S (length (MonitorBot.results data)))%nat) as Hsame
    by (exists data; split; [done|]; split; [done|lia]).
  destruct event as [now text|].
  - unfold monitor_step, MonitorBot.onMessage.
    destruct text as [t|]; [|exact Hsame].
    destruct (_ && JsString.startsWith _ _); [exact Hsame|].
    destruct (_ && JsString.includes _ _); [|exact Hsame].
    unfold MonitorBot.processResultMessage.
    destruct (MonitorBot.parseResult now t) as [result|]; [|exact Hsame].
    cbn [MonitorBot.loadResults].
    destruct (addResult_agree result data Hagree Hlen)
      as (data' & -> & Hagree' & Hlen').
    eexists. split; [reflexivity|]. split; [exact Hagree'|]. lia.
  - eexists. split; [reflexivity|]. split; [exact initialData_agree|].
    simpl. lia.
Qed.

Lemma monitor_run_agree events : ∀ data,
  statistics_agree data →
  Z.of_nat (length (MonitorBot.results data) + length events) ≤ 2 ^ 53 →
  ∃ data',
    monitor_run events (Some data) = Some data'
    ∧ statistics_agree data'
    ∧ (length (MonitorBot.results data')
       ≤ length (MonitorBot.results data) + length events)%nat.
Proof.
  induction events as [|event events IH]; intros data Hagree Hlen.
  - exists data. split; [done|]. split; [done|lia].
  - cbn [length] in Hlen.
    destruct (monitor_step_agree event data Hagree) as
      (data1 & Hstep & Hagree1 & Hlen1); [lia|].
    destruct (IH data1 Hagree1) as (data' & Hrun & Hagree' & Hlen');
      [lia|].
    exists data'. unfold monitor_run. cbn [foldl]. rewrite Hstep.
    split; [exact Hrun|]. split; [exact Hagree'|]. cbn [length]. lia.
Qed.

(** X22. The statistics of the monitor count its results. From the file
    that [initializeStorage] creates, after any events of the monitor
    (messages, which the handler of the messages processes, and
    confirmations of /clear), at most 2^53 of them and each handled to
    its end with the file written: the file is there, its total of tests
    is the number of its results, and its count of each of the levels
    A1, A2, B1, B2 is the number of its results of this level; there are
    no more results than events. And while the file cannot be read, the
    handler of the messages records nothing and confirms nothing,
    whatever the message. *)
Theorem monitor_statistics_count_results events :
  Z.of_nat (length events) ≤ 2 ^ 53 →
  (∃ data,
     monitor_run events (Some MonitorBot.initialData) = Some data
     ∧ statistics_agree data
     ∧ (length (MonitorBot.results data) ≤ length events)%nat)
  ∧ ∀ now text saved,
      MonitorBot.onMessage now text saved None = (None, []).
Proof.
  intros Hlen. split.
  - destruct (monitor_run_agree events MonitorBot.initialData
                initialData_agree) as (data & Hrun & Hagree & Hle);
      [simpl; lia|].
    exists data. split; [exact Hrun|]. split; [exact Hagree|].
    simpl in Hle. lia.
  - intros now text saved. unfold MonitorBot.onMessage.
    destruct text as [t|]; [|done].
    destruct (_ && JsString.startsWith _ _); [done|].
    destruct (_ && JsString.includes _ _); [|done].
    unfold MonitorBot.processResultMessage.
    by destruct (MonitorBot.parseResult now t).
Qed.

Lemma monitor_statistics_count_results_witness :
  ∃ data,
    monitor_run
      [Received "2024-05-01T10:04:01.000Z" (Some "/start");
       ClearConfirmed;
       Received "2024-05-01T11:00:00.000Z"
         (Some "New Test Completed User ID: 42 Level: B2 Score: 80%")]
      (Some MonitorBot.initialData)
    = Some data
    ∧ statistics_agree data
    ∧ (length (MonitorBot.results data) ≤ 3)%nat.
Proof.
  refine (proj1 (monitor_statistics_count_results
                   [Received "2024-05-01T10:04:01.000Z" (Some "/start");
                    ClearConfirmed;
                    Received "2024-05-01T11:00:00.000Z"
                      (Some "New Test Completed User ID: 42 Level: B2 Score: 80%")]
                   _)).
  simpl. lia.
Defined.

End MonitorFile.

(** ** The monitoring service *)

Section MonitoringServiceProofs.

Lemma or_given config env :
  is_Some (Js.or_null (MonitoringService.or config env)) ↔ given config env.
Proof.
  unfold MonitoringService.or, given, Js.or_null.
  split.
  - intros [v Hv].
    destruct config as [c|].
    + destruct (bool_decide (c = EmptyString)) eqn:Hc.
      * destruct env as [e|]; [|done].
        case_bool_decide; [done|]. exists e. split; [done|]. by right.
      * rewrite Hc in Hv. exists c.
        apply bool_decide_eq_false in Hc. split; [done|]. by left.
    + destruct env as [e|]; [|done].
      case_bool_decide; [done|]. exists e. split; [done|]. by right.
  - intros (v & Hne & [->|[Hnone ->]]).
    + rewrite !bool_decide_eq_false_2 by done. by eexists.
    + destruct config as [c|].
      * case_bool_decide; [|done].
        rewrite bool_decide_eq_false_2 by done. by eexists.
      * rewrite bool_decide_eq_false_2 by done. by eexists.
Qed.

(** X23. The monitoring service forwards when it is configured, and only
    then. The service is enabled exactly when a bot token and a chat id
    are given (by the argument of the constructor or, failing that, by
    the environment; an empty string is no value) and the client of the
    bot could be created. [forwardResults] and [sendMessage] hand the
    message to the client exactly when the service is enabled, and
    return true exactly when, moreover, the client delivers it: a
    rejected call is caught and gives false. The status reports the
    client as initialized exactly when the service is enabled, and an
    enabled service reports its token and its chat id as present. *)
Theorem monitoring_service_forwards_iff_configured configToken configChatId
    envToken envChatId created outcome :
  let this :=
    MonitoringService.construct configToken configChatId envToken envChatId
      created in
  let delivered :=
    match outcome with
    | MonitoringService.Delivered => true
    | MonitoringService.Rejected => false
    end in
  (MonitoringService.isEnabled this = true
   ↔ given configToken envToken ∧ given configChatId envChatId
     ∧ created = true)
  ∧ MonitoringService.forwardResults this outcome
    = (MonitoringService.isEnabled this,
       MonitoringService.isEnabled this && delivered)
  ∧ MonitoringService.sendMessage this outcome
    = (MonitoringService.isEnabled this,
       MonitoringService.isEnabled this && delivered)
  ∧ MonitoringService.botInitialized (MonitoringService.getStatus this)
    = MonitoringService.isEnabled this
  ∧ (MonitoringService.isEnabled this = true →
     MonitoringService.hasBotToken (MonitoringService.getStatus this) = true
     ∧ MonitoringService.hasChatId (MonitoringService.getStatus this)
       = true).
Proof.
  intros this delivered.
  unfold MonitoringService.isEnabled, MonitoringService.forwardResults,
    MonitoringService.sendMessage, MonitoringService.getStatus.
  subst this delivered. unfold MonitoringService.construct.
  cbn [MonitoringService.enabled MonitoringService.bot
       MonitoringService.monitorBotToken MonitoringService.monitorChatId
       MonitoringService.botInitialized MonitoringService.hasBotToken
       MonitoringService.hasChatId].
  rewrite <- !or_given.
  split.
  { rewrite !andb_true_iff, !bool_decide_eq_true. tauto. }
  split.
  { by destruct (_ && _ && created), outcome. }
  split.
  { by destruct (_ && _ && created), outcome. }
  split; [done|].
  rewrite !andb_true_iff. tauto.
Qed.

End MonitoringServiceProofs.

(** ** What the monitor reads in any text *)

Section MonitorReads.
Import JsRegExp.

Lemma matchHere_noGroup nodes : ∀ s cap r,
  noGroup nodes = true → matchHere nodes s cap = Some r → r = cap.
Proof.
  induction nodes as [|node nodes IH]; intros s cap r Hno Hmatch.
  - simpl in Hmatch. congruence.
  - cbn [noGroup forallb] in Hno. apply andb_prop in Hno as [Hnode Hno].
    destruct node as [c|c|cls]; [| |done].
    + cbn [matchHere] in Hmatch.
      destruct s as [|d s']; [done|].
      destruct (bool_decide (c = d)); [|done].
      by apply (IH s' cap).
    + cbn [matchHere] in Hmatch.
      destruct s as [|d s']; [by apply (IH EmptyString cap)|].
      destruct (bool_decide (c = d)).
      * destruct (matchHere nodes s' cap) as [r'|] eqn:Hfirst.
        -- injection Hmatch as <-. by apply (IH s' cap).
        -- by apply (IH (String d s') cap).
      * by apply (IH (String d s') cap).
Qed.

Lemma allIn_app cls s t :
  allIn cls (s +:+ t) = allIn cls s && allIn cls t.
Proof.
  induction s as [|c s IH]; [done|].
  rewrite string_app_cons. simpl. by rewrite IH, andb_assoc.
Qed.

Lemma plus_captures {R} cls (continue : string → string → option R) :
  ∀ s taken r,
  allIn cls taken = true →
  plus cls continue s taken = Some r →
  ∃ s' taken', run_of cls taken' ∧ continue s' taken' = Some r.
Proof.
  induction s as [|c s IH]; intros taken r Htaken Hplus; [done|].
  cbn [plus] in Hplus.
  destruct (inClass cls c) eqn:Hc; [|done].
  assert (allIn cls (taken +:+ String c EmptyString) = true) as Htaken'.
  { rewrite allIn_app, Htaken. simpl. by rewrite Hc. }
  destruct (plus cls continue s (taken +:+ String c EmptyString))
    as [r'|] eqn:Hmore.
  - injection Hplus as <-. by apply (IH _ _ Htaken').
  - exists s, (taken +:+ String c EmptyString).
    split; [|done]. split; [|done].
    by destruct taken.
Qed.

Lemma matchHere_captures cls nodes : ∀ s cap r,
  oneGroup cls nodes = true → matchHere nodes s cap = Some r →
  ∃ g, r = Some g ∧ run_of cls g.
Proof.
  induction nodes as [|node nodes IH]; intros s cap r Hone Hmatch; [done|].
  destruct node as [c|c|cls'].
  - cbn [oneGroup] in Hone. cbn [matchHere] in Hmatch.
    destruct s as [|d s']; [done|].
    destruct (bool_decide (c = d)); [|done].
    by apply (IH s' cap).
  - cbn [oneGroup] in Hone. cbn [matchHere] in Hmatch.
    destruct s as [|d s']; [by apply (IH EmptyString cap)|].
    destruct (bool_decide (c = d)).
    + destruct (matchHere nodes s' cap) as [r'|] eqn:Hfirst.
      * injection Hmatch as <-. by apply (IH s' cap).
      * by apply (IH (String d s') cap).
    + by apply (IH (String d s') cap).
  - cbn [oneGroup] in Hone. cbn [matchHere] in Hmatch.
    assert (cls' = cls ∧ noGroup nodes = true) as [-> Hno]
      by (by destruct cls', cls).
    apply plus_captures in Hmatch as (s' & g & Hrun & Hrest); [|done].
    apply matchHere_noGroup in Hrest as ->; [|done].
    by exists g.
Qed.

Lemma exec_captures cls nodes : ∀ s r,
  oneGroup cls nodes = true → exec nodes s = Some r →
  ∃ g, r = Some g ∧ run_of cls g.
Proof.
  induction s as [|c s IH]; intros r Hone Hexec.
  - cbn [exec] in Hexec.
    destruct (matchHere nodes EmptyString None) as [r'|] eqn:Hhere; [|done].
    injection Hexec as <-. by eapply matchHere_captures.
  - rewrite exec_cons in Hexec.
    destruct (matchHere nodes (String c s) None) as [r'|] eqn:Hhere.
    + injection Hexec as <-. by eapply matchHere_captures.
    + by apply IH.
Qed.

Lemma digit_cases c :
  inClass Digit c = true →
  c ∈ ["0"; "1"; "2"; "3"; "4"; "5"; "6"; "7"; "8"; "9"]%char.
Proof.
  destruct c as [[] [] [] [] [] [] [] []]; intros Hc;
    try discriminate Hc; repeat constructor.
Qed.

Lemma digitValue_inClass c :
  inClass Digit c = true →
  ∃ d, 0 ≤ d ≤ 9 ∧ JsString.digitValue 10 c = Some d.
Proof.
  intros Hc. apply digit_cases in Hc.
  repeat (apply elem_of_cons in Hc as [->|Hc]); [..|by apply elem_of_nil in Hc];
    (eexists; split; [|vm_compute; reflexivity]; lia).
Qed.

Lemma digits_allIn s : ∀ a,
  allIn Digit s = true → 0 ≤ a →
  ∃ n, 0 ≤ n ∧ JsString.digits 10 s (Some a) = Some n.
Proof.
  induction s as [|c s IH]; intros a Hs Ha; [by exists a|].
  cbn [allIn] in Hs. apply andb_prop in Hs as [Hc Hs].
  destruct (digitValue_inClass c Hc) as (d & Hd & Hvalue).
  cbn [JsString.digits]. rewrite Hvalue. cbn [default]. unfold id.
  apply IH; [done|lia].
Qed.

Lemma parseInt_run g :
  run_of Digit g → ∃ n, 0 ≤ n ∧ JsString.parseInt g = JsString.toNumber n.
Proof.
  intros [Hne Hg]. destruct g as [|c g]; [done|].
  cbn [allIn] in Hg. apply andb_prop in Hg as [Hc Hg].
  assert (∀ d,
            inClass Digit d = true →
            ∃ n, 0 ≤ n
                 ∧ match JsString.digits 10 (String d g) None with
                   | Some n' => JsString.toNumber n'
                   | None => Js.NaN
                   end = JsString.toNumber n) as Hbody.
  { intros d Hd. cbn [JsString.digits].
    destruct (digitValue_inClass d Hd) as (a & Ha & ->). cbn [default].
    destruct (digits_allIn g (10 * 0 + a) Hg) as (n & Hn & ->); [lia|].
    by exists n. }
  apply digit_cases in Hc.
  repeat (apply elem_of_cons in Hc as [->|Hc]); [..|by apply elem_of_nil in Hc];
    try (unfold JsString.parseInt; simpl JsString.trimStart; cbv iota beta;
         apply Hbody; reflexivity).
  destruct g as [|d g].
  - exists 0. split; [lia|]. reflexivity.
  - cbn [allIn] in Hg. apply andb_prop in Hg as [Hd Hg'].
    apply digit_cases in Hd.
    repeat (apply elem_of_cons in Hd as [->|Hd]);
      [..|by apply elem_of_nil in Hd];
      (unfold JsString.parseInt; simpl JsString.trimStart; cbv iota beta;
       apply (Hbody "0"%char); reflexivity).
Qed.

Lemma parsedOrNull_digits m :
  (∀ r, m = Some r → ∃ g, r = Some g ∧ run_of Digit g) →
  MonitorBot.parsedOrNull m = MonitorBot.Null
  ∨ parsed_digits (MonitorBot.parsedOrNull m).
Proof.
  intros Hm. destruct m as [r|]; [|by left].
  right. destruct (Hm r eq_refl) as (g & -> & Hrun).
  destruct (parseInt_run g Hrun) as (n & Hn & Hparse).
  exists n. split; [done|]. simpl. by rewrite Hparse.
Qed.

(** X24. What the monitor reads in any text. Whatever the text, a result
    that [processResultMessage] reads in it has a user id made of one
    digit at least and of digits only, a level made of one character at
    least, all of them letters, digits or underscores, and a user name
    that is null or such a string as well; its score is the number that
    [parseInt] makes of a non-negative integer, and each of its two
    percentages is null or such a number. *)
Theorem monitor_reads_digits_and_words now text result :
  MonitorBot.parseResult now text = Some result →
  run_of Digit (MonitorBot.userId result)
  ∧ run_of Word (MonitorBot.level result)
  ∧ (∀ u, MonitorBot.username result = Some u → run_of Word u)
  ∧ parsed_digits (MonitorBot.score result)
  ∧ (MonitorBot.vocabulary result = MonitorBot.Null
     ∨ parsed_digits (MonitorBot.vocabulary result))
  ∧ (MonitorBot.grammar result = MonitorBot.Null
     ∨ parsed_digits (MonitorBot.grammar result))
  ∧ MonitorBot.timestamp result = now.
Proof.
  unfold MonitorBot.parseResult. cbv zeta. intros Hparse.
  destruct (exec MonitorBot.userIdPattern text) as [userIdGroup|] eqn:Huid;
    [|done].
  destruct (exec MonitorBot.levelPattern text) as [levelGroup|] eqn:Hlevel;
    [|done].
  destruct (exec MonitorBot.scorePattern text) as [scoreGroup|] eqn:Hscore;
    [|done].
  injection Hparse as <-.
  cbn [MonitorBot.userId MonitorBot.level MonitorBot.username
       MonitorBot.score MonitorBot.vocabulary MonitorBot.grammar
       MonitorBot.timestamp].
  apply (exec_captures Digit) in Huid as (uid & -> & Huid); [|done].
  apply (exec_captures Word) in Hlevel as (lvl & -> & Hlevel); [|done].
  apply (exec_captures Digit) in Hscore as (sc & -> & Hscore); [|done].
  split; [exact Huid|]. split; [exact Hlevel|].
  split.
  { intros u Hu.
    destruct (exec MonitorBot.usernamePattern text) as [r|] eqn:Hname;
      [|done].
    apply (exec_captures Word) in Hname as (g & -> & Hname); [|done].
    simpl in Hu. by injection Hu as <-. }
  split.
  { destruct (parseInt_run sc Hscore) as (n & Hn & Hparse).
    exists n. split; [done|]. simpl. by rewrite Hparse. }
  split; [|split; [|done]].
  - apply parsedOrNull_digits. intros r Hr.
    by apply (exec_captures Digit) in Hr.
  - apply parsedOrNull_digits. intros r Hr.
    by apply (exec_captures Digit) in Hr.
Qed.

Lemma monitor_reads_digits_and_words_witness :
  run_of Digit "42"
  ∧ run_of Word "B2"
  ∧ (∀ u, Some "learner" = Some u → run_of Word u)
  ∧ parsed_digits (MonitorBot.Number (Js.Int 80))
  ∧ (MonitorBot.Null = MonitorBot.Null
     ∨ parsed_digits MonitorBot.Null)
  ∧ (MonitorBot.Number (Js.Int 50) = MonitorBot.Null
     ∨ parsed_digits (MonitorBot.Number (Js.Int 50)))
  ∧ "2024-05-01T11:00:00.000Z" = "2024-05-01T11:00:00.000Z".
Proof.
  apply (monitor_reads_digits_and_words "2024-05-01T11:00:00.000Z"
           "New Test Completed User ID: 42, Username: @learner Level: B2 Score: 80% Grammar: 50%"
           {| MonitorBot.userId := "42";
              MonitorBot.username := Some "learner";
              MonitorBot.level := "B2";
              MonitorBot.score := MonitorBot.Number (Js.Int 80);
              MonitorBot.vocabulary := MonitorBot.Null;
              MonitorBot.grammar := MonitorBot.Number (Js.Int 50);
              MonitorBot.timestamp := "2024-05-01T11:00:00.000Z" |}).
  reflexivity.
Defined.

End MonitorReads.

(** ** The export of the monitor *)

Section MonitorExport.
Import JsRegExp.

Lemma allIn_free cls c s :
  inClass cls c = false → allIn cls s = true → free_of c s = true.
Proof.
  intros Hc. induction s as [|d s IH]; [done|].
  cbn [allIn free_of]. intros [Hd Hs]%andb_prop.
  rewrite IH, andb_true_r by done.
  apply negb_true_iff, bool_decide_eq_false_2. intros ->. congruence.
Qed.

Lemma free_of_ofValue c v :
  inClass Digit c = false →
  c ∉ String.list_ascii_of_string "-nulNaIfity/A" →
  free_of c (MonitorBot.ofValue v) = true
  ∧ free_of c (MonitorBot.orNA v) = true.
Proof.
  intros Hdigit Hc.
  assert (∀ text,
            (∀ d, d ∈ String.list_ascii_of_string text →
                  d ∈ String.list_ascii_of_string "-nulNaIfity/A") →
            free_of c text = true) as Hfree.
  { induction text as [|d text IH]; [done|]. intros Hsub.
    cbn [free_of]. rewrite IH.
    - rewrite andb_true_r. apply negb_true_iff, bool_decide_eq_false_2.
      intros ->. apply Hc, Hsub. simpl. left.
    - intros e He. apply Hsub. simpl. by right. }
  assert (c ≠ "-"%char) as Hminus.
  { intros ->. apply Hc. simpl. left. }
  assert (∀ n, free_of c (JsString.ofNumber n) = true) as Hnumber.
  { intros [|[]|z]; [apply Hfree..|by apply free_of_ofInteger_letter];
      intros d Hd; simpl in Hd |- *;
      repeat (apply elem_of_cons in Hd as [->|Hd]);
      try (by apply elem_of_nil in Hd); repeat constructor. }
  assert (free_of c "N/A" = true) as HNA.
  { apply Hfree. intros d Hd. simpl in Hd |- *.
    repeat (apply elem_of_cons in Hd as [->|Hd]);
      try (by apply elem_of_nil in Hd); repeat constructor. }
  split.
  - destruct v as [|n]; [|apply Hnumber].
    apply Hfree. intros d Hd. simpl in Hd |- *.
    repeat (apply elem_of_cons in Hd as [->|Hd]);
      try (by apply elem_of_nil in Hd); repeat constructor.
  - destruct v as [|[|[]|[]]]; try exact HNA;
      apply (Hnumber (Js.Inf _)) || apply (Hnumber (Js.Int _)).
Qed.

Lemma split_comma s t :
  free_of "," s = true →
  JsString.split "," (s +:+ "," +:+ t) = s :: JsString.split "," t.
Proof. intros Hs. by apply split_app. Qed.

(** X25. The line of a result in the export. Let a result be read by
    [processResultMessage] in any text, at a time whose rendering has
    neither a comma nor a line feed, its numbers being below 10^21, and
    let it be stored as the file stores it. Then its line in the
    document of /export has seven fields between commas: the user id,
    the user name or N/A, the level, the score, the two percentages and
    the time, followed by the one line feed of the line. A score that
    the file holds as null is written null; a percentage that is
    missing, null or 0 is written N/A. *)
Theorem monitor_export_row now text result :
  MonitorBot.parseResult now text = Some result →
  free_of "," now = true → free_of "010" now = true →
  printable (MonitorBot.score result) →
  printable (MonitorBot.vocabulary result) →
  printable (MonitorBot.grammar result) →
  let stored := MonitorBot.stringifyResult result in
  let fields :=
    [ MonitorBot.userId result;
      default "N/A" (MonitorBot.username result);
      MonitorBot.level result;
      MonitorBot.ofValue (MonitorBot.score stored);
      MonitorBot.orNA (MonitorBot.vocabulary stored);
      MonitorBot.orNA (MonitorBot.grammar stored);
      now ] in
  JsString.split "," (MonitorBot.exportRow stored)
  = [ MonitorBot.userId result;
      default "N/A" (MonitorBot.username result);
      MonitorBot.level result;
      MonitorBot.ofValue (MonitorBot.score stored);
      MonitorBot.orNA (MonitorBot.vocabulary stored);
      MonitorBot.orNA (MonitorBot.grammar stored);
      now +:+ JsString.LF ]
  ∧ Forall (λ field, free_of "010" field = true) fields
  ∧ MonitorBot.orNA (MonitorBot.Number (Js.Int 0)) = "N/A"
  ∧ MonitorBot.ofValue (MonitorBot.toJSON (MonitorBot.Number (Js.Inf false)))
    = "null".
Proof.
  intros Hparse Hcomma Hfeed _ _ _ stored fields.
  assert (MonitorBot.timestamp result = now) as Hnow.
  { unfold MonitorBot.parseResult in Hparse. cbv zeta in Hparse.
    repeat case_match; try done. by injection Hparse as <-. }
  assert (run_of Digit (MonitorBot.userId result)
          ∧ run_of Word (MonitorBot.level result)
          ∧ ∀ u, MonitorBot.username result = Some u → run_of Word u)
    as ([_ Huid] & [_ Hlevel] & Hname).
  { unfold MonitorBot.parseResult in Hparse. cbv zeta in Hparse.
    destruct (exec MonitorBot.userIdPattern text) as [userIdGroup|] eqn:Huid;
      [|done].
    destruct (exec MonitorBot.levelPattern text) as [levelGroup|] eqn:Hlevel;
      [|done].
    destruct (exec MonitorBot.scorePattern text) as [scoreGroup|]; [|done].
    injection Hparse as <-.
    cbn [MonitorBot.userId MonitorBot.level MonitorBot.username].
    apply (exec_captures Digit) in Huid as (uid & -> & Huid); [|done].
    apply (exec_captures Word) in Hlevel as (lvl & -> & Hlevel); [|done].
    split; [done|]. split; [done|].
    intros u Hu.
    destruct (exec MonitorBot.usernamePattern text) as [r|] eqn:Hname;
      [|done].
    apply (exec_captures Word) in Hname as (g & -> & Hname); [|done].
    simpl in Hu. by injection Hu as <-. }
  assert (default "N/A" (Js.or_null (MonitorBot.username result))
          = default "N/A" (MonitorBot.username result)) as Hor.
  { destruct (MonitorBot.username result) as [u|] eqn:Hu; [|done].
    destruct (Hname u eq_refl) as [Hne _]. simpl.
    by rewrite bool_decide_eq_false_2. }
  assert (∀ c, inClass Word c = false → c ≠ "/"%char →
               free_of c (default "N/A" (MonitorBot.username result)) = true)
    as Husername'.
  { intros c Hc Hslash. destruct (MonitorBot.username result) as [u|] eqn:Hu.
    - simpl. apply (allIn_free Word); [done|]. by apply Hname.
    - simpl. rewrite !bool_decide_eq_false_2; [done|..];
        intros <-; done. }
  assert (∀ c v, inClass Digit c = false →
                 c ∉ String.list_ascii_of_string "-nulNaIfity/A" →
                 free_of c (MonitorBot.ofValue v) = true
                 ∧ free_of c (MonitorBot.orNA v) = true) as Hvalue
    by (intros; by apply free_of_ofValue).
  assert (","%char ∉ String.list_ascii_of_string "-nulNaIfity/A") as Hc1.
  { simpl. intros Hin.
    repeat (apply elem_of_cons in Hin as [Hin|Hin]);
      try (by apply elem_of_nil in Hin); discriminate. }
  assert ("010"%char ∉ String.list_ascii_of_string "-nulNaIfity/A") as Hc2.
  { simpl. intros Hin.
    repeat (apply elem_of_cons in Hin as [Hin|Hin]);
      try (by apply elem_of_nil in Hin); discriminate. }
  split; [|split; [|done]].
  - unfold MonitorBot.exportRow, stored, fields.
    cbn [MonitorBot.stringifyResult MonitorBot.userId MonitorBot.username
         MonitorBot.level MonitorBot.score MonitorBot.vocabulary
         MonitorBot.grammar MonitorBot.timestamp].
    rewrite Hor, Hnow.
    rewrite split_comma by (by apply (allIn_free Digit)).
    rewrite split_comma by (by apply Husername').
    rewrite split_comma by (by apply (allIn_free Word)).
    rewrite split_comma by (by apply Hvalue).
    rewrite split_comma by (by apply Hvalue).
    rewrite split_comma by (by apply Hvalue).
    rewrite split_free; [reflexivity|].
    rewrite free_of_app, Hcomma. reflexivity.
  - unfold fields, stored.
    cbn [MonitorBot.stringifyResult MonitorBot.score MonitorBot.vocabulary
         MonitorBot.grammar].
    repeat apply Forall_cons_2; try apply Forall_nil_2; try done.
    + by apply (allIn_free Digit).
    + by apply Husername'.
    + by apply (allIn_free Word).
    + by apply Hvalue.
    + by apply Hvalue.
    + by apply Hvalue.
Qed.

Lemma monitor_export_row_witness :
  JsString.split ","
    (MonitorBot.exportRow
       {| MonitorBot.userId := "42";
          MonitorBot.username := Some "learner";
          MonitorBot.level := "B2";
          MonitorBot.score := MonitorBot.Number (Js.Int 80);
          MonitorBot.vocabulary := MonitorBot.Null;
          MonitorBot.grammar := MonitorBot.Number (Js.Int 50);
          MonitorBot.timestamp := "2024-05-01T11:00:00.000Z" |})
  = ["42"; "learner"; "B2"; "80"; "N/A"; "50";
     "2024-05-01T11:00:00.000Z" +:+ JsString.LF].
Proof.
  refine (proj1 (monitor_export_row "2024-05-01T11:00:00.000Z"
                   "New Test Completed User ID: 42, Username: @learner Level: B2 Score: 80% Grammar: 50%"
                   {| MonitorBot.userId := "42";
                      MonitorBot.username := Some "learner";
                      MonitorBot.level := "B2";
                      MonitorBot.score := MonitorBot.Number (Js.Int 80);
                      MonitorBot.vocabulary := MonitorBot.Null;
                      MonitorBot.grammar := MonitorBot.Number (Js.Int 50);
                      MonitorBot.timestamp := "2024-05-01T11:00:00.000Z" |}
                   _ _ _ _ _ _)).
  - reflexivity.
  - reflexivity.
  - reflexivity.
  - intros z [= <-]. lia.
  - intros z [=].
  - intros z [= <-]. lia.
Defined.

End MonitorExport.
